(** * store-it: the utility functions and server actions, embedded and verified

    The development follows the layout of the repository:
    - [Js]           the ECMAScript built-ins the code calls (split, pop,
                     toLowerCase, includes, Number.prototype.toFixed, Number);
    - [Utils]        src/lib/utils.ts (convertFileSize, calculatePercentage,
                     getFileType, constructFileUrl);
    - [Server]       the effects of a server action: console, calls of the
                     backend SDK, storage bucket, session cookie;
    - [UserActions]  src/lib/actions/user.actions.ts;
    - [FileActions]  the file actions (uploadFile, createQueries, getFiles,
                     renameFile, updateFileUsers, deleteFile,
                     getTotalSpaceUsed);
    - [Actions]      the exported actions as one type, with [perform];
    - [Uploader]     src/components/FileUploader.tsx (onDrop);
    - [Samples], [Sizes], [Queries], [Uploads], [Usage]
                     sample data and the vocabulary of the statements;
    - [JsFacts] ... [ErrorFacts]  the lemmas and theorems.

    Numbers: a byte count is an integer of the safe range of a JS number, so
    it is a [Z]; the quotients formed from it are exact rationals ([Q]), as
    they are in the code, where the divisors are powers of two; a sum of
    byte counts is rounded to a double ([number_add]), which changes nothing
    within the safe range.
    Strings are sequences of 8-bit characters; [toLowerCase] is the one of
    ASCII. *)

From Stdlib Require Import ZArith QArith Qround List String Ascii Bool Lia.
Import ListNotations.

Local Open Scope string_scope.
Local Open Scope Z_scope.

(* ================================================================== *)
(** * ECMAScript built-ins *)
(* ================================================================== *)

Module Js.

(** [String.prototype.split] with a one-character separator: the segments
    between the occurrences of [sep], in order; never the empty array. *)
Fixpoint split (sep : ascii) (s : string) : list string :=
  match s with
  | EmptyString => [EmptyString]
  | String c rest =>
      if Ascii.eqb c sep then EmptyString :: split sep rest
      else match split sep rest with
           | [] => [String c EmptyString]
           | seg :: segs => String c seg :: segs
           end
  end.

(** [Array.prototype.pop], as a value: the last element, [None] (undefined)
    on the empty array. *)
Fixpoint pop {A : Type} (l : list A) : option A :=
  match l with
  | [] => None
  | [x] => Some x
  | _ :: tl => pop tl
  end.

Definition lower_char (c : ascii) : ascii :=
  let n := nat_of_ascii c in
  if (Nat.leb 65 n && Nat.leb n 90)%bool then ascii_of_nat (n + 32) else c.

(** [String.prototype.toLowerCase] on a string of ASCII characters: the
    letters A-Z are mapped and every other character is kept. The mapping
    of the characters beyond ASCII is not modelled. *)
Fixpoint toLowerCase (s : string) : string :=
  match s with
  | EmptyString => EmptyString
  | String c rest => String (lower_char c) (toLowerCase rest)
  end.

(** [Array.prototype.includes] on an array of strings. *)
Definition includes (l : list string) (x : string) : bool :=
  existsb (String.eqb x) l.

(** Truthiness of a string: the empty string is falsy. *)
Definition truthy_string (s : string) : bool :=
  match s with EmptyString => false | _ => true end.

Fixpoint has_char (c : ascii) (s : string) : bool :=
  match s with
  | EmptyString => false
  | String d rest => (Ascii.eqb d c || has_char c rest)%bool
  end.

(** ** Exceptions and completions *)

Inductive exn : Type :=
| RangeError
| TypeError (message : string)
| SyntaxError (message : string)
| Error (message : string)
| AppwriteException (message : string)
| NextRedirect (url : string).

(** The completion of an evaluation that has no effect but an exception. *)
Inductive completion (A : Type) : Type :=
| Normal (a : A)
| Throw (e : exn).
Arguments Normal {A} a.
Arguments Throw {A} e.

Definition cbind {A B : Type} (c : completion A) (k : A -> completion B)
  : completion B :=
  match c with
  | Normal a => k a
  | Throw e => Throw e
  end.

(** ** Numbers and their decimal notation *)

Definition MAX_SAFE_INTEGER : Z := 2 ^ 53 - 1.

(** The double nearest to an integer, ties to the even significand: a
    double has 53 significant bits, so an integer of magnitude up to 2^53 is
    itself one, and beyond the doubles are the multiples of the power of two
    [ulp]. (From 2^1024 on the result is Infinity, which a byte count never
    reaches and [Z] does not have.) *)
Definition to_double (n : Z) : Z :=
  let a := Z.abs n in
  if a <? 2 ^ 53 then n
  else
    let ulp := 2 ^ (Z.log2 a - 52) in
    let q := a / ulp in
    let r := a mod ulp in
    let q := if 2 * r <? ulp then q
             else if ulp <? 2 * r then q + 1
             else if Z.even q then q else q + 1 in
    Z.sgn n * (q * ulp).

(** [a + b] on two numbers that are integers: the sum, rounded to a
    double. *)
Definition number_add (a b : Z) : Z := to_double (a + b).

Definition digit_char (d : Z) : ascii := ascii_of_nat (48 + Z.to_nat d).

Definition is_digit (c : ascii) : bool :=
  let n := nat_of_ascii c in (Nat.leb 48 n && Nat.leb n 57)%bool.

Fixpoint all_digits (s : string) : bool :=
  match s with
  | EmptyString => true
  | String c rest => (is_digit c && all_digits rest)%bool
  end.

Fixpoint digits_fuel (fuel : nat) (n : Z) (acc : string) : string :=
  match fuel with
  | O => acc
  | S fuel' =>
      let acc' := String (digit_char (n mod 10)) acc in
      if n <? 10 then acc' else digits_fuel fuel' (n / 10) acc'
  end.

(** The decimal digits of a non-negative integer, without leading zeros. *)
Definition digits (n : Z) : string :=
  digits_fuel (S (Z.to_nat (Z.log2 n))) n EmptyString.

(** [Number::toString] on an integer of the safe range. *)
Definition Number_toString (n : Z) : string :=
  if n <? 0 then "-" ++ digits (- n) else digits n.

Fixpoint zeros (k : nat) : string :=
  match k with
  | O => EmptyString
  | S k' => String "0" (zeros k')
  end.

Fixpoint take (k : nat) (s : string) : string :=
  match k, s with
  | S k', String c rest => String c (take k' rest)
  | _, _ => EmptyString
  end.

Fixpoint drop (k : nat) (s : string) : string :=
  match k, s with
  | S k', String _ rest => drop k' rest
  | _, _ => s
  end.

(** Steps 8-9 of [Number.prototype.toFixed]: the integer [n] for which
    [n / 10^f - x] is as close to zero as possible, the larger one on a tie,
    written with [f] digits after the point. *)
Definition fixed_integer (x : Q) (f : nat) : Z :=
  Qfloor (x * inject_Z (10 ^ Z.of_nat f) + (1 # 2)).

Definition fixed_notation (n : Z) (f : nat) : string :=
  let m := digits n in
  if Nat.eqb f 0 then m
  else
    let k := String.length m in
    let m := if Nat.leb k f then zeros (f + 1 - k) ++ m else m in
    let k := String.length m in
    take (k - f) m ++ "." ++ drop (k - f) m.

(** [Number.prototype.toFixed(fractionDigits)] on a number below 10^21 (every
    quotient of a safe integer by a power of 1024 is; from 10^21 on the method
    prints the number as [Number::toString] does, which is not modelled).
    A count of digits outside 0..100 is a RangeError. *)
Definition toFixed (x : Q) (fractionDigits : Z) : completion string :=
  if ((fractionDigits <? 0) || (100 <? fractionDigits))%bool then Throw RangeError
  else
    let f := Z.to_nat fractionDigits in
    if Qle_bool 0 x then Normal (fixed_notation (fixed_integer x f) f)
    else Normal ("-" ++ fixed_notation (fixed_integer (- x) f) f).

Fixpoint digits_value (s : string) (acc : Z) : option Z :=
  match s with
  | EmptyString => Some acc
  | String c rest =>
      if is_digit c
      then digits_value rest (10 * acc + (Z.of_nat (nat_of_ascii c) - 48))
      else None
  end.

Definition unsigned_decimal (s : string) : option Q :=
  match split "." s with
  | [a] =>
      if truthy_string a then option_map inject_Z (digits_value a 0) else None
  | [a; b] =>
      if truthy_string (a ++ b)
      then option_map
             (fun n => Qmake n (Z.to_pos (10 ^ Z.of_nat (String.length b))))
             (digits_value (a ++ b) 0)
      else None
  | _ => None
  end.

(** [Number(s)] on a decimal literal: an optional minus sign, digits, and an
    optional point followed by digits; the empty string is 0 and [None] is
    NaN. *)
Definition Number (s : string) : option Q :=
  match s with
  | EmptyString => Some 0%Q
  | String "-" rest => option_map Qopp (unsigned_decimal rest)
  | _ => unsigned_decimal s
  end.

End Js.

(* ================================================================== *)
(** * src/lib/utils.ts *)
(* ================================================================== *)

Module Utils.

Record FileTypeInfo : Type := mkInfo { type : string; extension : string }.

Definition documentExtensions : list string :=
  [ "pdf"; "doc"; "docx"; "txt"; "xls"; "xlsx"; "csv"; "rtf"; "ods"; "ppt";
    "odp"; "md"; "html"; "htm"; "epub"; "pages"; "fig"; "psd"; "ai"; "indd";
    "xd"; "sketch"; "afdesign"; "afphoto"; "afphoto" ].
Definition imageExtensions : list string :=
  [ "jpg"; "jpeg"; "png"; "gif"; "bmp"; "svg"; "webp" ].
Definition videoExtensions : list string :=
  [ "mp4"; "avi"; "mov"; "mkv"; "webm" ].
Definition audioExtensions : list string :=
  [ "mp3"; "wav"; "ogg"; "flac" ].

(** The closed set of the type FileType (src/types/index.d.ts). *)
Definition fileTypes : list string :=
  [ "document"; "image"; "video"; "audio"; "other" ].

(** [fileName.split(".").pop()?.toLowerCase()] *)
Definition extension_of (fileName : string) : option string :=
  option_map Js.toLowerCase (Js.pop (Js.split "." fileName)).

(** The four [includes] tests of getFileType, in the order of the source. *)
Definition classify (extension : string) : FileTypeInfo :=
  if Js.includes documentExtensions extension then mkInfo "document" extension
  else if Js.includes imageExtensions extension then mkInfo "image" extension
  else if Js.includes videoExtensions extension then mkInfo "video" extension
  else if Js.includes audioExtensions extension then mkInfo "audio" extension
  else mkInfo "other" extension.

(** [digits || 1]: the default also replaces an explicit 0. *)
Definition digits_or_1 (digits : option Z) : Z :=
  match digits with
  | Some d => if d =? 0 then 1 else d
  | None => 1
  end.

Definition convertFileSize (sizeInBytes : Z) (digits : option Z)
  : Js.completion string :=
  if sizeInBytes <? 1024 then
    Js.Normal (Js.Number_toString sizeInBytes ++ " Bytes")
  else if sizeInBytes <? 1024 * 1024 then
    let sizeInKB := (inject_Z sizeInBytes / inject_Z 1024)%Q in
    Js.cbind (Js.toFixed sizeInKB (digits_or_1 digits))
             (fun s => Js.Normal (s ++ " KB"))
  else if sizeInBytes <? 1024 * 1024 * 1024 then
    let sizeInMB := (inject_Z sizeInBytes / inject_Z (1024 * 1024))%Q in
    Js.cbind (Js.toFixed sizeInMB (digits_or_1 digits))
             (fun s => Js.Normal (s ++ " MB"))
  else
    let sizeInGB := (inject_Z sizeInBytes / inject_Z (1024 * 1024 * 1024))%Q in
    Js.cbind (Js.toFixed sizeInGB (digits_or_1 digits))
             (fun s => Js.Normal (s ++ " GB")).

(** The result is [Number(percentage.toFixed(2))]; [None] stands for NaN.
    The quotient by 2^31 is exact, and so is the product by 100 while it
    has at most 53 significant bits (sizes below 2^46 bytes, 64 TB). *)
Definition calculatePercentage (sizeInBytes : Z) : Js.completion (option Q) :=
  let totalSizeInBytes := 2 * 1024 * 1024 * 1024 in
  let percentage :=
    ((inject_Z sizeInBytes / inject_Z totalSizeInBytes) * inject_Z 100)%Q in
  Js.cbind (Js.toFixed percentage 2) (fun s => Js.Normal (Js.Number s)).

(** The variables of process.env that constructFileUrl reads. *)
Record Env : Type := mkEnv {
  NEXT_PUBLIC_APPWRITE_ENDPOINT : string;
  NEXT_PUBLIC_APPWRITE_BUCKET : string;
  NEXT_PUBLIC_APPWRITE_PROJECT : string
}.

Definition constructFileUrl (env : Env) (bucketFileId : string) : string :=
  NEXT_PUBLIC_APPWRITE_ENDPOINT env ++ "/storage/buckets/" ++
  NEXT_PUBLIC_APPWRITE_BUCKET env ++ "/files/" ++ bucketFileId ++
  "/view?project=" ++ NEXT_PUBLIC_APPWRITE_PROJECT env.

Definition getFileType (fileName : string) : FileTypeInfo :=
  match extension_of fileName with
  | None => mkInfo "other" EmptyString
  | Some extension =>
      if negb (Js.truthy_string extension) then mkInfo "other" EmptyString
      else classify extension
  end.

End Utils.

(* ================================================================== *)
(** * The effects of a server action *)
(* ================================================================== *)

Module Server.
Import Js.

(** ** The records of the backend *)

(** A document of the users collection; [u_id] is [$id]. *)
Record UserDoc : Type := mkUser {
  u_id : string;
  u_fullName : string;
  u_email : string;
  u_avatar : string;
  u_accountId : string
}.

(** The type FileType of src/types/index.d.ts. *)
Inductive FileType : Type := Image | Document | Video | Audio | Other.

(** A document of the files collection as the actions read it; [f_type] is
    [file.type as FileType], [f_id] is [$id], [f_updatedAt] is [$updatedAt]. *)
Record FileDoc : Type := mkFile {
  f_id : string;
  f_type : FileType;
  f_name : string;
  f_size : Z;
  f_owner : string;
  f_users : list string;
  f_bucketFileId : string;
  f_updatedAt : string
}.

Record DocumentList (A : Type) : Type := mkList {
  total : Z;
  documents : list A
}.
Arguments mkList {A} total documents.
Arguments total {A} d.
Arguments documents {A} d.

(** A browser File, as far as the code reads it. *)
Record File : Type := mkBlob { file_name : string; file_size : Z }.

(** A file of the storage bucket; [b_id] is [$id]. *)
Record BucketFile : Type := mkBucketFile {
  b_id : string;
  b_name : string;
  sizeOriginal : Z
}.

Record Session : Type := mkSession {
  s_id : string;
  secret : string;
  userId : string
}.

#[warnings="-register-all"]
Inductive Query : Type :=
| Query_or (queries : list Query)
| Query_equal (attribute : string) (values : list string)
| Query_contains (attribute : string) (values : list string)
| Query_limit (limit : Z)
| Query_orderAsc (attribute : string)
| Query_orderDesc (attribute : string).

Inductive collection : Type := usersCollection | filesCollection.

(** The data of createDocument and of updateDocument. *)
Inductive doc_data : Type :=
| UserData (fullName email avatar accountId : string)
| FileData (type name url extension : string) (size : Z)
           (owner accountId : string) (users : list string)
           (bucketFileId : string)
| NameUpdate (name : string)
| UsersUpdate (users : list string).

(** ** Calls of the backend SDK *)

Inductive call : Type :=
| account_createEmailToken (email : string)
| account_createSession (accountId secret : string)
| account_get
| account_deleteSession (sessionId : string)
| databases_listDocuments (c : collection) (queries : list Query)
| databases_createDocument (c : collection) (data : doc_data)
| databases_updateDocument (c : collection) (documentId : string)
                           (data : doc_data)
| databases_deleteDocument (c : collection) (documentId : string)
| storage_createFile (file : File)
| storage_deleteFile (fileId : string).

(** The backend is outside the repository: an arbitrary answer, a value or
    an exception, to each call. *)
Record Backend : Type := mkBackend {
  createEmailToken : string -> completion Session;
  createSession : string -> string -> completion Session;
  get : completion string;
  deleteSession : string -> completion unit;
  listUsers : list Query -> completion (DocumentList UserDoc);
  listFiles : list Query -> completion (DocumentList FileDoc);
  createUserDocument : doc_data -> completion UserDoc;
  createFileDocument : doc_data -> completion FileDoc;
  updateDocument : string -> doc_data -> completion FileDoc;
  deleteDocument : string -> completion bool;
  createFile : File -> completion BucketFile;
  deleteFile : string -> completion unit
}.

(** ** The world a server action runs in *)

Record event : Type := mkEvent { ev_call : call; ev_error : option exn }.

Inductive log_entry : Type :=
| LogError (error : exn) (message : option string)
| LogFiles (files : DocumentList FileDoc).

Record World : Type := mkWorld {
  console : list log_entry;       (* console.log, oldest first *)
  trace : list event;             (* calls of the backend, oldest first *)
  bucket : list string;           (* ids of the blobs of the storage bucket *)
  session_cookie : option string; (* the cookie appwrite-session *)
  revalidated : list string       (* revalidatePath, oldest first *)
}.

Definition action (A : Type) : Type := World -> completion A * World.

Definition ret {A : Type} (a : A) : action A := fun w => (Normal a, w).

Definition throw {A : Type} (e : exn) : action A := fun w => (Throw e, w).

Definition bind {A B : Type} (m : action A) (k : A -> action B) : action B :=
  fun w =>
    match m w with
    | (Normal a, w') => k a w'
    | (Throw e, w') => (Throw e, w')
    end.

(** try { body } catch (error) { handler error } *)
Definition try_catch {A : Type} (body : action A) (handler : exn -> action A)
  : action A :=
  fun w =>
    match body w with
    | (Normal a, w') => (Normal a, w')
    | (Throw e, w') => handler e w'
    end.

(** try { body } finally { final }: an exception of the finally block
    replaces the completion of the body. *)
Definition try_finally {A : Type} (body : action A) (final : action unit)
  : action A :=
  fun w =>
    match body w with
    | (c, w') =>
        match final w' with
        | (Normal _, w'') => (c, w'')
        | (Throw e, w'') => (Throw e, w'')
        end
    end.

Declare Scope action_scope.
Delimit Scope action_scope with action.
Notation "x <- m ;; k" := (bind m (fun x => k))
  (at level 61, m at next level, right associativity) : action_scope.
Notation "m ;; k" := (bind m (fun _ => k))
  (at level 61, right associativity) : action_scope.
Local Open Scope action_scope.

Definition console_log (entry : log_entry) : action unit :=
  fun w =>
    (Normal tt,
     mkWorld (console w ++ [entry]) (trace w) (bucket w) (session_cookie w)
             (revalidated w)).

(** One call of the SDK: the backend answers, the call is on the trace. *)
Definition sdk {R : Type} (c : call) (answer : completion R) : action R :=
  fun w =>
    (answer,
     mkWorld (console w)
             (trace w ++ [mkEvent c match answer with
                                    | Normal _ => None
                                    | Throw e => Some e
                                    end])
             (bucket w) (session_cookie w) (revalidated w)).

Definition set_bucket (f : list string -> list string) : action unit :=
  fun w =>
    (Normal tt,
     mkWorld (console w) (trace w) (f (bucket w)) (session_cookie w)
             (revalidated w)).

Definition set_cookie (v : option string) : action unit :=
  fun w =>
    (Normal tt, mkWorld (console w) (trace w) (bucket w) v (revalidated w)).

Definition revalidatePath (path : string) : action unit :=
  fun w =>
    (Normal tt,
     mkWorld (console w) (trace w) (bucket w) (session_cookie w)
             (revalidated w ++ [path])).

(** next/navigation: redirect does not return, it throws NEXT_REDIRECT. *)
Definition redirect {A : Type} (url : string) : action A :=
  throw (NextRedirect url).

(** [parseStringify] copies a JSON value; on undefined, JSON.parse throws. *)
Definition parseStringify {A : Type} (value : option A) : action A :=
  match value with
  | Some v => ret v
  | None => throw (SyntaxError "undefined is not valid JSON")
  end.

(** createSessionClient (src/lib/appwrite): needs the session cookie. *)
Definition createSessionClient : action unit :=
  fun w =>
    match session_cookie w with
    | Some value =>
        if truthy_string value then (Normal tt, w)
        else (Throw (Error "No session"), w)
    | None => (Throw (Error "No session"), w)
    end.

(** The services of the SDK clients. *)
Section Services.
Variable be : Backend.

Definition account_createEmailToken_ (email : string) : action Session :=
  sdk (account_createEmailToken email) (createEmailToken be email).

Definition account_createSession_ (accountId password : string)
  : action Session :=
  sdk (account_createSession accountId password)
      (createSession be accountId password).

Definition account_get_ : action string := sdk account_get (get be).

Definition account_deleteSession_ (sessionId : string) : action unit :=
  sdk (account_deleteSession sessionId) (deleteSession be sessionId).

Definition listUserDocuments (queries : list Query)
  : action (DocumentList UserDoc) :=
  sdk (databases_listDocuments usersCollection queries) (listUsers be queries).

Definition listFileDocuments (queries : list Query)
  : action (DocumentList FileDoc) :=
  sdk (databases_listDocuments filesCollection queries) (listFiles be queries).

Definition createUserDocument_ (data : doc_data) : action UserDoc :=
  sdk (databases_createDocument usersCollection data)
      (createUserDocument be data).

Definition createFileDocument_ (data : doc_data) : action FileDoc :=
  sdk (databases_createDocument filesCollection data)
      (createFileDocument be data).

Definition updateFileDocument (documentId : string) (data : doc_data)
  : action FileDoc :=
  sdk (databases_updateDocument filesCollection documentId data)
      (updateDocument be documentId data).

Definition deleteFileDocument (documentId : string) : action bool :=
  sdk (databases_deleteDocument filesCollection documentId)
      (deleteDocument be documentId).

(** A stored blob joins the bucket, a deleted one leaves it. *)
Definition storage_createFile_ (file : File) : action BucketFile :=
  b <- sdk (storage_createFile file) (createFile be file) ;;
  set_bucket (fun ids => (ids ++ [b_id b])%list) ;;
  ret b.

Definition storage_deleteFile_ (fileId : string) : action unit :=
  sdk (storage_deleteFile fileId) (deleteFile be fileId) ;;
  set_bucket (filter (fun id => negb (String.eqb id fileId))).

End Services.

End Server.

(* ================================================================== *)
(** * src/lib/actions/user.actions.ts *)
(* ================================================================== *)

Module UserActions.
Import Js Server.
Local Open Scope action_scope.

Definition avatarPlaceholderUrl : string :=
  "https://img.freepik.com/free-psd/3d-illustration-person-with-sunglasses_23-2149436188.jpg".

(** Logs and rethrows. *)
Definition handleError {A : Type} (error : exn) (message : string) : action A :=
  console_log (LogError error (Some message)) ;;
  throw error.

(** The result of signInUser: the account id, or null with an error text. *)
Record SignInResult : Type := mkSignIn {
  accountId : option string;
  error : option string
}.

Section WithBackend.
Variable be : Backend.

Definition getUserByEmail (email : string) : action (option UserDoc) :=
  result <- listUserDocuments be [Query_equal "email" [email]] ;;
  ret (if 0 <? total result then hd_error (documents result) else None).

Definition sendEmailOTP (email : string) : action string :=
  try_catch
    (session <- account_createEmailToken_ be email ;;
     ret (userId session))
    (fun error => handleError error "Failed to send email OTP").

Definition createAccount (fullName email : string) : action string :=
  existingUser <- getUserByEmail email ;;
  accountId <- sendEmailOTP email ;;
  if negb (truthy_string accountId) then throw (Error "Failed to send an OTP")
  else
    match existingUser with
    | None =>
        createUserDocument_ be
          (UserData fullName email avatarPlaceholderUrl accountId) ;;
        ret accountId
    | Some _ => ret accountId
    end.

Definition verifySecret (accountId password : string) : action string :=
  try_catch
    (session <- account_createSession_ be accountId password ;;
     set_cookie (Some (secret session)) ;;
     ret (s_id session))
    (fun error => handleError error "Failed to verify OTP").

(** The catch block only logs: after an exception the function returns
    undefined, which callers read like null ([None]). *)
Definition getCurrentUser : action (option UserDoc) :=
  try_catch
    (createSessionClient ;;
     result <- account_get_ be ;;
     user <- listUserDocuments be [Query_equal "accountId" [result]] ;;
     if total user <=? 0 then ret None
     else
       doc <- parseStringify (hd_error (documents user)) ;;
       ret (Some doc))
    (fun error => console_log (LogError error None) ;; ret None).

Definition signOutUser : action unit :=
  createSessionClient ;;
  try_finally
    (try_catch
       (account_deleteSession_ be "current" ;;
        set_cookie None)
       (fun error => handleError error "Failed to sign out user"))
    (redirect "/sign-in").

Definition signInUser (email : string) : action SignInResult :=
  try_catch
    (existingUser <- getUserByEmail email ;;
     match existingUser with
     | Some user =>
         sendEmailOTP email ;;
         ret (mkSignIn (Some (u_accountId user)) None)
     | None => ret (mkSignIn None (Some "User not found"))
     end)
    (fun error => handleError error "Failed to sign in user").

End WithBackend.

End UserActions.

(* ================================================================== *)
(** * The file actions *)
(* ================================================================== *)

Module FileActions.
Import Js Server.
Local Open Scope action_scope.

Definition handleError {A : Type} (error : exn) (message : string) : action A :=
  console_log (LogError error (Some message)) ;;
  throw error.

Record UploadFileProps : Type := mkUpload {
  file : File;
  ownerId : string;
  up_accountId : string;
  up_path : string
}.

Record GetFilesProps : Type := mkGetFiles {
  types : option (list string);
  searchText : option string;
  sort : option string;
  limit : option Z
}.

Record RenameFileProps : Type := mkRename {
  rn_fileId : string;
  rn_name : string;
  rn_extension : string;
  rn_path : string
}.

Record UpdateFileUsersProps : Type := mkUpdateUsers {
  uu_fileId : string;
  emails : list string;
  uu_path : string
}.

Record DeleteFileProps : Type := mkDelete {
  del_fileId : string;
  bucketFileId : string;
  del_path : string
}.

(** A default parameter value replaces undefined. *)
Definition default {A : Type} (d : A) (v : option A) : A :=
  match v with Some a => a | None => d end.

(** Truthiness of an optional number: undefined and 0 are falsy. *)
Definition truthy_number (n : option Z) : bool :=
  match n with Some l => negb (l =? 0) | None => false end.

Definition createQueries (currentUser : UserDoc) (types : list string)
  (searchText : string) (sort : string) (limit : option Z) : list Query :=
  let queries :=
    [ Query_or [ Query_equal "owner" [u_id currentUser];
                 Query_contains "users" [u_email currentUser] ] ] in
  let queries :=
    if Nat.ltb 0 (List.length types)
    then (queries ++ [Query_equal "type" types])%list else queries in
  let queries :=
    if truthy_string searchText
    then (queries ++ [Query_contains "name" [searchText]])%list else queries in
  let queries :=
    if truthy_number limit
    then (queries ++ [Query_limit (default 0 limit)])%list else queries in
  if truthy_string sort then
    (* const [sortBy, orderBy] = sort.split("-"); split is never empty *)
    let parts := split "-" sort in
    let sortBy := hd EmptyString parts in
    let orderBy := hd_error (tl parts) in
    (queries ++
     [ match orderBy with
       | Some o => if String.eqb o "asc" then Query_orderAsc sortBy
                   else Query_orderDesc sortBy
       | None => Query_orderDesc sortBy
       end ])%list
  else queries.

(** ** The usage summary of getTotalSpaceUsed *)

Record Usage : Type := mkUsage { size : Z; latestDate : string }.

Record TotalSpace : Type := mkTotalSpace {
  image : Usage;
  document : Usage;
  video : Usage;
  audio : Usage;
  other : Usage;
  used : Z;
  all : Z
}.

(** [totalSpace[fileType]] *)
Definition usage_of (t : TotalSpace) (fileType : FileType) : Usage :=
  match fileType with
  | Image => image t
  | Document => document t
  | Video => video t
  | Audio => audio t
  | Other => other t
  end.

(** [totalSpace[fileType] = u] *)
Definition set_usage (t : TotalSpace) (fileType : FileType) (u : Usage)
  : TotalSpace :=
  match fileType with
  | Image =>
      mkTotalSpace u (document t) (video t) (audio t) (other t) (used t) (all t)
  | Document =>
      mkTotalSpace (image t) u (video t) (audio t) (other t) (used t) (all t)
  | Video =>
      mkTotalSpace (image t) (document t) u (audio t) (other t) (used t) (all t)
  | Audio =>
      mkTotalSpace (image t) (document t) (video t) u (other t) (used t) (all t)
  | Other =>
      mkTotalSpace (image t) (document t) (video t) (audio t) u (used t) (all t)
  end.

(** [totalSpace.used += n] *)
Definition add_used (t : TotalSpace) (n : Z) : TotalSpace :=
  mkTotalSpace (image t) (document t) (video t) (audio t) (other t)
               (number_add (used t) n) (all t).

Definition initialTotalSpace : TotalSpace :=
  mkTotalSpace (mkUsage 0 EmptyString) (mkUsage 0 EmptyString)
               (mkUsage 0 EmptyString) (mkUsage 0 EmptyString)
               (mkUsage 0 EmptyString) 0 (2 * 1024 * 1024 * 1024).

Section WithBackend.
Variable be : Backend.
Variable env : Utils.Env.
(** [new Date(s).getTime()]; [None] is NaN, the time of an invalid date. *)
Variable Date_getTime : string -> option Z.

(** [new Date(a) > new Date(b)]: false as soon as one side is NaN. *)
Definition date_gt (a b : string) : bool :=
  match Date_getTime a, Date_getTime b with
  | Some x, Some y => y <? x
  | _, _ => false
  end.

(** The body of the forEach of getTotalSpaceUsed; the two [+=] are additions
    of doubles. *)
Definition aggregate_step (totalSpace : TotalSpace) (file : FileDoc)
  : TotalSpace :=
  let fileType := f_type file in
  let u := usage_of totalSpace fileType in
  let totalSpace :=
    set_usage totalSpace fileType
              (mkUsage (number_add (size u) (f_size file)) (latestDate u)) in
  let totalSpace := add_used totalSpace (f_size file) in
  let u := usage_of totalSpace fileType in
  if (negb (truthy_string (latestDate u)) ||
      date_gt (f_updatedAt file) (latestDate u))%bool
  then set_usage totalSpace fileType (mkUsage (size u) (f_updatedAt file))
  else totalSpace.

Definition aggregate (files : list FileDoc) : TotalSpace :=
  fold_left aggregate_step files initialTotalSpace.

Definition uploadFile (props : UploadFileProps) : action FileDoc :=
  try_catch
    (let inputFile := file props in
     bucketFile <- storage_createFile_ be inputFile ;;
     let fileDocument :=
       FileData (Utils.type (Utils.getFileType (b_name bucketFile)))
                (b_name bucketFile)
                (Utils.constructFileUrl env (b_id bucketFile))
                (Utils.extension (Utils.getFileType (b_name bucketFile)))
                (sizeOriginal bucketFile)
                (ownerId props) (up_accountId props) []
                (b_id bucketFile) in
     newFile <- try_catch
                  (createFileDocument_ be fileDocument)
                  (fun error =>
                     (* Rollback file upload if document creation fails *)
                     storage_deleteFile_ be (b_id bucketFile) ;;
                     handleError error "Failed to create file document") ;;
     revalidatePath (up_path props) ;;
     ret newFile)
    (fun error => handleError error "Failed to upload file").

Definition getFiles (props : GetFilesProps) : action (DocumentList FileDoc) :=
  let types := default [] (types props) in
  let searchText := default EmptyString (searchText props) in
  let sort := default "$createdAt-desc" (sort props) in
  let limit := limit props in
  try_catch
    (currentUser <- UserActions.getCurrentUser be ;;
     match currentUser with
     | None => throw (Error "User not found")
     | Some currentUser =>
         let queries := createQueries currentUser types searchText sort limit in
         files <- listFileDocuments be queries ;;
         console_log (LogFiles files) ;;
         ret files
     end)
    (fun error => handleError error "Failed to get files").

Definition renameFile (props : RenameFileProps) : action FileDoc :=
  try_catch
    (let newName := (rn_name props ++ "." ++ rn_extension props)%string in
     updatedFile <- updateFileDocument be (rn_fileId props) (NameUpdate newName) ;;
     revalidatePath (rn_path props) ;;
     ret updatedFile)
    (fun error => handleError error "Failed to rename file").

Definition updateFileUsers (props : UpdateFileUsersProps) : action FileDoc :=
  try_catch
    (updatedFile <- updateFileDocument be (uu_fileId props)
                      (UsersUpdate (emails props)) ;;
     revalidatePath (uu_path props) ;;
     ret updatedFile)
    (fun error => handleError error "Failed to update file users").

Definition deleteFile (props : DeleteFileProps) : action string :=
  try_catch
    (deletedFile <- deleteFileDocument be (del_fileId props) ;;
     (if deletedFile : bool then storage_deleteFile_ be (bucketFileId props)
      else ret tt) ;;
     revalidatePath (del_path props) ;;
     ret "success")
    (fun error => handleError error "Failed to delete file").

Definition getTotalSpaceUsed : action TotalSpace :=
  try_catch
    (createSessionClient ;;
     currentUser <- UserActions.getCurrentUser be ;;
     match currentUser with
     | None => throw (Error "User is not authenticated.")
     | Some currentUser =>
         files <- listFileDocuments be
                    [Query_equal "owner" [u_id currentUser]] ;;
         ret (aggregate (documents files))
     end)
    (fun error => handleError error "Error calculating total space used").

End WithBackend.

End FileActions.

(* ================================================================== *)
(** * The server actions as a whole *)
(* ================================================================== *)

Module Actions.
Import Js Server.
Local Open Scope action_scope.

(** The exported server actions with their arguments. *)
Inductive server_action : Type :=
| SendEmailOTP (email : string)
| CreateAccount (fullName email : string)
| VerifySecret (accountId password : string)
| GetCurrentUser
| SignOutUser
| SignInUser (email : string)
| UploadFile (props : FileActions.UploadFileProps)
| GetFiles (props : FileActions.GetFilesProps)
| RenameFile (props : FileActions.RenameFileProps)
| UpdateFileUsers (props : FileActions.UpdateFileUsersProps)
| DeleteFile (props : FileActions.DeleteFileProps)
| GetTotalSpaceUsed.

Definition discard {A : Type} (m : action A) : action unit :=
  m ;; ret tt.

(** One call of a server action, its result dropped. *)
Definition perform (be : Backend) (env : Utils.Env)
  (Date_getTime : string -> option Z) (a : server_action) : action unit :=
  match a with
  | SendEmailOTP email => discard (UserActions.sendEmailOTP be email)
  | CreateAccount fullName email =>
      discard (UserActions.createAccount be fullName email)
  | VerifySecret accountId password =>
      discard (UserActions.verifySecret be accountId password)
  | GetCurrentUser => discard (UserActions.getCurrentUser be)
  | SignOutUser => UserActions.signOutUser be
  | SignInUser email => discard (UserActions.signInUser be email)
  | UploadFile props => discard (FileActions.uploadFile be env props)
  | GetFiles props => discard (FileActions.getFiles be props)
  | RenameFile props => discard (FileActions.renameFile be props)
  | UpdateFileUsers props => discard (FileActions.updateFileUsers be props)
  | DeleteFile props => discard (FileActions.deleteFile be props)
  | GetTotalSpaceUsed =>
      discard (FileActions.getTotalSpaceUsed be Date_getTime)
  end.

(** The error of the last call that failed, if one did. *)
Fixpoint last_failure (events : list event) : option exn :=
  match events with
  | [] => None
  | ev :: rest =>
      match last_failure rest with
      | Some e => Some e
      | None => ev_error ev
      end
  end.

(** The errors of the calls that failed, oldest first. *)
Fixpoint failures (events : list event) : list exn :=
  match events with
  | [] => []
  | ev :: rest =>
      match ev_error ev with
      | Some e => e :: failures rest
      | None => failures rest
      end
  end.

(** The call that failed last. *)
Fixpoint last_failed_call (events : list event) : option call :=
  match events with
  | [] => None
  | ev :: rest =>
      match last_failed_call rest with
      | Some c => Some c
      | None => match ev_error ev with
                | Some _ => Some (ev_call ev)
                | None => None
                end
      end
  end.

(** The calls getCurrentUser makes. *)
Definition call_of_getCurrentUser (c : call) : bool :=
  match c with
  | account_get => true
  | databases_listDocuments usersCollection _ => true
  | _ => false
  end.

End Actions.

(* ================================================================== *)
(** * src/components/FileUploader.tsx *)
(* ================================================================== *)

Module Uploader.
Import Js Server.

(** src/constants/index.ts *)
Definition MAX_FILE_SIZE : Z := 50 * 1024 * 1024.

Record toast_props : Type := mkToast {
  description : string;  (* the file name the message is about *)
  className : string
}.

(** What the component does to the outside: a toast, a call of uploadFile. *)
Inductive effect : Type :=
| toast (props : toast_props)
| uploadFile (props : FileActions.UploadFileProps).

Record State : Type := mkState {
  files : list File;       (* the state [files] of the component *)
  effects : list effect    (* oldest first *)
}.

Section OnDrop.
Variables ownerId accountId path : string.
(** How the server action settles for the client: the uploaded document,
    undefined ([None]), or a rejection. *)
Variable uploadFile_result :
  FileActions.UploadFileProps -> completion (option FileDoc).

(** [prevFiles.filter((f) => f.name !== file.name)] *)
Definition without (file : File) (prevFiles : list File) : list File :=
  filter (fun f => negb (String.eqb (file_name f) (file_name file))) prevFiles.

Definition props_of (file : File) : FileActions.UploadFileProps :=
  FileActions.mkUpload file ownerId accountId path.

(** The callback of [acceptedFiles.map] up to its return: either the file
    is too large (it leaves the list and a toast is shown) or uploadFile is
    called. *)
Definition start (st : State) (file : File) : State :=
  if MAX_FILE_SIZE <? file_size file then
    mkState (without file (files st))
            (effects st ++ [toast (mkToast (file_name file) "error-toast")])
  else
    mkState (files st) (effects st ++ [uploadFile (props_of file)]).

(** What [start] does to the outside for one file. *)
Definition effect_of (file : File) : effect :=
  if MAX_FILE_SIZE <? file_size file
  then toast (mkToast (file_name file) "error-toast")
  else uploadFile (props_of file).

(** The [then] callback of an upload that was started. *)
Definition settle (st : State) (file : File) : State :=
  if MAX_FILE_SIZE <? file_size file then st
  else
    match uploadFile_result (props_of file) with
    | Normal (Some _) => mkState (without file (files st)) (effects st)
    | _ => st
    end.

(** [Promise.all]: rejected as soon as one upload is. *)
Fixpoint all_settled (acceptedFiles : list File) : completion unit :=
  match acceptedFiles with
  | [] => Normal tt
  | file :: rest =>
      if MAX_FILE_SIZE <? file_size file then all_settled rest
      else
        match uploadFile_result (props_of file) with
        | Normal _ => all_settled rest
        | Throw e => Throw e
        end
  end.

(** onDrop: the list becomes the accepted files, every callback runs up to
    its upload, then the uploads settle (here in the order of the list; the
    removals by name commute). *)
Definition onDrop (acceptedFiles : list File) (st : State)
  : completion unit * State :=
  let st := mkState acceptedFiles (effects st) in
  let st := fold_left start acceptedFiles st in
  let st := fold_left settle acceptedFiles st in
  (all_settled acceptedFiles, st).

End OnDrop.

End Uploader.

(* ================================================================== *)
(** * Sample data *)
(* ================================================================== *)

Module Samples.
Import Js Server.

Definition ada : UserDoc :=
  mkUser "u1" "Ada" "ada@example.com" "avatar.png" "acc1".

Definition photo : FileDoc :=
  mkFile "d1" Image "a.png" 100 "u1" [] "blob1" "2024-01-05T10:00:00.000+00:00".
Definition report : FileDoc :=
  mkFile "d2" Document "b.pdf" 250 "u1" [] "blob2"
         "2023-12-31T23:59:59.000+00:00".
Definition scan : FileDoc :=
  mkFile "d3" Image "c.jpg" 50 "u1" [] "blob3" "2024-03-01T00:00:00.000+00:00".

(** The time values of the three timestamps above. *)
Definition Date_getTime (s : string) : option Z :=
  if String.eqb s "2024-01-05T10:00:00.000+00:00" then Some 1704448800000
  else if String.eqb s "2023-12-31T23:59:59.000+00:00" then Some 1704067199000
  else if String.eqb s "2024-03-01T00:00:00.000+00:00" then Some 1709251200000
  else None.

(** A backend that answers every call. *)
Definition backend : Backend :=
  mkBackend
    (fun _ => Normal (mkSession "s0" "token" "acc1"))
    (fun accountId _ => Normal (mkSession "s1" "secret1" accountId))
    (Normal "acc1")
    (fun _ => Normal tt)
    (fun _ => Normal (mkList 1 [ada]))
    (fun _ => Normal (mkList 3 [photo; report; scan]))
    (fun _ => Normal ada)
    (fun _ => Normal photo)
    (fun _ _ => Normal photo)
    (fun _ => Normal true)
    (fun file => Normal (mkBucketFile "blob9" (file_name file) (file_size file)))
    (fun _ => Normal tt).

(** The same backend with account.get refused. *)
Definition backend_get_fails : Backend :=
  mkBackend (createEmailToken backend) (createSession backend)
    (Throw (AppwriteException "general_unauthorized_scope"))
    (deleteSession backend) (listUsers backend) (listFiles backend)
    (createUserDocument backend) (createFileDocument backend)
    (updateDocument backend) (deleteDocument backend)
    (createFile backend) (deleteFile backend).

(** The same backend with the creation of a file document refused. *)
Definition backend_document_fails : Backend :=
  mkBackend (createEmailToken backend) (createSession backend)
    (get backend) (deleteSession backend) (listUsers backend)
    (listFiles backend) (createUserDocument backend)
    (fun _ => Throw (AppwriteException "document_invalid_structure"))
    (updateDocument backend) (deleteDocument backend)
    (createFile backend) (deleteFile backend).

(** The same backend with the creation of a file document refused and the
    deletion of a blob refused as well. *)
Definition backend_rollback_fails : Backend :=
  mkBackend (createEmailToken backend) (createSession backend)
    (get backend) (deleteSession backend) (listUsers backend)
    (listFiles backend) (createUserDocument backend)
    (fun _ => Throw (AppwriteException "document_invalid_structure"))
    (updateDocument backend) (deleteDocument backend)
    (createFile backend)
    (fun _ => Throw (AppwriteException "storage_file_not_found")).

(** The same backend with the listing of the users refused. *)
Definition backend_listUsers_fails : Backend :=
  mkBackend (createEmailToken backend) (createSession backend)
    (get backend) (deleteSession backend)
    (fun _ => Throw (AppwriteException "general_server_error"))
    (listFiles backend) (createUserDocument backend)
    (createFileDocument backend) (updateDocument backend)
    (deleteDocument backend) (createFile backend) (deleteFile backend).

(** The same backend with the deletion of the session refused. *)
Definition backend_deleteSession_fails : Backend :=
  mkBackend (createEmailToken backend) (createSession backend)
    (get backend)
    (fun _ => Throw (AppwriteException "general_server_error"))
    (listUsers backend) (listFiles backend) (createUserDocument backend)
    (createFileDocument backend) (updateDocument backend)
    (deleteDocument backend) (createFile backend) (deleteFile backend).

Definition env : Utils.Env := Utils.mkEnv "https://cloud.example" "bucket" "proj".

(** A world with a session cookie and nothing logged. *)
Definition signed_in : World := mkWorld [] [] [] (Some "secret1") [].

Definition notes : File := mkBlob "notes.txt" 2048.
Definition movie : File := mkBlob "movie.mkv" (60 * 1024 * 1024).

End Samples.

(* ================================================================== *)
(** * The vocabulary of the properties *)
(* ================================================================== *)

Module Sizes.
Import Js Utils.

(** ** Reading a formatted size *)

Inductive size_unit : Type := Bytes | KB | MB | GB.

Definition unit_name (u : size_unit) : string :=
  match u with Bytes => "Bytes" | KB => "KB" | MB => "MB" | GB => "GB" end.

Definition unit_bytes (u : size_unit) : Z :=
  match u with
  | Bytes => 1
  | KB => 1024
  | MB => 1024 * 1024
  | GB => 1024 * 1024 * 1024
  end.

Definition unit_rank (u : size_unit) : Z :=
  match u with Bytes => 0 | KB => 1 | MB => 2 | GB => 3 end.

Definition unit_of_name (s : string) : option size_unit :=
  if String.eqb s "Bytes" then Some Bytes
  else if String.eqb s "KB" then Some KB
  else if String.eqb s "MB" then Some MB
  else if String.eqb s "GB" then Some GB
  else None.

(** A formatted size is a numeric prefix, one space and a unit. *)
Definition read_size (r : string) : option (Q * size_unit) :=
  match split " " r with
  | [num; u] =>
      match Number num, unit_of_name u with
      | Some q, Some u => Some (q, u)
      | _, _ => None
      end
  | _ => None
  end.

(** The unit the 1024-byte thresholds assign to a size. *)
Definition unit_for (s : Z) : size_unit :=
  if s <? 1024 then Bytes
  else if s <? 1024 ^ 2 then KB
  else if s <? 1024 ^ 3 then MB
  else GB.

(** The order on formatted sizes: by unit first, by numeric prefix within a
    unit. *)
Definition size_le (r1 r2 : string) : Prop :=
  match read_size r1, read_size r2 with
  | Some (q1, u1), Some (q2, u2) =>
      unit_rank u1 < unit_rank u2 \/ (u1 = u2 /\ (q1 <= q2)%Q)
  | _, _ => False
  end.

(** The digits argument is one toFixed accepts. *)
Definition valid_digits (digits : option Z) : Prop :=
  match digits with
  | Some d => 0 <= d <= 100
  | None => True
  end.

(** The number a size is printed as: the size itself in Bytes, and else the
    quotient by the unit rounded to the requested digits. *)
Definition size_value (s : Z) (digits : option Z) : Q :=
  match unit_for s with
  | Bytes => inject_Z s
  | u =>
      let f := Z.to_nat (digits_or_1 digits) in
      Qmake (fixed_integer (inject_Z s / inject_Z (unit_bytes u)) f)
            (Z.to_pos (10 ^ Z.of_nat f))
  end.

(** A formatted size is rendered in unit [u]: it reads as a number, a space
    and the name of [u]. *)
Definition rendered_in (u : size_unit) (r : string) : Prop :=
  exists num q, split " " r = [num; unit_name u] /\ Number num = Some q.

End Sizes.

Module Queries.
Import Js Server FileActions.

(** The clauses that order the result. *)
Definition is_ordering (q : Query) : bool :=
  match q with
  | Query_orderAsc _ | Query_orderDesc _ => true
  | _ => false
  end.

(** The clauses createQueries builds before it looks at the sort key. *)
Definition filters (currentUser : UserDoc) (types : list string)
  (searchText : string) (limit : option Z) : list Query :=
  createQueries currentUser types searchText EmptyString limit.

End Queries.

Module Uploads.
Import Js Server FileActions.

(** The metadata document uploadFile builds for a stored blob. *)
Definition fileDocument_of (env : Utils.Env) (props : UploadFileProps)
  (bucketFile : BucketFile) : doc_data :=
  FileData (Utils.type (Utils.getFileType (b_name bucketFile)))
           (b_name bucketFile)
           (Utils.constructFileUrl env (b_id bucketFile))
           (Utils.extension (Utils.getFileType (b_name bucketFile)))
           (sizeOriginal bucketFile)
           (ownerId props) (up_accountId props) []
           (b_id bucketFile).

End Uploads.

Module Usage.
Import Js Server FileActions.
Local Open Scope list_scope.

Definition FileType_eqb (a b : FileType) : bool :=
  match a, b with
  | Image, Image | Document, Document | Video, Video
  | Audio, Audio | Other, Other => true
  | _, _ => false
  end.

(** The files of one type, in the order of the list. *)
Definition of_type (t : FileType) (files : list FileDoc) : list FileDoc :=
  filter (fun f => FileType_eqb (f_type f) t) files.

Fixpoint sum_sizes (files : list FileDoc) : Z :=
  match files with
  | [] => 0
  | f :: rest => f_size f + sum_sizes rest
  end.

(** The sizes are byte counts, none negative, and their total is a safe
    integer: every sum the code forms is then an integer a double holds. *)
Definition safe_sizes (files : list FileDoc) : Prop :=
  Forall (fun f => 0 <= f_size f) files /\
  sum_sizes files <= MAX_SAFE_INTEGER.

Section Dates.
Variable Date_getTime : string -> option Z.

(** The timestamp of a document is a non-empty string that denotes a date. *)
Definition valid_date (f : FileDoc) : Prop :=
  f_updatedAt f <> EmptyString /\ Date_getTime (f_updatedAt f) <> None.

Definition not_later (g f : FileDoc) : Prop :=
  match Date_getTime (f_updatedAt g), Date_getTime (f_updatedAt f) with
  | Some a, Some b => a <= b
  | _, _ => False
  end.

(** [d] is the greatest $updatedAt of [files], the empty string if there is
    no file. *)
Definition latest_of (files : list FileDoc) (d : string) : Prop :=
  (files = [] /\ d = EmptyString) \/
  (exists f, In f files /\ d = f_updatedAt f /\
             forall g, In g files -> not_later g f).

End Dates.

End Usage.

(* ================================================================== *)
(** * More of src/lib/utils.ts and the components that call it *)
(* ================================================================== *)

Module JsMore.
Import Js.

(** [a > b] on strings: the first differing character decides, a proper
    prefix is smaller. *)
Fixpoint string_gtb (a b : string) : bool :=
  match a, b with
  | EmptyString, _ => false
  | String _ _, EmptyString => true
  | String c a', String d b' =>
      if Nat.ltb (nat_of_ascii d) (nat_of_ascii c) then true
      else if Nat.ltb (nat_of_ascii c) (nat_of_ascii d) then false
      else string_gtb a' b'
  end.

(** Every character of the string is an ASCII character (a code unit below
    128). *)
Fixpoint ascii_only (s : string) : bool :=
  match s with
  | EmptyString => true
  | String c rest => (Nat.ltb (nat_of_ascii c) 128 && ascii_only rest)%bool
  end.

(** [s.padStart(2, "0")] *)
Definition padStart2 (s : string) : string :=
  zeros (2 - String.length s) ++ s.

(** [x === "literal"] for an optional string. *)
Definition equals (x : option string) (literal : string) : bool :=
  match x with
  | Some v => String.eqb v literal
  | None => false
  end.

End JsMore.

Module Icons.
Import Js JsMore.

(** The outer switch falls to the inner one when no case matches
    [extension]; undefined matches none. *)
Definition getFileIcon (extension : option string) (type : string) : string :=
  if equals extension "pdf" then "/assets/icons/file-pdf.svg"
  else if equals extension "doc" then "/assets/icons/file-doc.svg"
  else if equals extension "docx" then "/assets/icons/file-docx.svg"
  else if equals extension "csv" then "/assets/icons/file-csv.svg"
  else if equals extension "txt" then "/assets/icons/file-txt.svg"
  else if (equals extension "xls" || equals extension "xlsx")%bool
  then "/assets/icons/file-document.svg"
  else if equals extension "svg" then "/assets/icons/file-image.svg"
  else if (equals extension "mkv" || equals extension "mov" || equals extension "avi" ||
           equals extension "wmv" || equals extension "mp4" || equals extension "flv" ||
           equals extension "webm" || equals extension "m4v" ||
           equals extension "3gp")%bool
  then "/assets/icons/file-video.svg"
  else if (equals extension "mp3" || equals extension "mpeg" || equals extension "wav" ||
           equals extension "aac" || equals extension "flac" || equals extension "ogg" ||
           equals extension "wma" || equals extension "m4a" || equals extension "aiff" ||
           equals extension "alac")%bool
  then "/assets/icons/file-audio.svg"
  else if String.eqb type "image" then "/assets/icons/file-image.svg"
  else if String.eqb type "document" then "/assets/icons/file-document.svg"
  else if String.eqb type "video" then "/assets/icons/file-video.svg"
  else if String.eqb type "audio" then "/assets/icons/file-audio.svg"
  else "/assets/icons/file-other.svg".

(** The [src] of the image the Thumbnail component renders. *)
Definition Thumbnail_src (type extension url : string) : string :=
  let isImage :=
    (String.eqb type "image" && negb (String.eqb extension "svg"))%bool in
  if isImage then url else getFileIcon (Some extension) type.

Definition constructDownloadUrl (env : Utils.Env) (bucketFileId : string)
  : string :=
  Utils.NEXT_PUBLIC_APPWRITE_ENDPOINT env ++ "/storage/buckets/" ++
  Utils.NEXT_PUBLIC_APPWRITE_BUCKET env ++ "/files/" ++ bucketFileId ++
  "/download?project=" ++ Utils.NEXT_PUBLIC_APPWRITE_PROJECT env.

Definition icon_image : string := "/assets/icons/file-image.svg".
Definition icon_video : string := "/assets/icons/file-video.svg".
Definition icon_audio : string := "/assets/icons/file-audio.svg".
Definition icon_other : string := "/assets/icons/file-other.svg".

(** The icons of the document family, of one extension or generic. *)
Definition document_icons : list string :=
  [ "/assets/icons/file-pdf.svg"; "/assets/icons/file-doc.svg";
    "/assets/icons/file-docx.svg"; "/assets/icons/file-csv.svg";
    "/assets/icons/file-txt.svg"; "/assets/icons/file-document.svg" ].

End Icons.

Module Summary.
Import Js JsMore Server FileActions.

Record SummaryItem : Type := mkItem {
  title : string;
  item_size : Z;
  item_latestDate : string;
  icon : string;
  url : string
}.

Definition getUsageSummary (totalSpace : TotalSpace) : list SummaryItem :=
  [ mkItem "Documents" (size (document totalSpace))
           (latestDate (document totalSpace))
           "/assets/icons/file-document-light.svg" "/documents";
    mkItem "Images" (size (image totalSpace))
           (latestDate (image totalSpace))
           "/assets/icons/file-image-light.svg" "/images";
    mkItem "Media"
           (number_add (size (video totalSpace)) (size (audio totalSpace)))
           (if string_gtb (latestDate (video totalSpace))
                          (latestDate (audio totalSpace))
            then latestDate (video totalSpace)
            else latestDate (audio totalSpace))
           "/assets/icons/file-video-light.svg" "/media";
    mkItem "Others" (size (other totalSpace))
           (latestDate (other totalSpace))
           "/assets/icons/file-other-light.svg" "/others" ].

Definition getFileTypesParams (type : string) : list string :=
  if String.eqb type "documents" then ["document"]
  else if String.eqb type "images" then ["image"]
  else if String.eqb type "media" then ["video"; "audio"]
  else if String.eqb type "others" then ["other"]
  else ["document"].

(** Search.tsx, handleClickItem: the route a search result leads to. *)
Definition route_of (type : string) : string :=
  if (String.eqb type "video" || String.eqb type "audio")%bool then "media"
  else type ++ "s".

Definition handleClickItem_url (type query : string) : string :=
  "/" ++ route_of type ++ "?query=" ++ query.

(** The string a FileType value is. *)
Definition type_name (t : FileType) : string :=
  match t with
  | Image => "image"
  | Document => "document"
  | Video => "video"
  | Audio => "audio"
  | Other => "other"
  end.

(** The types a page lists: getFileTypesParams of its url without the
    leading slash. *)
Definition types_of_page (url : string) : list FileType :=
  filter (fun t => includes (getFileTypesParams (drop 1 url)) (type_name t))
         [Document; Image; Video; Audio; Other].

(** The file is of a type the page [url] lists. *)
Definition listed_on (url : string) (f : FileDoc) : bool :=
  existsb (Usage.FileType_eqb (f_type f)) (types_of_page url).

Fixpoint sum_items (items : list SummaryItem) : Z :=
  match items with
  | [] => 0
  | i :: rest => item_size i + sum_items rest
  end.

End Summary.

Module Dates.
Import Js JsMore.

(** What the getters of a valid local Date return. *)
Record LocalDate : Type := mkLocal {
  getHours : Z;
  getMinutes : Z;
  getDate : Z;
  getMonth : Z
}.

Definition monthNames : list string :=
  [ "Jan"; "Feb"; "Mar"; "Apr"; "May"; "Jun";
    "Jul"; "Aug"; "Sep"; "Oct"; "Nov"; "Dec" ].

(** A valid date has getters in their ranges. *)
Definition in_range (d : LocalDate) : Prop :=
  0 <= getHours d < 24 /\ 0 <= getMinutes d < 60 /\
  1 <= getDate d <= 31 /\ 0 <= getMonth d < 12.

Section WithDate.
(** [new Date(isoString)] in the local time zone; [None] is Invalid Date,
    whose getters all return NaN. *)
Variable Date_local : string -> option LocalDate.

Definition formatDateTime (isoString : option string) : string :=
  match isoString with
  | None => "—"
  | Some iso =>
      if negb (truthy_string iso) then "—"
      else
        match Date_local iso with
        | None =>
            (* NaN >= 12 is false; NaN % 12 || 12 is 12; monthNames[NaN] is
               undefined *)
            "12" ++ ":" ++ padStart2 "NaN" ++ "am" ++ ", " ++ "NaN" ++ " " ++
            "undefined"
        | Some date =>
            let hours := getHours date in
            let minutes := getMinutes date in
            let period := if 12 <=? hours then "pm" else "am" in
            let hours := if hours mod 12 =? 0 then 12 else hours mod 12 in
            let time :=
              Number_toString hours ++ ":" ++
              padStart2 (Number_toString minutes) ++ period in
            let day := getDate date in
            let month :=
              match nth_error monthNames (Z.to_nat (getMonth date)) with
              | Some m => m
              | None => "undefined"
              end in
            time ++ ", " ++ Number_toString day ++ " " ++ month
        end
  end.

End WithDate.

End Dates.

(* ================================================================== *)
(** * The components that call the server actions *)
(* ================================================================== *)

Module Pages.
Import Js Server.
Local Open Scope action_scope.

(** src/app/(root)/layout.tsx: the layout renders for the current user or
    redirects. *)
Definition Layout (be : Backend) : action UserDoc :=
  currentUser <- UserActions.getCurrentUser be ;;
  match currentUser with
  | None => redirect "/sign-in"
  | Some user => ret user
  end.

(** ** AuthForm *)

Inductive FormType : Type := sign_in | sign_up.

Record AuthValues : Type := mkValues {
  v_email : string;
  v_fullName : option string
}.

Record AuthState : Type := mkAuth {
  isLoading : bool;
  errorMessage : string;
  auth_accountId : option string
}.

(** onSubmit: the state of the form and the world after the handler. *)
Definition onSubmit (be : Backend) (type : FormType) (values : AuthValues)
  (st : AuthState) (w : World) : AuthState * World :=
  (* setIsLoading(true); setErrorMessage("") *)
  let st := mkAuth true EmptyString (auth_accountId st) in
  let call : action (option string) :=
    match type with
    | sign_up =>
        accountId <- UserActions.createAccount be
                       (FileActions.default EmptyString (v_fullName values))
                       (v_email values) ;;
        ret (Some accountId)
    | sign_in =>
        user <- UserActions.signInUser be (v_email values) ;;
        ret (UserActions.accountId user)
    end in
  match call w with
  | (Normal accountId, w') =>
      (* setAccountId(user.accountId); finally setIsLoading(false) *)
      (mkAuth false (errorMessage st) accountId, w')
  | (Throw _, w') =>
      (mkAuth false "Failed to create account. Please try again."
              (auth_accountId st), w')
  end.

(** ** ActionDropdown *)

(** The values of actionsDropdownItems (src/constants/index.ts). *)
Inductive ActionValue : Type := rename | details | share | download | delete.

(** The fields of the file document the dropdown reads. *)
Record FileItem : Type := mkFileItem {
  i_id : string;
  i_name : string;
  i_extension : string;
  i_bucketFileId : string;
  i_users : list string
}.

Record DropdownState : Type := mkDropdown {
  isModalOpen : bool;
  isDropdownOpen : bool;
  action_ : option ActionValue;
  name : string;
  dd_isLoading : bool;
  emails : list string
}.

Definition closeAllModals (file : FileItem) (st : DropdownState)
  : DropdownState :=
  mkDropdown false false None (i_name file) (dd_isLoading st) (emails st).

Definition setIsLoading (b : bool) (st : DropdownState) : DropdownState :=
  mkDropdown (isModalOpen st) (isDropdownOpen st) (action_ st) (name st) b
             (emails st).

Definition setEmails (l : list string) (st : DropdownState) : DropdownState :=
  mkDropdown (isModalOpen st) (isDropdownOpen st) (action_ st) (name st)
             (dd_isLoading st) l.

(** The object [actions] of handleAction: three of the five values have an
    entry. *)
Definition actions (be : Backend) (file : FileItem) (path : string)
  (st : DropdownState) (value : ActionValue) : option (action unit) :=
  match value with
  | rename =>
      Some (Actions.discard
              (FileActions.renameFile be
                 (FileActions.mkRename (i_id file) (name st)
                                       (i_extension file) path)))
  | share =>
      Some (Actions.discard
              (FileActions.updateFileUsers be
                 (FileActions.mkUpdateUsers (i_id file) (emails st) path)))
  | delete =>
      Some (Actions.discard
              (FileActions.deleteFile be
                 (FileActions.mkDelete (i_id file) (i_bucketFileId file) path)))
  | details | download => None
  end.

(** handleAction; what the server actions resolve to is an object, which
    is truthy. *)
Definition handleAction (be : Backend) (file : FileItem) (path : string)
  (st : DropdownState) (w : World)
  : completion unit * DropdownState * World :=
  match action_ st with
  | None => (Normal tt, st, w)
  | Some value =>
      let st := setIsLoading true st in
      match actions be file path st value with
      | None =>
          (Throw (TypeError "actions[action.value] is not a function"), st, w)
      | Some run =>
          match run w with
          | (Normal _, w') =>
              (Normal tt, setIsLoading false (closeAllModals file st), w')
          | (Throw e, w') => (Throw e, st, w')
          end
      end
  end.

Definition handleRemoveUser (be : Backend) (file : FileItem) (path : string)
  (email : string) (st : DropdownState) (w : World)
  : completion unit * DropdownState * World :=
  let updatedEmails :=
    filter (fun e => negb (String.eqb e email)) (emails st) in
  match FileActions.updateFileUsers be
          (FileActions.mkUpdateUsers (i_id file) updatedEmails path) w with
  | (Normal _, w') =>
      (Normal tt, closeAllModals file (setEmails updatedEmails st), w')
  | (Throw e, w') => (Throw e, st, w')
  end.

End Pages.

Module Frames.
Import Js Server Actions.

(** The path a server action revalidates when it succeeds. *)
Definition revalidates (a : server_action) : option string :=
  match a with
  | UploadFile props => Some (FileActions.up_path props)
  | RenameFile props => Some (FileActions.rn_path props)
  | UpdateFileUsers props => Some (FileActions.uu_path props)
  | DeleteFile props => Some (FileActions.del_path props)
  | _ => None
  end.

(** The one message the AuthForm shows for every failure. *)
Definition generic_message : string :=
  "Failed to create account. Please try again.".

Definition writes_cookie (a : server_action) : bool :=
  match a with
  | VerifySecret _ _ | SignOutUser => true
  | _ => false
  end.

Definition writes_bucket (a : server_action) : bool :=
  match a with
  | UploadFile _ | DeleteFile _ => true
  | _ => false
  end.

End Frames.

Module MoreSamples.
Import Js Server.

(** A world without a session cookie. *)
Definition signed_out : World := mkWorld [] [] [] None [].

(** A backend that knows no user. *)
Definition backend_no_user : Backend :=
  mkBackend (createEmailToken Samples.backend) (createSession Samples.backend)
    (get Samples.backend) (deleteSession Samples.backend)
    (fun _ => Normal (mkList 0 []))
    (listFiles Samples.backend) (createUserDocument Samples.backend)
    (createFileDocument Samples.backend) (updateDocument Samples.backend)
    (deleteDocument Samples.backend) (createFile Samples.backend)
    (deleteFile Samples.backend).

(** A backend whose storage refuses to delete. *)
Definition backend_storage_delete_fails : Backend :=
  mkBackend (createEmailToken Samples.backend) (createSession Samples.backend)
    (get Samples.backend) (deleteSession Samples.backend)
    (listUsers Samples.backend) (listFiles Samples.backend)
    (createUserDocument Samples.backend) (createFileDocument Samples.backend)
    (updateDocument Samples.backend) (deleteDocument Samples.backend)
    (createFile Samples.backend)
    (fun _ => Throw (AppwriteException "storage_file_not_found")).

(** A backend that refuses to update a document. *)
Definition backend_update_fails : Backend :=
  mkBackend (createEmailToken Samples.backend) (createSession Samples.backend)
    (get Samples.backend) (deleteSession Samples.backend)
    (listUsers Samples.backend) (listFiles Samples.backend)
    (createUserDocument Samples.backend) (createFileDocument Samples.backend)
    (fun _ _ => Throw (AppwriteException "document_not_found"))
    (deleteDocument Samples.backend) (createFile Samples.backend)
    (deleteFile Samples.backend).

(** A clock three hours east of UTC that knows one timestamp: 10:00 UTC
    of 5 January is 13:00 there. *)
Definition Date_local (s : string) : option Dates.LocalDate :=
  if String.eqb s "2024-01-05T10:00:00.000+00:00"
  then Some (Dates.mkLocal 13 0 5 0)
  else None.

Definition item : Pages.FileItem :=
  Pages.mkFileItem "d1" "a.png" "png" "blob1" ["bob@example.com"].

Definition dropdown_share : Pages.DropdownState :=
  Pages.mkDropdown true false (Some Pages.share) "a.png" false [].

Definition dropdown_rename : Pages.DropdownState :=
  Pages.mkDropdown true false (Some Pages.rename) "b" false [].

End MoreSamples.

(* ================================================================== *)
(** * Facts about the built-ins *)
(* ================================================================== *)

Module JsFacts.
Import Js.

Lemma split_not_nil (sep : ascii) (s : string) : split sep s <> [].
Proof.
  induction s as [|c rest IH]; simpl; [discriminate|].
  destruct (Ascii.eqb c sep); [discriminate|].
  destruct (split sep rest); discriminate.
Qed.

Lemma pop_some {A : Type} (l : list A) : l <> [] -> exists x, pop l = Some x.
Proof.
  induction l as [|a tl IH]; [congruence|intros _].
  destruct tl as [|b tl']; [now exists a|].
  destruct IH as [x Hx]; [discriminate|]. exists x. exact Hx.
Qed.

Lemma split_no_sep (sep : ascii) (s : string) :
  has_char sep s = false -> split sep s = [s].
Proof.
  induction s as [|c rest IH]; simpl; [reflexivity|].
  intros H. apply orb_false_iff in H. destruct H as [Hc Hrest].
  rewrite Hc, (IH Hrest). reflexivity.
Qed.

Lemma includes_In (l : list string) (x : string) :
  includes l x = true <-> In x l.
Proof.
  unfold includes. rewrite existsb_exists. split.
  - intros [y [Hy Heq]]. apply String.eqb_eq in Heq. now subst.
  - intros H. exists x. split; [exact H|apply String.eqb_refl].
Qed.

Lemma includes_not_In (l : list string) (x : string) :
  includes l x = false <-> ~ In x l.
Proof.
  rewrite <- includes_In. destruct (includes l x); split; congruence.
Qed.

Lemma truthy_string_false (s : string) : truthy_string s = false <-> s = EmptyString.
Proof. destruct s; simpl; split; congruence. Qed.

(** ** Strings *)

Lemma append_nil_r (s : string) : s ++ EmptyString = s.
Proof. induction s as [|c r IH]; simpl; [reflexivity|now rewrite IH]. Qed.

Lemma append_assoc (s1 s2 s3 : string) : (s1 ++ s2) ++ s3 = s1 ++ (s2 ++ s3).
Proof. induction s1 as [|c r IH]; simpl; [reflexivity|now rewrite IH]. Qed.

Lemma length_append (s1 s2 : string) :
  String.length (s1 ++ s2) = (String.length s1 + String.length s2)%nat.
Proof. induction s1 as [|c r IH]; simpl; [reflexivity|now rewrite IH]. Qed.

Lemma has_char_app (c : ascii) (s1 s2 : string) :
  has_char c (s1 ++ s2) = (has_char c s1 || has_char c s2)%bool.
Proof.
  induction s1 as [|d r IH]; simpl; [reflexivity|].
  rewrite IH. now rewrite orb_assoc.
Qed.

Lemma split_app_sep (sep : ascii) (a b : string) :
  has_char sep a = false ->
  split sep (a ++ String sep b) = a :: split sep b.
Proof.
  induction a as [|c r IH]; simpl.
  - intros _. now rewrite Ascii.eqb_refl.
  - intros H. apply orb_false_iff in H. destruct H as [Hc Hr].
    rewrite Hc, (IH Hr). reflexivity.
Qed.

Lemma take_drop (k : nat) (s : string) : take k s ++ drop k s = s.
Proof.
  revert s. induction k as [|k IH]; intros [|c r]; simpl; try reflexivity.
  now rewrite IH.
Qed.

Lemma length_drop (k : nat) (s : string) :
  String.length (drop k s) = (String.length s - k)%nat.
Proof.
  revert s. induction k as [|k IH]; intros [|c r]; simpl; try reflexivity.
  apply IH.
Qed.

Lemma has_char_take (c : ascii) (k : nat) (s : string) :
  has_char c s = false -> has_char c (take k s) = false.
Proof.
  intros H. rewrite <- (take_drop k s), has_char_app in H.
  now apply orb_false_iff in H.
Qed.

Lemma has_char_drop (c : ascii) (k : nat) (s : string) :
  has_char c s = false -> has_char c (drop k s) = false.
Proof.
  intros H. rewrite <- (take_drop k s), has_char_app in H.
  now apply orb_false_iff in H.
Qed.

(** ** Decimal digits *)

Lemma digit_char_spec (d : Z) :
  0 <= d < 10 ->
  is_digit (digit_char d) = true /\
  Z.of_nat (nat_of_ascii (digit_char d)) - 48 = d.
Proof.
  intros H.
  assert (Hd : d = 0 \/ d = 1 \/ d = 2 \/ d = 3 \/ d = 4 \/ d = 5 \/ d = 6 \/
               d = 7 \/ d = 8 \/ d = 9) by lia.
  repeat (destruct Hd as [-> | Hd]; [split; reflexivity|]).
  subst d. split; reflexivity.
Qed.

Lemma all_digits_app (s1 s2 : string) :
  all_digits (s1 ++ s2) = (all_digits s1 && all_digits s2)%bool.
Proof.
  induction s1 as [|c r IH]; simpl; [reflexivity|].
  rewrite IH. now rewrite andb_assoc.
Qed.

Lemma all_digits_has_char (c : ascii) (s : string) :
  is_digit c = false -> all_digits s = true -> has_char c s = false.
Proof.
  intros Hc. induction s as [|d r IH]; simpl; [reflexivity|].
  intros H. apply andb_true_iff in H. destruct H as [Hd Hr].
  rewrite (IH Hr), orb_false_r.
  destruct (Ascii.eqb_spec d c) as [->|]; [congruence|reflexivity].
Qed.

Lemma digits_value_app (s1 s2 : string) (acc : Z) :
  digits_value (s1 ++ s2) acc =
  match digits_value s1 acc with
  | Some a => digits_value s2 a
  | None => None
  end.
Proof.
  revert acc. induction s1 as [|c r IH]; intros acc; simpl; [reflexivity|].
  destruct (is_digit c); [apply IH|reflexivity].
Qed.

Lemma digits_value_zeros (k : nat) : digits_value (zeros k) 0 = Some 0.
Proof. induction k as [|k IH]; simpl; [reflexivity|exact IH]. Qed.

Lemma all_digits_zeros (k : nat) : all_digits (zeros k) = true.
Proof. induction k as [|k IH]; simpl; [reflexivity|exact IH]. Qed.

Lemma length_zeros (k : nat) : String.length (zeros k) = k.
Proof. induction k as [|k IH]; simpl; [reflexivity|now rewrite IH]. Qed.

Lemma digits_fuel_acc (fuel : nat) (n : Z) (acc : string) :
  digits_fuel fuel n acc = digits_fuel fuel n EmptyString ++ acc.
Proof.
  revert n acc. induction fuel as [|fuel IH]; intros n acc; cbn [digits_fuel].
  - reflexivity.
  - destruct (n <? 10); [reflexivity|].
    rewrite (IH (n / 10) (String _ acc)).
    rewrite (IH (n / 10) (String _ EmptyString)).
    now rewrite append_assoc.
Qed.

Lemma digits_fuel_all_digits (fuel : nat) (n : Z) :
  all_digits (digits_fuel fuel n EmptyString) = true.
Proof.
  revert n. induction fuel as [|fuel IH]; intros n; cbn [digits_fuel];
    [reflexivity|].
  assert (Hd : is_digit (digit_char (n mod 10)) = true).
  { apply digit_char_spec. apply Z.mod_pos_bound. lia. }
  destruct (n <? 10); cbn [all_digits].
  - now rewrite Hd.
  - rewrite digits_fuel_acc, all_digits_app, IH. cbn [all_digits andb].
    now rewrite Hd.
Qed.

Lemma digits_fuel_value (fuel : nat) (n : Z) :
  0 <= n < 10 ^ Z.of_nat fuel ->
  digits_value (digits_fuel fuel n EmptyString) 0 = Some n.
Proof.
  revert n. induction fuel as [|fuel IH]; intros n Hn.
  - cbn [digits_fuel digits_value]. f_equal. change (10 ^ Z.of_nat 0) with 1 in Hn.
    lia.
  - cbn [digits_fuel].
    destruct (digit_char_spec (n mod 10)) as [Hd Hv];
      [apply Z.mod_pos_bound; lia|].
    destruct (Z.ltb_spec n 10) as [Hlt|Hge].
    + cbn [digits_value]. rewrite Hd, Hv. f_equal. rewrite Z.mod_small; lia.
    + rewrite digits_fuel_acc, digits_value_app, IH.
      * cbn [digits_value]. rewrite Hd, Hv. f_equal.
        pose proof (Z.div_mod n 10). lia.
      * rewrite Nat2Z.inj_succ, Z.pow_succ_r in Hn by lia.
        split; [apply Z.div_pos; lia|].
        apply Z.div_lt_upper_bound; lia.
Qed.

Lemma digits_fuel_length (fuel : nat) (n : Z) :
  (1 <= String.length (digits_fuel (S fuel) n EmptyString))%nat.
Proof.
  cbn [digits_fuel]. destruct (n <? 10); cbn [String.length]; [lia|].
  rewrite digits_fuel_acc, length_append. cbn [String.length]. lia.
Qed.

Lemma digits_enough_fuel (n : Z) :
  0 <= n -> n < 10 ^ Z.of_nat (S (Z.to_nat (Z.log2 n))).
Proof.
  intros Hn.
  rewrite Nat2Z.inj_succ, Z2Nat.id by apply Z.log2_nonneg.
  destruct (Z.eq_dec n 0) as [->|Hne]; [reflexivity|].
  pose proof (Z.log2_spec n ltac:(lia)) as [_ Hlt].
  eapply Z.lt_le_trans; [exact Hlt|].
  apply Z.pow_le_mono_l. pose proof (Z.log2_nonneg n). lia.
Qed.

Lemma digits_value_digits (n : Z) :
  0 <= n -> digits_value (digits n) 0 = Some n.
Proof.
  intros Hn. apply digits_fuel_value.
  split; [exact Hn|now apply digits_enough_fuel].
Qed.

Lemma all_digits_digits (n : Z) : all_digits (digits n) = true.
Proof. apply digits_fuel_all_digits. Qed.

Lemma length_digits (n : Z) : (1 <= String.length (digits n))%nat.
Proof. apply digits_fuel_length. Qed.

Lemma truthy_length (s : string) :
  (1 <= String.length s)%nat -> truthy_string s = true.
Proof. destruct s; simpl; [lia|reflexivity]. Qed.

(** ** toFixed and Number *)

Lemma fixed_notation_padded (n : Z) (f : nat) :
  0 <= n ->
  let m := digits n in
  let m' := if Nat.leb (String.length m) f
            then zeros (f + 1 - String.length m) ++ m else m in
  all_digits m' = true /\ digits_value m' 0 = Some n /\
  (f + 1 <= String.length m')%nat.
Proof.
  intros Hn m m'. subst m m'.
  pose proof (length_digits n) as Hlen.
  destruct (Nat.leb_spec (String.length (digits n)) f) as [Hle|Hgt].
  - rewrite all_digits_app, all_digits_zeros, all_digits_digits.
    rewrite digits_value_app, digits_value_zeros, digits_value_digits by exact Hn.
    rewrite length_append, length_zeros. repeat split. lia.
  - rewrite all_digits_digits, digits_value_digits by exact Hn.
    repeat split. lia.
Qed.

Lemma fixed_notation_chars (c : ascii) (n : Z) (f : nat) :
  0 <= n -> is_digit c = false -> c <> "."%char ->
  has_char c (fixed_notation n f) = false.
Proof.
  intros Hn Hc Hdot. unfold fixed_notation.
  destruct (Nat.eqb f 0).
  - apply all_digits_has_char; [exact Hc|apply all_digits_digits].
  - destruct (fixed_notation_padded n f Hn) as [Hall _].
    cbv zeta in Hall. set (m' := if Nat.leb _ f then _ else _) in *.
    pose proof (all_digits_has_char c m' Hc Hall) as Hm.
    rewrite has_char_app. cbn [append has_char].
    rewrite (has_char_take _ _ _ Hm), (has_char_drop _ _ _ Hm).
    destruct (Ascii.eqb_spec "." c) as [E|_]; [congruence|reflexivity].
Qed.

Lemma unsigned_decimal_fixed_notation (n : Z) (f : nat) :
  0 <= n ->
  unsigned_decimal (fixed_notation n f) =
  Some (Qmake n (Z.to_pos (10 ^ Z.of_nat f))).
Proof.
  intros Hn. unfold fixed_notation, unsigned_decimal.
  destruct f as [|f]; cbn [Nat.eqb].
  - rewrite split_no_sep
      by (apply all_digits_has_char; [reflexivity|apply all_digits_digits]).
    rewrite (truthy_length _ (length_digits n)), digits_value_digits by exact Hn.
    reflexivity.
  - destruct (fixed_notation_padded n (S f) Hn) as [Hall [Hval Hlen]].
    cbv zeta in Hall, Hval, Hlen.
    set (m' := if Nat.leb _ (S f) then _ else _) in *.
    assert (Hm : has_char "." m' = false)
      by (apply all_digits_has_char; [reflexivity|exact Hall]).
    cbn [append].
    rewrite split_app_sep by (now apply has_char_take).
    rewrite split_no_sep by (now apply has_char_drop).
    rewrite take_drop, Hval, length_drop.
    rewrite truthy_length by lia. cbn [option_map].
    do 4 f_equal. lia.
Qed.

Lemma Number_unsigned (s : string) :
  s <> EmptyString -> has_char "-" s = false ->
  Number s = unsigned_decimal s.
Proof.
  destruct s as [|c r]; [congruence|intros _ H].
  cbn [has_char] in H. apply orb_false_iff in H. destruct H as [H _].
  destruct c as [[] [] [] [] [] [] [] []]; try reflexivity; discriminate H.
Qed.

Lemma fixed_notation_not_empty (n : Z) (f : nat) :
  0 <= n -> fixed_notation n f <> EmptyString.
Proof.
  intros Hn H.
  pose proof (unsigned_decimal_fixed_notation n f Hn) as Hu.
  rewrite H in Hu. discriminate Hu.
Qed.

Lemma Number_fixed_notation (n : Z) (f : nat) :
  0 <= n ->
  Number (fixed_notation n f) = Some (Qmake n (Z.to_pos (10 ^ Z.of_nat f))).
Proof.
  intros Hn. rewrite Number_unsigned.
  - now apply unsigned_decimal_fixed_notation.
  - now apply fixed_notation_not_empty.
  - apply fixed_notation_chars; [exact Hn|reflexivity|discriminate].
Qed.

Lemma fixed_integer_nonneg (x : Q) (f : nat) :
  (0 <= x)%Q -> 0 <= fixed_integer x f.
Proof.
  intros Hx. unfold fixed_integer.
  change 0 with (Qfloor 0). apply Qfloor_resp_le.
  assert (Hp : (0 <= inject_Z (10 ^ Z.of_nat f))%Q).
  { change 0%Q with (inject_Z 0). rewrite <- Zle_Qle.
    apply Z.pow_nonneg. lia. }
  pose proof (Qmult_le_0_compat _ _ Hx Hp) as Hm.
  apply (Qle_trans _ (0 + (1 # 2))); [discriminate|].
  apply Qplus_le_compat; [exact Hm|apply Qle_refl].
Qed.

Lemma fixed_integer_mono (x y : Q) (f : nat) :
  (x <= y)%Q -> fixed_integer x f <= fixed_integer y f.
Proof.
  intros Hxy. unfold fixed_integer. apply Qfloor_resp_le.
  apply Qplus_le_compat; [|apply Qle_refl].
  apply Qmult_le_compat_r; [exact Hxy|].
  change 0%Q with (inject_Z 0). rewrite <- Zle_Qle.
  apply Z.pow_nonneg. lia.
Qed.

(** The integer chosen by toFixed is the nearest one to [x * 10^f]. *)
Lemma fixed_integer_nearest (x : Q) (f : nat) :
  let y := (x * inject_Z (10 ^ Z.of_nat f))%Q in
  (inject_Z (fixed_integer x f) <= y + (1 # 2))%Q /\
  (y + (1 # 2) < inject_Z (fixed_integer x f + 1))%Q.
Proof.
  intros y. unfold fixed_integer. fold y. split.
  - apply Qfloor_le.
  - apply Qlt_floor.
Qed.

Lemma toFixed_nonneg (x : Q) (d : Z) :
  0 <= d <= 100 -> (0 <= x)%Q ->
  toFixed x d =
  Normal (fixed_notation (fixed_integer x (Z.to_nat d)) (Z.to_nat d)).
Proof.
  intros Hd Hx. unfold toFixed.
  destruct (Z.ltb_spec d 0); [lia|].
  destruct (Z.ltb_spec 100 d); [lia|]. cbn [orb].
  apply Qle_bool_iff in Hx. now rewrite Hx.
Qed.

Lemma Number_digits (n : Z) :
  0 <= n ->
  Number (Number_toString n) = Some (inject_Z n) /\
  has_char " " (Number_toString n) = false.
Proof.
  intros Hn. unfold Number_toString.
  destruct (Z.ltb_spec n 0); [lia|].
  pose proof (Number_fixed_notation n 0 Hn) as HN.
  pose proof (fixed_notation_chars " " n 0 Hn eq_refl) as HC.
  unfold fixed_notation in HN, HC. cbn [Nat.eqb] in HN, HC.
  split; [exact HN|apply HC; discriminate].
Qed.

(** ** Addition within the safe range *)

Lemma to_double_safe (n : Z) : Z.abs n <= MAX_SAFE_INTEGER -> to_double n = n.
Proof.
  unfold to_double, MAX_SAFE_INTEGER. intros H.
  destruct (Z.ltb_spec (Z.abs n) (2 ^ 53)) as [_|Hge]; [reflexivity|lia].
Qed.

Lemma number_add_safe (a b : Z) :
  0 <= a -> 0 <= b -> a + b <= MAX_SAFE_INTEGER -> number_add a b = a + b.
Proof.
  intros Ha Hb Hs. unfold number_add. apply to_double_safe. lia.
Qed.

(** Beyond the safe range the sum is rounded: 2^53 + 1 is no double. *)
Example number_add_rounds :
  number_add MAX_SAFE_INTEGER 2 = 2 ^ 53 /\
  number_add (2 ^ 53) 3 = 2 ^ 53 + 4 /\
  number_add (2 ^ 54) 6 = 2 ^ 54 + 8 /\
  number_add (2 ^ 54) 5 = 2 ^ 54 + 4.
Proof. repeat split; vm_compute; reflexivity. Qed.

End JsFacts.

(* ================================================================== *)
(** * getFileType *)
(* ================================================================== *)

Module UtilsFacts.
Import Js JsFacts Utils.

Lemma extension_of_some (fileName : string) :
  exists e, extension_of fileName = Some e.
Proof.
  unfold extension_of.
  destruct (pop_some (split "." fileName) (split_not_nil _ _)) as [x Hx].
  rewrite Hx. now eexists.
Qed.

Lemma classify_extension (e : string) : extension (classify e) = e.
Proof.
  unfold classify.
  repeat match goal with |- context [if ?b then _ else _] => destruct b end;
    reflexivity.
Qed.

Lemma classify_type_closed (e : string) : In (type (classify e)) fileTypes.
Proof.
  unfold classify, fileTypes.
  repeat match goal with |- context [if ?b then _ else _] => destruct b end;
    simpl; tauto.
Qed.

(** The extension lists do not overlap, so the order of the tests does not
    matter: membership in a list decides the type. *)
Lemma classify_by_list (e : string) :
  (In e documentExtensions -> type (classify e) = "document") /\
  (In e imageExtensions -> type (classify e) = "image") /\
  (In e videoExtensions -> type (classify e) = "video") /\
  (In e audioExtensions -> type (classify e) = "audio") /\
  (~ In e documentExtensions -> ~ In e imageExtensions ->
   ~ In e videoExtensions -> ~ In e audioExtensions ->
   type (classify e) = "other").
Proof.
  repeat split.
  - intros H. apply includes_In in H. unfold classify. now rewrite H.
  - intros H. simpl in H.
    repeat (destruct H as [<- | H]; [reflexivity|]). destruct H.
  - intros H. simpl in H.
    repeat (destruct H as [<- | H]; [reflexivity|]). destruct H.
  - intros H. simpl in H.
    repeat (destruct H as [<- | H]; [reflexivity|]). destruct H.
  - intros Hd Hi Hv Ha.
    apply includes_not_In in Hd, Hi, Hv, Ha.
    unfold classify. now rewrite Hd, Hi, Hv, Ha.
Qed.

Lemma getFileType_cases (fileName : string) :
  exists e, extension_of fileName = Some e /\
    ((e = EmptyString /\ getFileType fileName = mkInfo "other" EmptyString) \/
     (e <> EmptyString /\ getFileType fileName = classify e)).
Proof.
  destruct (extension_of_some fileName) as [e He]. exists e. split; [exact He|].
  unfold getFileType. rewrite He.
  destruct e as [|c rest]; simpl; [left; split; reflexivity|].
  right. split; [discriminate|reflexivity].
Qed.

(** C5. For every file name the type returned by getFileType is one of
    document, image, video, audio, other; the returned extension being in
    the document, image, video or audio list yields that type, and any other
    extension yields the default type other. *)
Theorem getFileType_closed_set (fileName : string) :
  let r := getFileType fileName in
  In (type r) fileTypes /\
  extension_of fileName = Some (extension r) /\
  (In (extension r) documentExtensions -> type r = "document") /\
  (In (extension r) imageExtensions -> type r = "image") /\
  (In (extension r) videoExtensions -> type r = "video") /\
  (In (extension r) audioExtensions -> type r = "audio") /\
  (~ In (extension r) documentExtensions -> ~ In (extension r) imageExtensions ->
   ~ In (extension r) videoExtensions -> ~ In (extension r) audioExtensions ->
   type r = "other").
Proof.
  intros r. subst r.
  destruct (getFileType_cases fileName) as [e [He [[-> ->] | [Hne ->]]]].
  - simpl. repeat split; try reflexivity; try (intros; reflexivity).
    + tauto.
    + exact He.
    + intros H. repeat (destruct H as [H | H]; [discriminate|]). destruct H.
    + intros H. repeat (destruct H as [H | H]; [discriminate|]). destruct H.
    + intros H. repeat (destruct H as [H | H]; [discriminate|]). destruct H.
    + intros H. repeat (destruct H as [H | H]; [discriminate|]). destruct H.
  - rewrite classify_extension.
    split; [apply classify_type_closed|]. split; [exact He|].
    apply classify_by_list.
Qed.

Lemma getFileType_closed_set_witness :
  type (getFileType "Report.PDF") = "document".
Proof.
  destruct (getFileType_closed_set "Report.PDF") as [_ [_ [Hdoc _]]].
  apply Hdoc. left. reflexivity.
Defined.

(** C10. A file name without a dot is its own extension once lowercased and
    is classified against the lists (the file named pdf is a document with
    extension pdf); the fallback record, type other with the empty extension,
    is returned exactly when the computed extension is the empty string. *)
Theorem getFileType_no_dot :
  (forall fileName, has_char "." fileName = false ->
     extension_of fileName = Some (toLowerCase fileName) /\
     (toLowerCase fileName <> EmptyString ->
      getFileType fileName = classify (toLowerCase fileName))) /\
  getFileType "pdf" = mkInfo "document" "pdf" /\
  (forall fileName,
     getFileType fileName = mkInfo "other" EmptyString <->
     extension_of fileName = Some EmptyString).
Proof.
  split; [|split].
  - intros fileName Hdot.
    assert (He : extension_of fileName = Some (toLowerCase fileName)).
    { unfold extension_of. now rewrite (split_no_sep _ _ Hdot). }
    split; [exact He|]. intros Hne.
    unfold getFileType. rewrite He.
    destruct (toLowerCase fileName); [congruence|reflexivity].
  - reflexivity.
  - intros fileName.
    destruct (getFileType_cases fileName) as [e [He [[-> ->] | [Hne ->]]]].
    + split; [intros _; exact He|reflexivity].
    + rewrite He. split.
      * intros H. apply (f_equal extension) in H.
        rewrite classify_extension in H. simpl in H. congruence.
      * intros H. congruence.
Qed.

Lemma getFileType_no_dot_witness :
  getFileType "README" = classify "readme".
Proof.
  destruct getFileType_no_dot as [Hnodot _].
  destruct (Hnodot "README" eq_refl) as [_ Hclass].
  apply Hclass. discriminate.
Defined.

End UtilsFacts.

(* ================================================================== *)
(** * convertFileSize and calculatePercentage *)
(* ================================================================== *)

Module SizeFacts.
Import Js JsFacts Utils Sizes.

Lemma digits_or_1_range (digits : option Z) :
  valid_digits digits -> 0 <= digits_or_1 digits <= 100.
Proof.
  destruct digits as [d|]; simpl; [|lia].
  destruct (Z.eqb_spec d 0); lia.
Qed.

Lemma quotient_nonneg (s c : Z) :
  0 <= s -> 0 < c -> (0 <= inject_Z s / inject_Z c)%Q.
Proof.
  intros Hs Hc. unfold Qdiv. apply Qmult_le_0_compat.
  - change 0%Q with (inject_Z 0). now rewrite <- Zle_Qle.
  - apply Qinv_le_0_compat. change 0%Q with (inject_Z 0).
    rewrite <- Zle_Qle. lia.
Qed.

Lemma quotient_mono (a b c : Z) :
  a <= b -> 0 < c -> (inject_Z a / inject_Z c <= inject_Z b / inject_Z c)%Q.
Proof.
  intros Hab Hc. unfold Qdiv. apply Qmult_le_compat_r.
  - now rewrite <- Zle_Qle.
  - apply Qinv_le_0_compat. change 0%Q with (inject_Z 0).
    rewrite <- Zle_Qle. lia.
Qed.

Lemma toFixed_quotient (s c : Z) (d : Z) :
  0 <= s -> 0 < c -> 0 <= d <= 100 ->
  exists num,
    toFixed (inject_Z s / inject_Z c) d = Normal num /\
    has_char " " num = false /\
    Number num =
      Some (Qmake (fixed_integer (inject_Z s / inject_Z c) (Z.to_nat d))
                  (Z.to_pos (10 ^ Z.of_nat (Z.to_nat d)))).
Proof.
  intros Hs Hc Hd.
  pose proof (quotient_nonneg s c Hs Hc) as Hq.
  pose proof (fixed_integer_nonneg _ (Z.to_nat d) Hq) as Hn.
  eexists. split; [apply toFixed_nonneg; assumption|]. split.
  - apply fixed_notation_chars; [exact Hn|reflexivity|discriminate].
  - apply Number_fixed_notation. exact Hn.
Qed.

(** What convertFileSize returns, branch by branch. *)
Lemma convertFileSize_shape (s : Z) (digits : option Z) :
  0 <= s -> valid_digits digits ->
  exists num,
    convertFileSize s digits =
      Normal (num ++ " " ++ unit_name (unit_for s)) /\
    has_char " " num = false /\
    Number num = Some (size_value s digits) /\
    (unit_for s = Bytes -> num = Number_toString s) /\
    (unit_for s <> Bytes ->
     toFixed (inject_Z s / inject_Z (unit_bytes (unit_for s)))
             (digits_or_1 digits) = Normal num).
Proof.
  intros Hs Hv. pose proof (digits_or_1_range digits Hv) as Hd.
  unfold convertFileSize, size_value, unit_for.
  change (1024 ^ 2) with (1024 * 1024).
  change (1024 ^ 3) with (1024 * 1024 * 1024).
  destruct (Z.ltb_spec s 1024) as [H1|H1].
  { exists (Number_toString s).
    destruct (Number_digits s Hs) as [HN HC].
    repeat split; try assumption. congruence. }
  destruct (Z.ltb_spec s (1024 * 1024)) as [H2|H2].
  { destruct (toFixed_quotient s 1024 _ Hs ltac:(lia) Hd) as [num [HT [HC HN]]].
    exists num. cbn [unit_bytes unit_name]. rewrite HT. cbn [cbind].
    repeat split; try assumption. discriminate. }
  destruct (Z.ltb_spec s (1024 * 1024 * 1024)) as [H3|H3].
  { destruct (toFixed_quotient s (1024 * 1024) _ Hs ltac:(lia) Hd)
      as [num [HT [HC HN]]].
    exists num. cbn [unit_bytes unit_name]. rewrite HT. cbn [cbind].
    repeat split; try assumption. discriminate. }
  destruct (toFixed_quotient s (1024 * 1024 * 1024) _ Hs ltac:(lia) Hd)
    as [num [HT [HC HN]]].
  exists num. cbn [unit_bytes unit_name]. rewrite HT. cbn [cbind].
  repeat split; try assumption. discriminate.
Qed.

Lemma split_size (num : string) (u : size_unit) :
  has_char " " num = false ->
  split " " (num ++ " " ++ unit_name u) = [num; unit_name u].
Proof.
  intros H. cbn [append]. rewrite split_app_sep by exact H.
  destruct u; reflexivity.
Qed.

Lemma unit_of_name_name (u : size_unit) : unit_of_name (unit_name u) = Some u.
Proof. destruct u; reflexivity. Qed.

Lemma convertFileSize_read (s : Z) (digits : option Z) :
  0 <= s -> valid_digits digits ->
  exists r,
    convertFileSize s digits = Normal r /\
    read_size r = Some (size_value s digits, unit_for s).
Proof.
  intros Hs Hv.
  destruct (convertFileSize_shape s digits Hs Hv) as [num [HR [HC [HN _]]]].
  eexists. split; [exact HR|].
  unfold read_size. rewrite (split_size _ _ HC), HN, unit_of_name_name.
  reflexivity.
Qed.

Lemma unit_for_spec (s : Z) :
  (unit_for s = Bytes <-> s < 1024) /\
  (unit_for s = KB <-> 1024 <= s < 1024 ^ 2) /\
  (unit_for s = MB <-> 1024 ^ 2 <= s < 1024 ^ 3) /\
  (unit_for s = GB <-> 1024 ^ 3 <= s).
Proof.
  unfold unit_for.
  destruct (Z.ltb_spec s 1024); [|destruct (Z.ltb_spec s (1024 ^ 2));
    [|destruct (Z.ltb_spec s (1024 ^ 3))]];
  repeat split; intros; try discriminate; try reflexivity; lia.
Qed.

Lemma unit_name_inj (u v : size_unit) : unit_name u = unit_name v -> u = v.
Proof. destruct u, v; simpl; intros H; try reflexivity; discriminate H. Qed.

(** C6. convertFileSize uses thresholds of 1024 bytes: a size s with
    0 <= s, formatted with digits that toFixed accepts, is rendered in Bytes
    iff s < 1024, in KB iff 1024 <= s < 1024^2, in MB iff
    1024^2 <= s < 1024^3 and in GB iff 1024^3 <= s; the numeric part is s
    itself in Bytes and else toFixed of s divided by the byte count of the
    unit, which denotes the multiple of 10^-digits nearest to the quotient. *)
Theorem convertFileSize_thresholds (s : Z) (digits : option Z) :
  0 <= s <= MAX_SAFE_INTEGER -> valid_digits digits ->
  exists r num u,
    convertFileSize s digits = Normal r /\
    r = num ++ " " ++ unit_name u /\
    split " " r = [num; unit_name u] /\
    (rendered_in Bytes r <-> s < 1024) /\
    (rendered_in KB r <-> 1024 <= s < 1024 ^ 2) /\
    (rendered_in MB r <-> 1024 ^ 2 <= s < 1024 ^ 3) /\
    (rendered_in GB r <-> 1024 ^ 3 <= s) /\
    (u = Bytes ->
     num = Number_toString s /\ Number num = Some (inject_Z s)) /\
    (u <> Bytes ->
     let x := (inject_Z s / inject_Z (unit_bytes u))%Q in
     let f := Z.to_nat (digits_or_1 digits) in
     toFixed x (digits_or_1 digits) = Normal num /\
     exists n, Number num = Some (Qmake n (Z.to_pos (10 ^ Z.of_nat f))) /\
       (inject_Z n <= x * inject_Z (10 ^ Z.of_nat f) + (1 # 2))%Q /\
       (x * inject_Z (10 ^ Z.of_nat f) + (1 # 2) < inject_Z (n + 1))%Q).
Proof.
  intros [Hs _] Hv.
  destruct (convertFileSize_shape s digits Hs Hv)
    as [num [HR [HC [HN [HB HT]]]]].
  pose proof (split_size num (unit_for s) HC) as Hsplit.
  assert (Hin : forall v, rendered_in v (num ++ " " ++ unit_name (unit_for s))
                          <-> unit_for s = v).
  { intros v. split.
    - intros [num' [q [Hsp _]]]. rewrite Hsplit in Hsp.
      injection Hsp as _ Hname. now apply unit_name_inj.
    - intros <-. exists num, (size_value s digits). now split. }
  destruct (unit_for_spec s) as [U1 [U2 [U3 U4]]].
  exists (num ++ " " ++ unit_name (unit_for s)), num, (unit_for s).
  split; [exact HR|]. split; [reflexivity|]. split; [exact Hsplit|].
  split; [now rewrite Hin|]. split; [now rewrite Hin|].
  split; [now rewrite Hin|]. split; [now rewrite Hin|]. split.
  - intros Hu. split; [now apply HB|].
    rewrite HN. unfold size_value. now rewrite Hu.
  - intros Hu x f. split; [now apply HT|].
    exists (fixed_integer x f). split.
    + rewrite HN. unfold size_value. subst x f.
      destruct (unit_for s); [congruence|reflexivity..].
    + apply fixed_integer_nearest.
Qed.

Lemma convertFileSize_thresholds_witness :
  exists r, convertFileSize 1536 None = Normal r /\ rendered_in KB r.
Proof.
  destruct (convertFileSize_thresholds 1536 None) as [r [num [u H]]].
  - unfold MAX_SAFE_INTEGER. lia.
  - exact I.
  - exists r. split; [apply H|]. apply H. lia.
Defined.

Lemma size_value_mono (a b : Z) (digits : option Z) :
  0 <= a <= b -> unit_for a = unit_for b ->
  (size_value a digits <= size_value b digits)%Q.
Proof.
  intros Hab Hu. unfold size_value. rewrite <- Hu.
  assert (Hfix : forall c, 0 < c ->
    let f := Z.to_nat (digits_or_1 digits) in
    (Qmake (fixed_integer (inject_Z a / inject_Z c) f)
           (Z.to_pos (10 ^ Z.of_nat f)) <=
     Qmake (fixed_integer (inject_Z b / inject_Z c) f)
           (Z.to_pos (10 ^ Z.of_nat f)))%Q).
  { intros c Hc f. unfold Qle. cbn [Qnum Qden].
    apply Z.mul_le_mono_nonneg_r; [lia|].
    apply fixed_integer_mono, quotient_mono; lia. }
  destruct (unit_for a); cbn [unit_bytes].
  - rewrite <- Zle_Qle. lia.
  - apply Hfix. lia.
  - apply Hfix. lia.
  - apply Hfix. lia.
Qed.

Lemma unit_for_mono (a b : Z) :
  a <= b -> unit_rank (unit_for a) <= unit_rank (unit_for b).
Proof.
  intros Hab. unfold unit_for.
  repeat match goal with
         | |- context [?x <? ?y] => destruct (Z.ltb_spec x y)
         end; simpl; lia.
Qed.

(** C7. convertFileSize is monotone: for byte counts 0 <= a <= b the result
    for a is below or equal to the result for b in the order that compares
    units first (Bytes < KB < MB < GB) and numeric prefixes within a unit. *)
Theorem convertFileSize_monotone (a b : Z) (digits : option Z) :
  0 <= a -> a <= b -> b <= MAX_SAFE_INTEGER -> valid_digits digits ->
  exists ra rb,
    convertFileSize a digits = Normal ra /\
    convertFileSize b digits = Normal rb /\
    size_le ra rb.
Proof.
  intros Ha Hab _ Hv.
  destruct (convertFileSize_read a digits Ha Hv) as [ra [HRa Hra]].
  destruct (convertFileSize_read b digits ltac:(lia) Hv) as [rb [HRb Hrb]].
  exists ra, rb. split; [exact HRa|]. split; [exact HRb|].
  unfold size_le. rewrite Hra, Hrb.
  pose proof (unit_for_mono a b Hab) as Hrank.
  destruct (Z.eq_dec (unit_rank (unit_for a)) (unit_rank (unit_for b)))
    as [Heq|Hne]; [right|left; lia].
  assert (Hu : unit_for a = unit_for b).
  { destruct (unit_for a), (unit_for b); simpl in Heq;
      try reflexivity; discriminate Heq. }
  split; [exact Hu|]. apply size_value_mono; [lia|exact Hu].
Qed.

Lemma convertFileSize_monotone_witness :
  exists ra rb,
    convertFileSize 1048575 None = Normal ra /\
    convertFileSize 1048576 None = Normal rb /\
    size_le ra rb.
Proof.
  apply (convertFileSize_monotone 1048575 1048576 None).
  - lia.
  - lia.
  - unfold MAX_SAFE_INTEGER. lia.
  - exact I.
Defined.

(** ** calculatePercentage *)

(** For a byte count s >= 0 the result is the percentage of 2 GB rounded to
    two decimals; nothing bounds it. *)
Lemma calculatePercentage_value (s : Z) :
  0 <= s ->
  calculatePercentage s =
  Normal (Some (Qmake
    (fixed_integer
       (inject_Z s / inject_Z (2 * 1024 * 1024 * 1024) * inject_Z 100) 2)
    100)).
Proof.
  intros Hs. unfold calculatePercentage.
  assert (Hx : (0 <= inject_Z s / inject_Z (2 * 1024 * 1024 * 1024)
                     * inject_Z 100)%Q).
  { apply Qmult_le_0_compat; [apply quotient_nonneg; lia|discriminate]. }
  rewrite (toFixed_nonneg _ 2 ltac:(lia) Hx). cbn [cbind].
  rewrite Number_fixed_notation by (now apply fixed_integer_nonneg).
  reflexivity.
Qed.

(** C1. calculatePercentage is documented to return at most 100, and does
    not: for 4 GB (4294967296 bytes), twice the quota, it returns 200. *)
Theorem calculatePercentage_exceeds_100 :
  exists q,
    calculatePercentage 4294967296 = Normal (Some q) /\
    (q == 200)%Q /\ (100 < q)%Q.
Proof.
  exists (20000 # 100)%Q. split; [|split].
  - vm_compute. reflexivity.
  - reflexivity.
  - reflexivity.
Qed.

End SizeFacts.


(* ================================================================== *)
(** * createQueries and getFiles *)
(* ================================================================== *)

Module QueryFacts.
Import Js JsFacts Server FileActions Queries.

Lemma filters_not_ordering currentUser types searchText limit :
  forallb (fun q => negb (is_ordering q))
          (filters currentUser types searchText limit) = true.
Proof.
  unfold filters, createQueries. cbn [truthy_string].
  destruct (Nat.ltb 0 (List.length types)), (truthy_string searchText),
    (truthy_number limit); reflexivity.
Qed.

Lemma createQueries_split currentUser types searchText sort limit :
  truthy_string sort = true ->
  createQueries currentUser types searchText sort limit =
  (filters currentUser types searchText limit ++
   [ match hd_error (tl (split "-" sort)) with
     | Some o => if String.eqb o "asc"
                 then Query_orderAsc (hd EmptyString (split "-" sort))
                 else Query_orderDesc (hd EmptyString (split "-" sort))
     | None => Query_orderDesc (hd EmptyString (split "-" sort))
     end ])%list.
Proof.
  intros Hs. unfold filters, createQueries. rewrite Hs. reflexivity.
Qed.

Lemma truthy_app_sep (a b : string) (c : ascii) :
  truthy_string (a ++ String c b) = true.
Proof. destruct a; reflexivity. Qed.

(** C8. For a sort string field-order (two tokens without a hyphen)
    createQueries appends exactly one ordering clause, on field, after the
    filters: ascending iff order is asc, descending for any other order;
    and getFiles called without a sort runs as with the sort
    $createdAt-desc, whose clause is descending on $createdAt: once the user
    is found, its one listing of the files ends with that clause. *)
Theorem createQueries_ordering
  (currentUser : UserDoc) (types : list string) (searchText : string)
  (limit : option Z) (field order : string) :
  has_char "-" field = false -> has_char "-" order = false ->
  let sort := (field ++ "-" ++ order)%string in
  let queries := createQueries currentUser types searchText sort limit in
  truthy_string sort = true /\
  (exists clause,
     queries = (filters currentUser types searchText limit ++ [clause])%list /\
     List.length (filter is_ordering queries) = 1%nat /\
     (order = "asc" -> clause = Query_orderAsc field) /\
     (order <> "asc" -> clause = Query_orderDesc field)) /\
  (forall be props w,
     FileActions.sort props = None ->
     getFiles be props w =
     getFiles be (mkGetFiles (FileActions.types props)
                             (FileActions.searchText props)
                             (Some "$createdAt-desc")
                             (FileActions.limit props)) w) /\
  createQueries currentUser types searchText "$createdAt-desc" limit =
  (filters currentUser types searchText limit ++
   [Query_orderDesc "$createdAt"])%list /\
  (forall be props w w1 user,
     FileActions.sort props = None ->
     UserActions.getCurrentUser be w = (Normal (Some user), w1) ->
     exists failure,
       trace (snd (getFiles be props w)) =
       (trace w1 ++
        [ mkEvent
            (databases_listDocuments filesCollection
               (filters user (default [] (FileActions.types props))
                        (default EmptyString (FileActions.searchText props))
                        (FileActions.limit props) ++
                [Query_orderDesc "$createdAt"]))
            failure ])%list).
Proof.
  intros Hf Ho sort queries. subst sort queries. cbn [append].
  split; [apply truthy_app_sep|]. split; [|split; [|split]];
    [| | |
     intros be props w w1 user Hsort Huser;
     unfold getFiles, try_catch, bind; rewrite Hsort, Huser;
     cbn [default]; rewrite createQueries_split by reflexivity;
     unfold listFileDocuments, sdk, FileActions.handleError, console_log,
       throw, ret, bind;
     change (hd_error (tl (split "-" "$createdAt-desc"))) with (Some "desc");
     change (hd EmptyString (split "-" "$createdAt-desc")) with "$createdAt";
     cbn [String.eqb Ascii.eqb Bool.eqb];
     match goal with
     | |- context [listFiles be ?q] => destruct (listFiles be q)
     end; eexists; reflexivity ].
  - rewrite createQueries_split by apply truthy_app_sep.
    rewrite (split_app_sep _ _ _ Hf), (split_no_sep _ _ Ho).
    cbn [tl hd hd_error].
    eexists. split; [reflexivity|]. split; [|split].
    + rewrite filter_app.
      assert (Hnone : filter is_ordering
                        (filters currentUser types searchText limit) = []).
      { pose proof (filters_not_ordering currentUser types searchText limit)
          as Hall.
        induction (filters currentUser types searchText limit) as [|q l IH];
          [reflexivity|].
        cbn [forallb] in Hall. apply andb_true_iff in Hall.
        destruct Hall as [Hq Hl]. cbn [filter].
        destruct (is_ordering q); [discriminate Hq|now apply IH]. }
      rewrite Hnone. destruct (String.eqb order "asc"); reflexivity.
    + intros ->. reflexivity.
    + intros Hne. apply String.eqb_neq in Hne. now rewrite Hne.
  - intros be props w Hsort. unfold getFiles. cbn [FileActions.sort
      FileActions.types FileActions.searchText FileActions.limit].
    rewrite Hsort. reflexivity.
  - rewrite createQueries_split by reflexivity. reflexivity.
Qed.

Lemma createQueries_ordering_witness :
  createQueries (mkUser "u1" "Ada" "ada@example.com" "avatar" "acc1")
                ["image"] "cat" "name-asc" (Some 10) =
  [ Query_or [ Query_equal "owner" ["u1"];
               Query_contains "users" ["ada@example.com"] ];
    Query_equal "type" ["image"];
    Query_contains "name" ["cat"];
    Query_limit 10;
    Query_orderAsc "name" ].
Proof.
  destruct (createQueries_ordering
              (mkUser "u1" "Ada" "ada@example.com" "avatar" "acc1")
              ["image"] "cat" (Some 10) "name" "asc" eq_refl eq_refl)
    as [_ [[clause [Hq [_ [Hasc _]]]] _]].
  rewrite (Hasc eq_refl) in Hq. exact Hq.
Defined.

End QueryFacts.

(* ================================================================== *)
(** * getTotalSpaceUsed *)
(* ================================================================== *)

Module UsageFacts.
Import Js JsFacts Server FileActions Usage.
Local Open Scope list_scope.

Section Dates.
Variable Date_getTime : string -> option Z.

Local Abbreviation valid_date := (Usage.valid_date Date_getTime).
Local Abbreviation not_later := (Usage.not_later Date_getTime).
Local Abbreviation latest_of := (Usage.latest_of Date_getTime).

Lemma FileType_eqb_eq (a b : FileType) : FileType_eqb a b = true <-> a = b.
Proof. destruct a, b; simpl; split; intros H; congruence. Qed.

Lemma FileType_eqb_refl (a : FileType) : FileType_eqb a a = true.
Proof. now apply FileType_eqb_eq. Qed.

Lemma sum_sizes_app (l1 l2 : list FileDoc) :
  sum_sizes (l1 ++ l2) = sum_sizes l1 + sum_sizes l2.
Proof. induction l1 as [|f l IH]; simpl; [reflexivity|rewrite IH; lia]. Qed.

Lemma of_type_snoc (t : FileType) (l : list FileDoc) (x : FileDoc) :
  of_type t (l ++ [x]) =
  if FileType_eqb (f_type x) t then of_type t l ++ [x] else of_type t l.
Proof.
  unfold of_type. rewrite filter_app. cbn [filter].
  destruct (FileType_eqb (f_type x) t); [reflexivity|apply app_nil_r].
Qed.

Lemma usage_of_set_same (t : TotalSpace) (ty : FileType) (u : Usage) :
  usage_of (set_usage t ty u) ty = u.
Proof. destruct ty; reflexivity. Qed.

Lemma usage_of_set_other (t : TotalSpace) (ty ty' : FileType) (u : Usage) :
  ty <> ty' -> usage_of (set_usage t ty u) ty' = usage_of t ty'.
Proof. destruct ty, ty'; intros H; try reflexivity; congruence. Qed.

Lemma usage_of_add_used (t : TotalSpace) (n : Z) (ty : FileType) :
  usage_of (add_used t n) ty = usage_of t ty.
Proof. destruct ty; reflexivity. Qed.

Lemma used_set_usage (t : TotalSpace) (ty : FileType) (u : Usage) :
  used (set_usage t ty u) = used t /\ all (set_usage t ty u) = all t.
Proof. destruct ty; split; reflexivity. Qed.

(** One file: the counters. *)
Lemma aggregate_step_used (t : TotalSpace) (f : FileDoc) :
  used (aggregate_step Date_getTime t f) = number_add (used t) (f_size f) /\
  all (aggregate_step Date_getTime t f) = all t.
Proof.
  unfold aggregate_step.
  destruct (negb _ || _)%bool;
    repeat (rewrite ?(proj1 (used_set_usage _ _ _)),
                    ?(proj2 (used_set_usage _ _ _))); cbn [add_used used all];
    repeat (rewrite ?(proj1 (used_set_usage _ _ _)),
                    ?(proj2 (used_set_usage _ _ _))); split; reflexivity.
Qed.

Lemma aggregate_step_size (t : TotalSpace) (f : FileDoc) (ty : FileType) :
  size (usage_of (aggregate_step Date_getTime t f) ty) =
  if FileType_eqb (f_type f) ty
  then number_add (size (usage_of t ty)) (f_size f)
  else size (usage_of t ty).
Proof.
  unfold aggregate_step.
  destruct (FileType_eqb (f_type f) ty) eqn:E.
  - apply FileType_eqb_eq in E. subst ty.
    destruct (negb _ || _)%bool;
      rewrite ?usage_of_set_same, ?usage_of_add_used, ?usage_of_set_same;
      reflexivity.
  - assert (Hne : f_type f <> ty).
    { intros H. apply FileType_eqb_eq in H. congruence. }
    destruct (negb _ || _)%bool;
      rewrite ?(usage_of_set_other _ _ _ _ Hne), ?usage_of_add_used,
              ?(usage_of_set_other _ _ _ _ Hne); reflexivity.
Qed.

(** One file: the date of its own type is replaced when it was empty or is
    earlier, and no other date changes. *)
Lemma aggregate_step_latest (t : TotalSpace) (f : FileDoc) (ty : FileType) :
  latestDate (usage_of (aggregate_step Date_getTime t f) ty) =
  if FileType_eqb (f_type f) ty then
    if (negb (truthy_string (latestDate (usage_of t ty))) ||
        date_gt Date_getTime (f_updatedAt f) (latestDate (usage_of t ty)))%bool
    then f_updatedAt f else latestDate (usage_of t ty)
  else latestDate (usage_of t ty).
Proof.
  unfold aggregate_step.
  destruct (FileType_eqb (f_type f) ty) eqn:E.
  - apply FileType_eqb_eq in E. subst ty.
    rewrite !usage_of_add_used, !usage_of_set_same. cbn [latestDate].
    destruct (negb _ || _)%bool;
      rewrite ?usage_of_set_same, ?usage_of_add_used, ?usage_of_set_same;
      reflexivity.
  - assert (Hne : f_type f <> ty).
    { intros H. apply FileType_eqb_eq in H. congruence. }
    destruct (negb _ || _)%bool;
      rewrite ?(usage_of_set_other _ _ _ _ Hne), ?usage_of_add_used,
              ?(usage_of_set_other _ _ _ _ Hne); reflexivity.
Qed.

Lemma aggregate_snoc (l : list FileDoc) (x : FileDoc) :
  aggregate Date_getTime (l ++ [x]) =
  aggregate_step Date_getTime (aggregate Date_getTime l) x.
Proof. unfold aggregate. now rewrite fold_left_app. Qed.

Lemma sum_sizes_nonneg (files : list FileDoc) :
  Forall (fun f => 0 <= f_size f) files -> 0 <= sum_sizes files.
Proof.
  induction 1 as [|f l Hf _ IH]; cbn [sum_sizes]; lia.
Qed.

Lemma sum_sizes_of_type_le (files : list FileDoc) (ty : FileType) :
  Forall (fun f => 0 <= f_size f) files ->
  0 <= sum_sizes (of_type ty files) <= sum_sizes files.
Proof.
  unfold of_type.
  induction 1 as [|f l Hf _ IH]; cbn [filter sum_sizes]; [lia|].
  destruct (FileType_eqb (f_type f) ty); cbn [sum_sizes]; lia.
Qed.

(** A list of safe sizes stays one without its last file. *)
Lemma safe_sizes_snoc (l : list FileDoc) (x : FileDoc) :
  safe_sizes (l ++ [x]) ->
  safe_sizes l /\ 0 <= f_size x /\
  sum_sizes l + f_size x <= MAX_SAFE_INTEGER.
Proof.
  intros [Hpos Hsum]. apply Forall_app in Hpos. destruct Hpos as [Hl Hx].
  apply Forall_inv in Hx. rewrite sum_sizes_app in Hsum.
  cbn [sum_sizes] in Hsum. pose proof (sum_sizes_nonneg l Hl).
  repeat split; try assumption; lia.
Qed.

(** No sum of the fold leaves the safe range, so none is rounded. *)
Lemma aggregate_used (files : list FileDoc) :
  safe_sizes files ->
  used (aggregate Date_getTime files) = sum_sizes files.
Proof.
  induction files as [|x l IH] using rev_ind; intros Hsafe; [reflexivity|].
  apply safe_sizes_snoc in Hsafe. destruct Hsafe as [Hl [Hx Hsum]].
  rewrite aggregate_snoc, sum_sizes_app.
  rewrite (proj1 (aggregate_step_used (aggregate Date_getTime l) x)).
  rewrite (IH Hl). cbn [sum_sizes].
  rewrite number_add_safe; [lia| |exact Hx|exact Hsum].
  apply sum_sizes_nonneg. apply Hl.
Qed.

Lemma aggregate_all (files : list FileDoc) :
  all (aggregate Date_getTime files) = 2 * 1024 * 1024 * 1024.
Proof.
  induction files as [|x l IH] using rev_ind; [reflexivity|].
  rewrite aggregate_snoc.
  rewrite (proj2 (aggregate_step_used (aggregate Date_getTime l) x)).
  exact IH.
Qed.

Lemma aggregate_size (files : list FileDoc) (ty : FileType) :
  safe_sizes files ->
  size (usage_of (aggregate Date_getTime files) ty) =
  sum_sizes (of_type ty files).
Proof.
  induction files as [|x l IH] using rev_ind; intros Hsafe;
    [destruct ty; reflexivity|].
  apply safe_sizes_snoc in Hsafe. destruct Hsafe as [Hl [Hx Hsum]].
  rewrite aggregate_snoc, aggregate_step_size, (IH Hl), of_type_snoc.
  destruct (FileType_eqb (f_type x) ty); [|reflexivity].
  rewrite sum_sizes_app. cbn [sum_sizes].
  pose proof (sum_sizes_of_type_le l ty (proj1 Hl)) as Hle.
  rewrite number_add_safe; lia.
Qed.

(** Every file has one of the five types. *)
Lemma sum_sizes_by_type (files : list FileDoc) :
  sum_sizes files =
  sum_sizes (of_type Image files) + sum_sizes (of_type Document files) +
  sum_sizes (of_type Video files) + sum_sizes (of_type Audio files) +
  sum_sizes (of_type Other files).
Proof.
  induction files as [|f l IH]; [reflexivity|].
  unfold of_type in *. cbn [filter sum_sizes].
  destruct (f_type f); cbn [FileType_eqb sum_sizes]; lia.
Qed.

Lemma not_later_refl (f : FileDoc) : valid_date f -> not_later f f.
Proof.
  intros [_ H]. unfold not_later.
  destruct (Date_getTime (f_updatedAt f)); [lia|congruence].
Qed.

Lemma not_later_trans (f g h : FileDoc) :
  not_later f g -> not_later g h -> not_later f h.
Proof.
  unfold not_later.
  destruct (Date_getTime (f_updatedAt f)), (Date_getTime (f_updatedAt g)),
    (Date_getTime (f_updatedAt h)); try tauto. lia.
Qed.

Lemma aggregate_latest (files : list FileDoc) (ty : FileType) :
  Forall valid_date files ->
  latest_of (of_type ty files)
            (latestDate (usage_of (aggregate Date_getTime files) ty)).
Proof.
  induction files as [|x l IH] using rev_ind; intros Hv.
  - left. split; [reflexivity|destruct ty; reflexivity].
  - apply Forall_app in Hv. destruct Hv as [Hl Hx].
    apply Forall_inv in Hx. specialize (IH Hl).
    rewrite aggregate_snoc, aggregate_step_latest, of_type_snoc.
    destruct (FileType_eqb (f_type x) ty); [|exact IH].
    set (d := latestDate (usage_of (aggregate Date_getTime l) ty)) in *.
    right. destruct IH as [[Hnil Hd] | [f [Hin [Hd Hmax]]]].
    + rewrite Hnil, Hd. cbn [truthy_string negb orb app].
      exists x. split; [now left|]. split; [reflexivity|].
      intros g [<- | []]. now apply not_later_refl.
    + assert (Hvf : valid_date f).
      { rewrite Forall_forall in Hl. apply Hl.
        unfold of_type in Hin. apply filter_In in Hin. tauto. }
      assert (Ht : truthy_string d = true).
      { rewrite Hd. destruct Hvf as [Hne _].
        destruct (f_updatedAt f); [congruence|reflexivity]. }
      rewrite Ht. cbn [negb orb].
      destruct Hvf as [_ Hf]. destruct Hx as [_ Hxd].
      unfold date_gt. rewrite Hd.
      destruct (Date_getTime (f_updatedAt x)) as [tx|] eqn:Ex; [|congruence].
      destruct (Date_getTime (f_updatedAt f)) as [tf|] eqn:Ef; [|congruence].
      assert (Hxx : not_later x x)
        by (unfold not_later; rewrite Ex; lia).
      destruct (Z.ltb_spec tf tx) as [Hlt|Hge].
      * exists x. split; [apply in_or_app; right; now left|].
        split; [reflexivity|].
        intros g Hg. apply in_app_or in Hg. destruct Hg as [Hg | [<- | []]].
        -- apply (not_later_trans g f x); [now apply Hmax|].
           unfold not_later. rewrite Ex, Ef. lia.
        -- exact Hxx.
      * exists f. split; [apply in_or_app; now left|].
        split; [reflexivity|].
        intros g Hg. apply in_app_or in Hg. destruct Hg as [Hg | [<- | []]].
        -- now apply Hmax.
        -- unfold not_later. rewrite Ex, Ef. lia.
Qed.

Lemma getCurrentUser_session (be : Backend) (w w1 : World) (u : UserDoc) :
  UserActions.getCurrentUser be w = (Normal (Some u), w1) ->
  createSessionClient w = (Normal tt, w).
Proof.
  unfold UserActions.getCurrentUser, try_catch, bind, createSessionClient.
  destruct (session_cookie w) as [v|]; [destruct (truthy_string v)|];
    cbn; intros H; try reflexivity; discriminate H.
Qed.

(** C4. With the current user found and the listing of the files they own
    answered, getTotalSpaceUsed returns the fold of that list: used is the
    sum of the sizes of all listed files and the sum of the five per-type
    sizes, each per-type size is the sum over the files of the type, the
    latestDate of a type is the greatest $updatedAt among its files (the
    empty string without files), and all is 2 * 1024 * 1024 * 1024. The
    sizes are byte counts whose total is at most Number.MAX_SAFE_INTEGER,
    where the additions of the code are exact. *)
Theorem getTotalSpaceUsed_aggregates
  (be : Backend) (w w1 : World) (u : UserDoc) (docs : DocumentList FileDoc) :
  UserActions.getCurrentUser be w = (Normal (Some u), w1) ->
  listFiles be [Query_equal "owner" [u_id u]] = Normal docs ->
  Forall valid_date (documents docs) ->
  safe_sizes (documents docs) ->
  exists t w2,
    getTotalSpaceUsed be Date_getTime w = (Normal t, w2) /\
    used t = sum_sizes (documents docs) /\
    used t = size (image t) + size (document t) + size (video t) +
             size (audio t) + size (other t) /\
    (forall ty, size (usage_of t ty) = sum_sizes (of_type ty (documents docs))) /\
    (forall ty, latest_of (of_type ty (documents docs))
                          (latestDate (usage_of t ty))) /\
    all t = 2 * 1024 * 1024 * 1024.
Proof.
  intros Hu Hl Hv Hsafe.
  pose proof (getCurrentUser_session be w w1 u Hu) as Hs.
  exists (aggregate Date_getTime (documents docs)). eexists. split.
  - unfold getTotalSpaceUsed, try_catch, bind. rewrite Hs, Hu.
    unfold listFileDocuments, sdk. rewrite Hl. reflexivity.
  - pose proof (aggregate_used (documents docs) Hsafe) as Hused.
    split; [exact Hused|]. split; [|split; [|split]].
    + rewrite Hused, (sum_sizes_by_type (documents docs)).
      rewrite <- !(fun ty => aggregate_size (documents docs) ty Hsafe).
      reflexivity.
    + intros ty. now apply aggregate_size.
    + intros ty. now apply aggregate_latest.
    + apply aggregate_all.
Qed.

(** Beyond the safe range the additions round, as those of the code do:
    three files of 2^53 - 1, 2 and 1 bytes give 2^53 for used, two less than
    the sum of the sizes. *)
Example aggregate_rounds :
  used (aggregate Date_getTime
          [ mkFile "d1" Image "a.png" MAX_SAFE_INTEGER "u1" [] "blob1" "t";
            mkFile "d2" Image "b.png" 2 "u1" [] "blob2" "t";
            mkFile "d3" Other "c" 1 "u1" [] "blob3" "t" ]) = 2 ^ 53.
Proof.
  unfold aggregate. cbn [fold_left].
  rewrite !(proj1 (aggregate_step_used _ _)). reflexivity.
Qed.

End Dates.

Lemma getTotalSpaceUsed_aggregates_witness :
  exists t w2,
    getTotalSpaceUsed Samples.backend Samples.Date_getTime Samples.signed_in =
      (Normal t, w2) /\
    used t = 400 /\
    latestDate (image t) = "2024-03-01T00:00:00.000+00:00"%string.
Proof.
  destruct (getTotalSpaceUsed_aggregates Samples.Date_getTime Samples.backend
              Samples.signed_in
              (snd (UserActions.getCurrentUser Samples.backend Samples.signed_in))
              Samples.ada
              (mkList 3 [Samples.photo; Samples.report; Samples.scan]))
    as [t [w2 [Hrun [Hused _]]]].
  - reflexivity.
  - reflexivity.
  - repeat constructor; discriminate.
  - split; [repeat constructor; discriminate|discriminate].
  - exists t, w2. split; [exact Hrun|]. split; [exact Hused|].
    injection Hrun as <- _. reflexivity.
Defined.

End UsageFacts.

(* ================================================================== *)
(** * uploadFile *)
(* ================================================================== *)

Module UploadFacts.
Import Js JsFacts Server FileActions Uploads.
Local Open Scope list_scope.

Lemma filter_not_In (id : string) (ids : list string) :
  ~ In id (filter (fun i => negb (String.eqb i id)) ids).
Proof.
  intros H. apply filter_In in H. destruct H as [_ H].
  now rewrite String.eqb_refl in H.
Qed.

(** C3, amended. In uploadFile, when the blob is stored and the creation of
    its metadata document fails, the only further call of the backend is one
    deletion of that blob (no retry, no other recovery, no revalidation) and
    the action throws: if the deletion succeeds the blob has left the bucket
    and the error of the creation is logged and rethrown; if the deletion
    fails as well (the rollback is best effort) the blob stays and the error
    of the deletion is logged and thrown in place of that of the
    creation. *)
Theorem uploadFile_rollback
  (be : Backend) (env : Utils.Env) (props : UploadFileProps) (w : World)
  (bucketFile : BucketFile) (error : exn) :
  createFile be (file props) = Normal bucketFile ->
  createFileDocument be (fileDocument_of env props bucketFile) = Throw error ->
  let result := uploadFile be env props w in
  let w' := snd result in
  trace w' = trace w ++
    [ mkEvent (storage_createFile (file props)) None;
      mkEvent (databases_createDocument filesCollection
                 (fileDocument_of env props bucketFile)) (Some error);
      mkEvent (storage_deleteFile (b_id bucketFile))
              match Server.deleteFile be (b_id bucketFile) with
              | Normal _ => None
              | Throw e => Some e
              end ] /\
  revalidated w' = revalidated w /\
  (exists thrown, fst result = Throw thrown) /\
  (forall u, Server.deleteFile be (b_id bucketFile) = Normal u ->
     fst result = Throw error /\
     ~ In (b_id bucketFile) (bucket w') /\
     console w' = console w ++
       [ LogError error (Some "Failed to create file document"%string);
         LogError error (Some "Failed to upload file"%string) ]) /\
  (forall error', Server.deleteFile be (b_id bucketFile) = Throw error' ->
     fst result = Throw error' /\
     bucket w' = bucket w ++ [b_id bucketFile] /\
     console w' = console w ++
       [ LogError error' (Some "Failed to upload file"%string) ]).
Proof.
  intros Hc Hd result w'. subst w' result.
  unfold uploadFile, storage_createFile_, storage_deleteFile_,
    createFileDocument_, handleError, try_catch, bind, sdk, set_bucket,
    console_log, throw, ret.
  unfold fileDocument_of in *.
  rewrite Hc. cbn -[Utils.getFileType Utils.constructFileUrl].
  rewrite Hd. cbn -[Utils.getFileType Utils.constructFileUrl].
  destruct (Server.deleteFile be (b_id bucketFile)) as [[]|error'];
    cbn -[Utils.getFileType Utils.constructFileUrl];
    rewrite <- !app_assoc; cbn [app].
  - split; [reflexivity|]. split; [reflexivity|].
    split; [now eexists|]. split.
    + intros _ _. split; [reflexivity|]. split; [apply filter_not_In|].
      reflexivity.
    + intros e H. discriminate H.
  - split; [reflexivity|]. split; [reflexivity|].
    split; [now eexists|]. split.
    + intros u H. discriminate H.
    + intros e H. injection H as <-. repeat split.
Qed.

Lemma uploadFile_rollback_witness :
  fst (uploadFile Samples.backend_document_fails Samples.env
         (mkUpload Samples.notes "u1" "acc1" "/documents") Samples.signed_in) =
  Throw (AppwriteException "document_invalid_structure") /\
  bucket (snd (uploadFile Samples.backend_document_fails Samples.env
                 (mkUpload Samples.notes "u1" "acc1" "/documents")
                 Samples.signed_in)) = [].
Proof.
  destruct (uploadFile_rollback Samples.backend_document_fails Samples.env
              (mkUpload Samples.notes "u1" "acc1" "/documents")
              Samples.signed_in
              (mkBucketFile "blob9" "notes.txt" 2048)
              (AppwriteException "document_invalid_structure")
              eq_refl eq_refl)
    as [_ [_ [_ [Hok _]]]].
  destruct (Hok tt eq_refl) as [Hthrown _].
  split; [exact Hthrown|reflexivity].
Defined.

(** C3 does not hold when the rollback fails. The blob is stored, the
    creation of the document is refused and so is the deletion of the blob:
    the blob is still in the bucket, and the error thrown and logged is the
    one of the deletion; the error of the creation is not rethrown and is
    not on the console. *)
Lemma uploadFile_rollback_fails :
  let props := mkUpload Samples.notes "u1" "acc1" "/documents" in
  let stored := mkBucketFile "blob9" "notes.txt" 2048 in
  let result :=
    uploadFile Samples.backend_rollback_fails Samples.env props
               Samples.signed_in in
  createFile Samples.backend_rollback_fails (file props) = Normal stored /\
  createFileDocument Samples.backend_rollback_fails
    (fileDocument_of Samples.env props stored) =
    Throw (AppwriteException "document_invalid_structure") /\
  In (b_id stored) (bucket (snd result)) /\
  fst result <> Throw (AppwriteException "document_invalid_structure") /\
  fst result = Throw (AppwriteException "storage_file_not_found") /\
  console (snd result) =
    [ LogError (AppwriteException "storage_file_not_found")
               (Some "Failed to upload file"%string) ].
Proof.
  repeat split; try reflexivity.
  - left. reflexivity.
  - discriminate.
Qed.

End UploadFacts.

(* ================================================================== *)
(** * FileUploader: onDrop *)
(* ================================================================== *)

Module UploaderFacts.
Import Js JsFacts Server Uploader.
Local Open Scope list_scope.

Section OnDrop.
Variables ownerId accountId path : string.
Variable uploadFile_result :
  FileActions.UploadFileProps -> completion (option FileDoc).

Local Abbreviation props_of := (Uploader.props_of ownerId accountId path).
Local Abbreviation effect_of := (Uploader.effect_of ownerId accountId path).
Local Abbreviation start := (Uploader.start ownerId accountId path).
Local Abbreviation settle :=
  (Uploader.settle ownerId accountId path uploadFile_result).
Local Abbreviation onDrop :=
  (Uploader.onDrop ownerId accountId path uploadFile_result).

Lemma In_without (file g : File) (l : list File) :
  In g (without file l) <-> In g l /\ file_name g <> file_name file.
Proof.
  unfold without. rewrite filter_In. split; intros [H1 H2]; split; try exact H1.
  - intros E. rewrite E, String.eqb_refl in H2. discriminate H2.
  - apply negb_true_iff. now apply String.eqb_neq.
Qed.

Lemma fold_start (l : list File) (st : State) :
  effects (fold_left start l st) = effects st ++ map effect_of l /\
  (forall g, In g (files (fold_left start l st)) ->
     In g (files st) /\
     forall f, In f l -> MAX_FILE_SIZE < file_size f ->
               file_name g <> file_name f).
Proof.
  revert st. induction l as [|a l IH]; intros st; cbn [fold_left map].
  - rewrite app_nil_r. split; [reflexivity|]. intros g Hg.
    split; [exact Hg|]. intros f [].
  - destruct (IH (start st a)) as [He Hf]. split.
    + rewrite He. unfold Uploader.start, Uploader.effect_of.
      destruct (MAX_FILE_SIZE <? file_size a); cbn [effects];
        now rewrite <- app_assoc.
    + intros g Hg. destruct (Hf g Hg) as [Hin Hl].
      unfold Uploader.start in Hin.
      destruct (Z.ltb_spec MAX_FILE_SIZE (file_size a)) as [Hbig|Hsmall];
        cbn [files] in Hin.
      * apply In_without in Hin. destruct Hin as [Hin Hname].
        split; [exact Hin|]. intros f [<- | Hfl] Hsz;
          [exact Hname|now apply Hl].
      * split; [exact Hin|]. intros f [<- | Hfl] Hsz; [lia|now apply Hl].
Qed.

Lemma fold_settle (l : list File) (st : State) :
  effects (fold_left settle l st) = effects st /\
  (forall g, In g (files (fold_left settle l st)) -> In g (files st)).
Proof.
  revert st. induction l as [|a l IH]; intros st; cbn [fold_left].
  - split; [reflexivity|tauto].
  - destruct (IH (settle st a)) as [He Hf].
    assert (Hs : effects (settle st a) = effects st /\
                 forall g, In g (files (settle st a)) -> In g (files st)).
    { unfold Uploader.settle.
      destruct (MAX_FILE_SIZE <? file_size a); [split; [reflexivity|tauto]|].
      destruct (uploadFile_result _) as [[d|]|e]; cbn [effects files];
        split; try reflexivity; try tauto.
      intros g Hg. now apply In_without in Hg. }
    destruct Hs as [Hse Hsf]. split; [now rewrite He|].
    intros g Hg. apply Hsf, Hf, Hg.
Qed.

(** C9. onDrop calls uploadFile only for files of at most MAX_FILE_SIZE
    (50 * 1024 * 1024) bytes: for an accepted file above the limit there is
    no call of uploadFile, an error toast is issued for it, and it is not in
    the list of pending files afterwards. *)
Theorem onDrop_rejects_large (acceptedFiles : list File) (st : State) :
  let st' := snd (onDrop acceptedFiles st) in
  MAX_FILE_SIZE = 50 * 1024 * 1024 /\
  exists new,
    effects st' = effects st ++ new /\
    (forall props, In (uploadFile props) new ->
       file_size (FileActions.file props) <= MAX_FILE_SIZE) /\
    (forall file, In file acceptedFiles ->
       MAX_FILE_SIZE < file_size file ->
       (forall props, In (uploadFile props) new ->
          FileActions.file props <> file) /\
       In (toast (mkToast (file_name file) "error-toast")) new /\
       ~ In file (files st') /\
       (forall g, In g (files st') -> file_name g <> file_name file)).
Proof.
  intros st'. subst st'. unfold Uploader.onDrop. cbn [snd].
  split; [reflexivity|].
  set (st0 := mkState acceptedFiles (effects st)).
  destruct (fold_start acceptedFiles st0) as [He Hf].
  destruct (fold_settle acceptedFiles (fold_left start acceptedFiles st0))
    as [He' Hf'].
  assert (Hup : forall props, In (uploadFile props) (map effect_of acceptedFiles)
                -> file_size (FileActions.file props) <= MAX_FILE_SIZE).
  { intros props Hin. apply in_map_iff in Hin.
    destruct Hin as [f [Heq _]]. unfold Uploader.effect_of in Heq.
    destruct (Z.ltb_spec MAX_FILE_SIZE (file_size f)); [discriminate Heq|].
    injection Heq as <-. exact H. }
  exists (map effect_of acceptedFiles). split; [now rewrite He', He|].
  split; [exact Hup|].
  intros file Hin Hbig.
  assert (Hnames : forall g,
            In g (files (fold_left settle acceptedFiles
                           (fold_left start acceptedFiles st0))) ->
            file_name g <> file_name file).
  { intros g Hg. apply Hf' in Hg. destruct (Hf g Hg) as [_ Hall].
    now apply Hall. }
  split; [|split; [|split]].
  - intros props Hp E. apply Hup in Hp. rewrite E in Hp. lia.
  - apply in_map_iff. exists file. split; [|exact Hin].
    unfold Uploader.effect_of.
    destruct (Z.ltb_spec MAX_FILE_SIZE (file_size file));
      [reflexivity|lia].
  - intros Hfile. now apply (Hnames file Hfile).
  - exact Hnames.
Qed.

End OnDrop.

Lemma onDrop_rejects_large_witness :
  let st' := snd (Uploader.onDrop "u1" "acc1" "/" (fun _ => Normal None)
                    [Samples.notes; Samples.movie] (mkState [] [])) in
  In (toast (mkToast "movie.mkv" "error-toast")) (effects st') /\
  ~ In Samples.movie (files st').
Proof.
  destruct (onDrop_rejects_large "u1" "acc1" "/" (fun _ => Normal None)
              [Samples.notes; Samples.movie] (mkState [] []))
    as [_ [new [Heff [_ Hlarge]]]].
  destruct (Hlarge Samples.movie) as [_ [Htoast [Hgone _]]].
  - right. now left.
  - reflexivity.
  - cbv zeta. split; [|exact Hgone].
    rewrite Heff. exact Htoast.
Defined.

End UploaderFacts.

(* ================================================================== *)
(** * Errors of the backend in the server actions *)
(* ================================================================== *)

Module ErrorFacts.
Import Js JsFacts Server Actions.
Local Open Scope list_scope.

Ltac unfold_actions :=
  unfold perform, discard,
    UserActions.createAccount, UserActions.signInUser,
    FileActions.getFiles, FileActions.getTotalSpaceUsed,
    FileActions.uploadFile, FileActions.renameFile,
    FileActions.updateFileUsers, FileActions.deleteFile,
    UserActions.sendEmailOTP, UserActions.verifySecret,
    UserActions.getCurrentUser, UserActions.signOutUser,
    UserActions.getUserByEmail, UserActions.handleError,
    FileActions.handleError,
    storage_createFile_, storage_deleteFile_,
    account_createEmailToken_, account_createSession_, account_get_,
    account_deleteSession_, listUserDocuments, listFileDocuments,
    createUserDocument_, createFileDocument_, updateFileDocument,
    deleteFileDocument,
    createSessionClient, parseStringify, redirect, revalidatePath,
    set_cookie, set_bucket, sdk, console_log,
    try_finally, try_catch, bind, throw, ret.

Ltac simpl_run :=
  cbn -[Utils.getFileType Utils.constructFileUrl FileActions.createQueries
        FileActions.aggregate Z.leb Z.ltb].

(** One case split on an answer of the backend or on a test of the code. *)
Ltac step_run :=
  simpl_run;
  match goal with
  | |- context [match ?x with Normal _ => _ | Throw _ => _ end] =>
      destruct x eqn:?
  | |- context [match ?x with Some _ => _ | None => _ end] =>
      destruct x eqn:?
  | |- context [if ?x then _ else _] => destruct x eqn:?
  end.

Ltac solve_suffix :=
  rewrite <- ?app_assoc; cbn [app];
  first [reflexivity | symmetry; apply app_nil_r].

Ltac solve_no_retry :=
  cbn [map ev_call]; repeat constructor; cbn [In]; try tauto;
  intuition discriminate.

Ltac solve_handled :=
  let e := fresh "e" in
  let failed := fresh "failed" in
  let He := fresh "He" in
  let Hf := fresh "Hf" in
  intros e failed He Hf; cbn in He, Hf; try discriminate He;
  injection He as <-; injection Hf as <-; cbn;
  repeat split; reflexivity.

(** C2, amended. No server action issues a call of the backend twice, and
    at most one call fails, except in uploadFile, where the deletion of the
    blob can fail after the creation of the document did. When calls of the
    backend fail, with e the error of the last one: sendEmailOTP,
    verifySecret, signInUser, uploadFile, renameFile, updateFileUsers and
    deleteFile log e through handleError, with the message of the action,
    and rethrow it (signInUser after a refused OTP and uploadFile after a
    refused document logged it once before, in the inner handler), and
    write nothing else; getFiles and getTotalSpaceUsed do the same when
    their listing of the files fails, and when the call failed inside
    getCurrentUser, which wrote e to the console, they log and throw their
    own error for the missing user; getCurrentUser writes e to the console
    and returns normally; signOutUser logs e through handleError and leaves
    by its redirect; createAccount rethrows e, which is on the console only
    when the refused call is the OTP. *)
Theorem server_action_errors
  (be : Backend) (env : Utils.Env) (Date_getTime : string -> option Z)
  (a : server_action) (w : World) :
  let result := perform be env Date_getTime a w in
  exists events logs,
    trace (snd result) = trace w ++ events /\
    console (snd result) = console w ++ logs /\
    NoDup (map ev_call events) /\
    (List.length (failures events) <=
       match a with UploadFile _ => 2 | _ => 1 end)%nat /\
    forall e failed,
      last_failure events = Some e ->
      last_failed_call events = Some failed ->
      match a with
      | SendEmailOTP _ =>
          fst result = Throw e /\
          logs = [LogError e (Some "Failed to send email OTP"%string)]
      | CreateAccount _ _ =>
          fst result = Throw e /\
          logs = match failed with
                 | account_createEmailToken _ =>
                     [LogError e (Some "Failed to send email OTP"%string)]
                 | _ => []
                 end
      | VerifySecret _ _ =>
          fst result = Throw e /\
          logs = [LogError e (Some "Failed to verify OTP"%string)]
      | GetCurrentUser =>
          fst result = Normal tt /\ logs = [LogError e None]
      | SignOutUser =>
          fst result = Throw (NextRedirect "/sign-in") /\
          logs = [LogError e (Some "Failed to sign out user"%string)]
      | SignInUser _ =>
          fst result = Throw e /\
          logs = match failed with
                 | account_createEmailToken _ =>
                     [LogError e (Some "Failed to send email OTP"%string);
                      LogError e (Some "Failed to sign in user"%string)]
                 | _ => [LogError e (Some "Failed to sign in user"%string)]
                 end
      | UploadFile _ =>
          fst result = Throw e /\
          logs = match failed with
                 | databases_createDocument _ _ =>
                     [LogError e (Some "Failed to create file document"%string);
                      LogError e (Some "Failed to upload file"%string)]
                 | _ => [LogError e (Some "Failed to upload file"%string)]
                 end
      | GetFiles _ =>
          if call_of_getCurrentUser failed
          then fst result = Throw (Error "User not found") /\
               logs = [LogError e None;
                       LogError (Error "User not found")
                                (Some "Failed to get files"%string)]
          else fst result = Throw e /\
               logs = [LogError e (Some "Failed to get files"%string)]
      | RenameFile _ =>
          fst result = Throw e /\
          logs = [LogError e (Some "Failed to rename file"%string)]
      | UpdateFileUsers _ =>
          fst result = Throw e /\
          logs = [LogError e (Some "Failed to update file users"%string)]
      | DeleteFile _ =>
          fst result = Throw e /\
          logs = [LogError e (Some "Failed to delete file"%string)]
      | GetTotalSpaceUsed =>
          if call_of_getCurrentUser failed
          then fst result = Throw (Error "User is not authenticated.") /\
               logs = [LogError e None;
                       LogError (Error "User is not authenticated.")
                                (Some "Error calculating total space used"%string)]
          else fst result = Throw e /\
               logs = [LogError e
                         (Some "Error calculating total space used"%string)]
      end.
Proof.
  intros result. subst result.
  destruct a; unfold_actions; repeat step_run; simpl_run.
  all: eexists; eexists.
  all: (split; [solve_suffix|]).
  all: (split; [solve_suffix|]).
  all: (split; [solve_no_retry|]).
  all: (split; [cbn; lia|]).
  all: solve_handled.
Qed.

Lemma server_action_errors_witness :
  fst (perform Samples.backend_document_fails Samples.env Samples.Date_getTime
         (UploadFile (FileActions.mkUpload Samples.notes "u1" "acc1" "/"))
         Samples.signed_in) =
  Throw (AppwriteException "document_invalid_structure").
Proof.
  destruct (server_action_errors Samples.backend_document_fails Samples.env
              Samples.Date_getTime
              (UploadFile (FileActions.mkUpload Samples.notes "u1" "acc1" "/"))
              Samples.signed_in)
    as [events [logs [Htrace [_ [_ [_ Hout]]]]]].
  cbn in Htrace. subst events.
  exact (proj1 (Hout (AppwriteException "document_invalid_structure")
                     (databases_createDocument filesCollection
                        (Uploads.fileDocument_of Samples.env
                           (FileActions.mkUpload Samples.notes "u1" "acc1" "/")
                           (mkBucketFile "blob9" "notes.txt" 2048)))
                     eq_refl eq_refl)).
Defined.

(** C2 does not hold of getCurrentUser: with a session cookie and a backend
    that refuses account.get, the error is raised inside the action and is
    written to the console, and the action returns normally. Two more
    departures: createAccount rethrows the error of its user lookup without
    a log, and signOutUser logs the error of deleteSession and then throws
    the redirect. *)
Lemma getCurrentUser_swallows_error :
  let result :=
    perform Samples.backend_get_fails Samples.env Samples.Date_getTime
            GetCurrentUser Samples.signed_in in
  let created :=
    perform Samples.backend_listUsers_fails Samples.env Samples.Date_getTime
            (CreateAccount "Ada" "ada@example.com") Samples.signed_in in
  let signed_out :=
    perform Samples.backend_deleteSession_fails Samples.env
            Samples.Date_getTime SignOutUser Samples.signed_in in
  (trace (snd result) =
     [ mkEvent account_get
               (Some (AppwriteException "general_unauthorized_scope")) ] /\
   console (snd result) =
     [ LogError (AppwriteException "general_unauthorized_scope") None ] /\
   fst result = Normal tt /\
   fst (UserActions.getCurrentUser Samples.backend_get_fails Samples.signed_in)
     = Normal None) /\
  (fst created = Throw (AppwriteException "general_server_error") /\
   console (snd created) = []) /\
  (fst signed_out = Throw (NextRedirect "/sign-in") /\
   console (snd signed_out) =
     [ LogError (AppwriteException "general_server_error")
                (Some "Failed to sign out user"%string) ]).
Proof. repeat split. Qed.

End ErrorFacts.

(* ================================================================== *)
(** * getFileType across renaming, case and icons *)
(* ================================================================== *)

Module TypeFacts.
Import Js JsFacts Utils UtilsFacts JsMore Icons.
Local Open Scope list_scope.

Lemma lower_char_dot (c : ascii) :
  Ascii.eqb (lower_char c) "." = Ascii.eqb c ".".
Proof. destruct c as [[] [] [] [] [] [] [] []]; reflexivity. Qed.

Lemma lower_char_idem (c : ascii) : lower_char (lower_char c) = lower_char c.
Proof. destruct c as [[] [] [] [] [] [] [] []]; reflexivity. Qed.

Lemma toLowerCase_idem (s : string) :
  toLowerCase (toLowerCase s) = toLowerCase s.
Proof.
  induction s as [|c r IH]; cbn [toLowerCase]; [reflexivity|].
  now rewrite lower_char_idem, IH.
Qed.

Lemma has_dot_lower (s : string) :
  has_char "." (toLowerCase s) = has_char "." s.
Proof.
  induction s as [|c r IH]; cbn [toLowerCase has_char]; [reflexivity|].
  now rewrite lower_char_dot, IH.
Qed.

Lemma split_lower (s : string) :
  split "." (toLowerCase s) = map toLowerCase (split "." s).
Proof.
  induction s as [|c r IH]; cbn [toLowerCase split]; [reflexivity|].
  rewrite lower_char_dot, IH.
  destruct (Ascii.eqb c "."); [reflexivity|].
  destruct (split "." r); reflexivity.
Qed.

Lemma pop_map {A B : Type} (f : A -> B) (l : list A) :
  pop (map f l) = option_map f (pop l).
Proof.
  induction l as [|a tl IH]; [reflexivity|].
  destruct tl as [|b tl']; [reflexivity|]. exact IH.
Qed.

Lemma pop_app {A : Type} (l1 l2 : list A) :
  l2 <> [] -> pop (l1 ++ l2) = pop l2.
Proof.
  intros H. induction l1 as [|a tl IH]; [reflexivity|].
  cbn [app]. destruct (tl ++ l2) eqn:E.
  - apply app_eq_nil in E. destruct E as [_ E]. congruence.
  - exact IH.
Qed.

Lemma split_segments (sep : ascii) (s : string) :
  Forall (fun seg => has_char sep seg = false) (split sep s).
Proof.
  induction s as [|c r IH]; cbn [split].
  - now repeat constructor.
  - destruct (Ascii.eqb c sep) eqn:E; [now constructor|].
    destruct (split sep r) as [|seg segs].
    + repeat constructor. cbn [has_char]. now rewrite E.
    + inversion IH as [|x l Hseg Hsegs]; subst.
      constructor; [|exact Hsegs]. cbn [has_char]. now rewrite E, Hseg.
Qed.

Lemma pop_In {A : Type} (l : list A) (x : A) : pop l = Some x -> In x l.
Proof.
  induction l as [|a tl IH]; [discriminate|].
  destruct tl as [|b tl'].
  - intros H. injection H as <-. now left.
  - intros H. right. now apply IH.
Qed.

Lemma split_after_sep (sep : ascii) (a b : string) :
  exists s0 segs, split sep (a ++ String sep b) = (s0 :: segs) ++ split sep b.
Proof.
  induction a as [|c r [s0 [segs IH]]]; cbn [append split].
  - rewrite Ascii.eqb_refl. now exists EmptyString, [].
  - destruct (Ascii.eqb c sep).
    + exists EmptyString, (s0 :: segs). now rewrite IH.
    + rewrite IH. now exists (String c s0), segs.
Qed.

Lemma pop_split_after_sep (sep : ascii) (a b : string) :
  pop (split sep (a ++ String sep b)) = pop (split sep b).
Proof.
  destruct (split_after_sep sep a b) as [s0 [segs ->]].
  apply pop_app, split_not_nil.
Qed.

Lemma extension_of_lower (fileName : string) :
  extension_of (toLowerCase fileName) = extension_of fileName.
Proof.
  unfold extension_of. rewrite split_lower, pop_map.
  destruct (pop (split "." fileName)); cbn [option_map]; [|reflexivity].
  now rewrite toLowerCase_idem.
Qed.

Lemma getFileType_by_extension (a b : string) :
  extension_of a = extension_of b -> getFileType a = getFileType b.
Proof. unfold getFileType. now intros ->. Qed.

(** The extension getFileType returns is the one it computed. *)
Lemma extension_returned (fileName : string) :
  extension_of fileName = Some (extension (getFileType fileName)).
Proof.
  destruct (getFileType_cases fileName) as [e [He [[-> ->] | [_ ->]]]].
  - exact He.
  - now rewrite classify_extension.
Qed.

Lemma extension_of_shape (fileName e : string) :
  extension_of fileName = Some e ->
  has_char "." e = false /\ toLowerCase e = e.
Proof.
  unfold extension_of. intros H.
  destruct (pop (split "." fileName)) as [x|] eqn:Hp; [|discriminate H].
  injection H as <-. split.
  - rewrite has_dot_lower.
    pose proof (split_segments "." fileName) as Hall.
    rewrite Forall_forall in Hall. apply Hall. now apply pop_In.
  - apply toLowerCase_idem.
Qed.

(** X1. Classification ignores the case of a file name of ASCII
    characters: the name and its lowercase form get the same type and the
    same extension. (Beyond ASCII the mapping of a letter can depend on its
    neighbours, and the extension is lowercased on its own.) *)
Theorem getFileType_ignores_case (fileName : string) :
  ascii_only fileName = true ->
  getFileType (toLowerCase fileName) = getFileType fileName.
Proof. intros _. apply getFileType_by_extension, extension_of_lower. Qed.

Lemma getFileType_ignores_case_witness :
  ascii_only "Report.PDF" = true /\
  getFileType "report.pdf" = getFileType "Report.PDF".
Proof.
  split; [reflexivity|].
  exact (getFileType_ignores_case "Report.PDF" eq_refl).
Defined.

(** X2. Renaming keeps the classification: the name renameFile builds from
    any new base name and the extension getFileType gave the old name is
    classified like the old name. *)
Theorem getFileType_stable_under_rename (fileName newBase : string) :
  getFileType (newBase ++ "." ++ extension (getFileType fileName))%string =
  getFileType fileName.
Proof.
  apply getFileType_by_extension.
  pose proof (extension_returned fileName) as He.
  destruct (extension_of_shape _ _ He) as [Hdot Hlow].
  rewrite He. unfold extension_of. cbn [append].
  rewrite pop_split_after_sep, (split_no_sep _ _ Hdot).
  cbn [pop option_map]. now rewrite Hlow.
Qed.

Ltac solve_icon :=
  cbv zeta; cbn [type extension];
  repeat split; intros;
  first [ discriminate
        | reflexivity
        | vm_compute; tauto
        | match goal with H : _ = icon_other |- _ =>
            vm_compute in H; discriminate H end ].

(** X3. The icon of a classified file agrees with its type: a document gets
    one of the document icons, an image the image icon, a video the video
    icon, an audio file the audio icon; only a file of type other can get
    the icon file-other.svg. *)
Theorem getFileIcon_matches_type (fileName : string) :
  let r := getFileType fileName in
  let icon := getFileIcon (Some (extension r)) (type r) in
  (type r = "document"%string -> In icon document_icons) /\
  (type r = "image"%string -> icon = icon_image) /\
  (type r = "video"%string -> icon = icon_video) /\
  (type r = "audio"%string -> icon = icon_audio) /\
  (icon = icon_other -> type r = "other"%string).
Proof.
  destruct (getFileType_cases fileName) as [e [_ [[_ ->] | [_ ->]]]];
    [solve_icon|].
  unfold classify.
  destruct (includes documentExtensions e) eqn:Hd.
  { apply includes_In in Hd. cbn [documentExtensions In] in Hd.
    repeat (destruct Hd as [<- | Hd]; [solve_icon|]). destruct Hd. }
  destruct (includes imageExtensions e) eqn:Hi.
  { apply includes_In in Hi. cbn [imageExtensions In] in Hi.
    repeat (destruct Hi as [<- | Hi]; [solve_icon|]). destruct Hi. }
  destruct (includes videoExtensions e) eqn:Hv.
  { apply includes_In in Hv. cbn [videoExtensions In] in Hv.
    repeat (destruct Hv as [<- | Hv]; [solve_icon|]). destruct Hv. }
  destruct (includes audioExtensions e) eqn:Ha.
  { apply includes_In in Ha. cbn [audioExtensions In] in Ha.
    repeat (destruct Ha as [<- | Ha]; [solve_icon|]). destruct Ha. }
  solve_icon.
Qed.

Lemma getFileIcon_matches_type_witness :
  getFileIcon (Some (extension (getFileType "Clip.MOV")))
              (type (getFileType "Clip.MOV")) = icon_video.
Proof.
  destruct (getFileIcon_matches_type "Clip.MOV") as [_ [_ [Hvideo _]]].
  apply Hvideo. reflexivity.
Defined.

End TypeFacts.

(* ================================================================== *)
(** * Bounds of the formatted sizes and of the percentage *)
(* ================================================================== *)

Module BoundFacts.
Import Js JsFacts Utils Sizes SizeFacts.

Lemma fixed_integer_inject (k : Z) (f : nat) :
  fixed_integer (inject_Z k) f = k * 10 ^ Z.of_nat f.
Proof.
  unfold fixed_integer. set (P := 10 ^ Z.of_nat f).
  unfold Qfloor, Qplus, Qmult, inject_Z. cbn [Qnum Qden].
  change (Z.pos (1 * 1 * 2)) with 2. change (Z.pos (1 * 1)) with 1.
  change (Z.pos 2) with 2.
  symmetry. apply Z.div_unique with 1; lia.
Qed.

Lemma fixed_integer_upper (x : Q) (k : Z) (f : nat) :
  (x <= inject_Z k)%Q -> fixed_integer x f <= k * 10 ^ Z.of_nat f.
Proof.
  intros H. rewrite <- fixed_integer_inject. now apply fixed_integer_mono.
Qed.

Lemma fixed_integer_lower (x : Q) (k : Z) (f : nat) :
  (inject_Z k <= x)%Q -> k * 10 ^ Z.of_nat f <= fixed_integer x f.
Proof.
  intros H. rewrite <- fixed_integer_inject. now apply fixed_integer_mono.
Qed.

Lemma pow10_pos (f : nat) : 0 < 10 ^ Z.of_nat f.
Proof. apply Z.pow_pos_nonneg; lia. Qed.

Lemma scaled_le (n k : Z) (f : nat) :
  n <= k * 10 ^ Z.of_nat f ->
  (Qmake n (Z.to_pos (10 ^ Z.of_nat f)) <= inject_Z k)%Q.
Proof.
  intros H. unfold Qle, inject_Z. cbn [Qnum Qden].
  rewrite Z2Pos.id by apply pow10_pos. lia.
Qed.

Lemma scaled_ge (n k : Z) (f : nat) :
  k * 10 ^ Z.of_nat f <= n ->
  (inject_Z k <= Qmake n (Z.to_pos (10 ^ Z.of_nat f)))%Q.
Proof.
  intros H. unfold Qle, inject_Z. cbn [Qnum Qden].
  rewrite Z2Pos.id by apply pow10_pos. lia.
Qed.

Lemma quotient_between (s c lo hi : Z) :
  0 < c -> lo * c <= s -> s <= hi * c ->
  (inject_Z lo <= inject_Z s / inject_Z c)%Q /\
  (inject_Z s / inject_Z c <= inject_Z hi)%Q.
Proof.
  intros Hc Hlo Hhi.
  assert (Hq : (inject_Z s / inject_Z c == Qmake s (Z.to_pos c))%Q).
  { destruct c as [|p|p]; try lia. unfold Qeq, Qdiv, Qmult, Qinv, inject_Z.
    cbn [Qnum Qden Z.to_pos]. lia. }
  rewrite Hq. unfold Qle, inject_Z. cbn [Qnum Qden].
  rewrite Z2Pos.id by exact Hc. lia.
Qed.

(** X4. The number convertFileSize prints stays within its unit: below 1024
    in Bytes, from 1 to 1024 in KB and MB (1024.0 KB is reached just below
    one MB), at least 1 in GB. *)
Theorem convertFileSize_numeric_bounds (s : Z) (digits : option Z) :
  0 <= s <= MAX_SAFE_INTEGER -> valid_digits digits ->
  exists r q u,
    convertFileSize s digits = Normal r /\
    read_size r = Some (q, u) /\
    (u = Bytes -> (0 <= q)%Q /\ (q < inject_Z 1024)%Q) /\
    (u = KB \/ u = MB -> (inject_Z 1 <= q)%Q /\ (q <= inject_Z 1024)%Q) /\
    (u = GB -> (inject_Z 1 <= q)%Q).
Proof.
  intros [Hs _] Hv.
  destruct (convertFileSize_read s digits Hs Hv) as [r [Hr Hread]].
  exists r, (size_value s digits), (unit_for s).
  split; [exact Hr|]. split; [exact Hread|].
  destruct (unit_for_spec s) as [U1 [U2 [U3 U4]]].
  unfold size_value.
  destruct (unit_for s) eqn:Hu; cbn [unit_bytes].
  - assert (s < 1024) by (now apply U1).
    split; [intros _|split; [intros [H'|H']; discriminate H'|discriminate]].
    split; [change 0%Q with (inject_Z 0); rewrite <- Zle_Qle; lia|].
    rewrite <- Zlt_Qlt. lia.
  - assert (1024 <= s < 1024 ^ 2) by (now apply U2).
    destruct (quotient_between s 1024 1 1024) as [Hlo Hhi]; try lia.
    split; [discriminate|]. split; [intros _|discriminate].
    split; [apply scaled_ge, fixed_integer_lower, Hlo
           |apply scaled_le, fixed_integer_upper, Hhi].
  - assert (1024 ^ 2 <= s < 1024 ^ 3) by (now apply U3).
    destruct (quotient_between s (1024 * 1024) 1 1024) as [Hlo Hhi]; try lia.
    split; [discriminate|]. split; [intros _|discriminate].
    split; [apply scaled_ge, fixed_integer_lower, Hlo
           |apply scaled_le, fixed_integer_upper, Hhi].
  - assert (1024 ^ 3 <= s) by (now apply U4).
    destruct (quotient_between s (1024 * 1024 * 1024) 1 s) as [Hlo _];
      try lia.
    split; [discriminate|]. split; [intros [H'|H']; discriminate H'|intros _].
    apply scaled_ge, fixed_integer_lower, Hlo.
Qed.

Lemma convertFileSize_numeric_bounds_witness :
  exists r, convertFileSize 1048575 None = Normal r /\
            read_size r = Some (Qmake 10240 10, KB).
Proof.
  destruct (convertFileSize_numeric_bounds 1048575 None) as [r [q [u [Hr H]]]].
  - unfold MAX_SAFE_INTEGER. lia.
  - exact I.
  - exists r. split; [exact Hr|].
    injection Hr as <-. reflexivity.
Defined.

(** X5. calculatePercentage is monotone in the size and never negative,
    and within the quota of 2 GB it is at most 100. *)
Theorem calculatePercentage_within_quota (a b : Z) :
  0 <= a -> a <= b ->
  exists qa qb,
    calculatePercentage a = Normal (Some qa) /\
    calculatePercentage b = Normal (Some qb) /\
    (0 <= qa)%Q /\ (qa <= qb)%Q /\
    (b <= 2 * 1024 * 1024 * 1024 -> (qb <= inject_Z 100)%Q).
Proof.
  intros Ha Hab.
  rewrite (calculatePercentage_value a Ha).
  rewrite (calculatePercentage_value b ltac:(lia)).
  eexists; eexists. split; [reflexivity|]. split; [reflexivity|].
  set (T := 2 * 1024 * 1024 * 1024).
  assert (Hmono : forall x y, 0 <= x -> x <= y ->
            (inject_Z x / inject_Z T * inject_Z 100 <=
             inject_Z y / inject_Z T * inject_Z 100)%Q).
  { intros x y Hx Hxy. apply Qmult_le_compat_r; [|discriminate].
    apply quotient_mono; [exact Hxy|reflexivity]. }
  split; [|split].
  - unfold Qle. cbn [Qnum Qden]. rewrite Z.mul_1_r.
    change (0 * 100) with 0. apply fixed_integer_nonneg.
    apply Qmult_le_0_compat; [apply quotient_nonneg; [lia|reflexivity]|].
    discriminate.
  - unfold Qle. cbn [Qnum Qden].
    apply Z.mul_le_mono_nonneg_r; [lia|].
    apply fixed_integer_mono, Hmono; lia.
  - intros Hb. change 100%positive with (Z.to_pos (10 ^ Z.of_nat 2)).
    apply scaled_le, fixed_integer_upper.
    apply (Qle_trans _ (inject_Z T / inject_Z T * inject_Z 100)).
    + apply Hmono; lia.
    + discriminate.
Qed.

Lemma calculatePercentage_within_quota_witness :
  exists qa qb,
    calculatePercentage 1073741824 = Normal (Some qa) /\
    calculatePercentage 2147483648 = Normal (Some qb) /\
    (qa <= qb)%Q /\ (qb <= inject_Z 100)%Q.
Proof.
  destruct (calculatePercentage_within_quota 1073741824 2147483648)
    as [qa [qb [Ha [Hb [_ [Hle Hcap]]]]]]; try lia.
  exists qa, qb. repeat split; try assumption. apply Hcap. lia.
Defined.

End BoundFacts.

(* ================================================================== *)
(** * The usage summary of the dashboard and the pages of the types *)
(* ================================================================== *)

Module SummaryFacts.
Import Js JsFacts Utils UtilsFacts JsMore Server FileActions Usage UsageFacts
       Summary.
Local Open Scope list_scope.

Lemma string_gtb_irrefl (a : string) : string_gtb a a = false.
Proof.
  induction a as [|c r IH]; cbn [string_gtb]; [reflexivity|].
  now rewrite Nat.ltb_irrefl.
Qed.

Lemma string_gtb_asym (a b : string) :
  string_gtb a b = true -> string_gtb b a = false.
Proof.
  revert b. induction a as [|c r IH]; intros [|d r'] H; cbn [string_gtb] in *;
    try reflexivity; try discriminate H.
  destruct (Nat.ltb_spec (nat_of_ascii d) (nat_of_ascii c)) as [H1|H1];
    destruct (Nat.ltb_spec (nat_of_ascii c) (nat_of_ascii d)) as [H2|H2];
    try lia; try reflexivity; try discriminate H.
  now apply IH.
Qed.

Lemma string_gtb_empty (a : string) :
  string_gtb a EmptyString = truthy_string a.
Proof. destruct a; reflexivity. Qed.

Lemma sum_one_type (ty : FileType) (files : list FileDoc) :
  sum_sizes (filter (fun f => existsb (FileType_eqb (f_type f)) [ty]) files) =
  sum_sizes (of_type ty files).
Proof.
  unfold of_type. f_equal. apply filter_ext. intros f.
  cbn [existsb]. apply orb_false_r.
Qed.

Lemma sum_two_types (files : list FileDoc) :
  sum_sizes (filter (fun f => existsb (FileType_eqb (f_type f)) [Video; Audio])
                    files) =
  sum_sizes (of_type Video files) + sum_sizes (of_type Audio files).
Proof.
  rewrite (filter_ext _ (fun f => FileType_eqb (f_type f) Video ||
                                  FileType_eqb (f_type f) Audio)%bool)
    by (intros f; cbn [existsb]; now rewrite orb_false_r).
  unfold of_type. induction files as [|f l IH]; [reflexivity|].
  cbn [filter].
  destruct (f_type f); cbn [FileType_eqb orb sum_sizes]; lia.
Qed.

Section Dates.
Variable Date_getTime : string -> option Z.

(** X6. The four cards of the dashboard partition the usage: their sizes
    add up to the used space, which is the sum of the sizes of the files,
    and the size on a card is the sum over the files whose type the page
    behind the card lists (getFileTypesParams of its url). The sizes are
    byte counts whose total is at most Number.MAX_SAFE_INTEGER, where the
    additions of the code are exact. *)
Theorem usage_summary_sizes (files : list FileDoc) :
  safe_sizes files ->
  let t := aggregate Date_getTime files in
  let cards := getUsageSummary t in
  map url cards = ["/documents"; "/images"; "/media"; "/others"]%string /\
  sum_items cards = used t /\
  sum_items cards = sum_sizes files /\
  Forall (fun c => item_size c = sum_sizes (filter (listed_on (url c)) files))
         cards.
Proof.
  intros Hsafe t cards. subst t cards.
  pose proof (aggregate_used Date_getTime files Hsafe) as Hused.
  pose proof (fun ty => aggregate_size Date_getTime files ty Hsafe) as Hsize.
  pose proof (fun ty => sum_sizes_of_type_le files ty (proj1 Hsafe)) as Hle.
  pose proof (sum_sizes_by_type files) as Hparts.
  assert (Hmedia :
            number_add (size (video (aggregate Date_getTime files)))
                       (size (audio (aggregate Date_getTime files))) =
            sum_sizes (of_type Video files) + sum_sizes (of_type Audio files)).
  { pose proof (Hsize Video) as Hv. pose proof (Hsize Audio) as Ha.
    cbn [usage_of] in Hv, Ha. rewrite Hv, Ha.
    pose proof (Hle Image). pose proof (Hle Document). pose proof (Hle Other).
    pose proof (Hle Video). pose proof (Hle Audio).
    destruct Hsafe as [_ Hs]. apply number_add_safe; lia. }
  assert (Hsum : sum_items (getUsageSummary (aggregate Date_getTime files)) =
                 sum_sizes files).
  { cbn [getUsageSummary sum_items item_size]. rewrite Hmedia, Hparts.
    rewrite <- (Hsize Image), <- (Hsize Document), <- (Hsize Video),
            <- (Hsize Audio), <- (Hsize Other).
    cbn [usage_of]. lia. }
  split; [reflexivity|]. split; [now rewrite Hused|]. split; [exact Hsum|].
  unfold getUsageSummary. repeat constructor; cbn [item_size url].
  - change (listed_on "/documents") with
      (fun f => existsb (FileType_eqb (f_type f)) [Document]).
    rewrite sum_one_type, <- Hsize. reflexivity.
  - change (listed_on "/images") with
      (fun f => existsb (FileType_eqb (f_type f)) [Image]).
    rewrite sum_one_type, <- Hsize. reflexivity.
  - change (listed_on "/media") with
      (fun f => existsb (FileType_eqb (f_type f)) [Video; Audio]).
    rewrite sum_two_types. exact Hmedia.
  - change (listed_on "/others") with
      (fun f => existsb (FileType_eqb (f_type f)) [Other]).
    rewrite sum_one_type, <- Hsize. reflexivity.
Qed.

End Dates.

Lemma usage_summary_sizes_witness :
  safe_sizes [Samples.photo; Samples.report; Samples.scan] /\
  sum_items (getUsageSummary
               (aggregate Samples.Date_getTime
                          [Samples.photo; Samples.report; Samples.scan])) = 400.
Proof.
  assert (Hsafe : safe_sizes [Samples.photo; Samples.report; Samples.scan])
    by (split; [repeat constructor; discriminate|discriminate]).
  split; [exact Hsafe|].
  exact (proj1 (proj2 (proj2
    (usage_summary_sizes Samples.Date_getTime
       [Samples.photo; Samples.report; Samples.scan] Hsafe)))).
Defined.

(** X7. The date on the Media card is the greater of the video and the
    audio date as strings: it is one of the two, neither is greater, and
    when one of the two types has no date the card shows the other. *)
Theorem usage_summary_media_date (t : TotalSpace) :
  exists documents images media others,
    getUsageSummary t = [documents; images; media; others] /\
    item_latestDate documents = latestDate (document t) /\
    item_latestDate images = latestDate (image t) /\
    item_latestDate others = latestDate (other t) /\
    (item_latestDate media = latestDate (video t) \/
     item_latestDate media = latestDate (audio t)) /\
    string_gtb (latestDate (video t)) (item_latestDate media) = false /\
    string_gtb (latestDate (audio t)) (item_latestDate media) = false /\
    (latestDate (audio t) = EmptyString ->
     item_latestDate media = latestDate (video t)) /\
    (latestDate (video t) = EmptyString ->
     item_latestDate media = latestDate (audio t)).
Proof.
  unfold getUsageSummary. do 4 eexists. split; [reflexivity|].
  cbn [item_latestDate]. repeat split; try reflexivity.
  - destruct (string_gtb (latestDate (video t)) (latestDate (audio t)));
      [now left|now right].
  - destruct (string_gtb (latestDate (video t)) (latestDate (audio t))) eqn:E;
      [apply string_gtb_irrefl|exact E].
  - destruct (string_gtb (latestDate (video t)) (latestDate (audio t))) eqn:E;
      [now apply string_gtb_asym|apply string_gtb_irrefl].
  - intros Ha. rewrite Ha, string_gtb_empty.
    destruct (latestDate (video t)); reflexivity.
  - intros Hv. rewrite Hv. reflexivity.
Qed.

Lemma usage_summary_media_date_witness :
  map item_latestDate
      (getUsageSummary
         (mkTotalSpace (mkUsage 0 EmptyString) (mkUsage 0 EmptyString)
                       (mkUsage 5 "2024-03-01T00:00:00.000+00:00")
                       (mkUsage 0 EmptyString) (mkUsage 0 EmptyString) 5 10)) =
  [EmptyString; EmptyString; "2024-03-01T00:00:00.000+00:00"%string;
   EmptyString].
Proof.
  destruct (usage_summary_media_date
              (mkTotalSpace (mkUsage 0 EmptyString) (mkUsage 0 EmptyString)
                            (mkUsage 5 "2024-03-01T00:00:00.000+00:00")
                            (mkUsage 0 EmptyString) (mkUsage 0 EmptyString)
                            5 10))
    as [d [i [m [o [Heq [Hd [Hi [Ho [_ [_ [_ [Hm _]]]]]]]]]]]].
  rewrite Heq. cbn [map]. rewrite Hd, Hi, Ho, (Hm eq_refl). reflexivity.
Defined.

(** X8. A search result leads to a page that lists its type: for the type
    getFileType gives a file, the route handleClickItem pushes is one of the
    four pages of the summary and getFileTypesParams of that route contains
    the type. *)
Theorem search_route_lists_type (fileName : string) :
  let t := type (getFileType fileName) in
  In t (getFileTypesParams (route_of t)) /\
  In ("/" ++ route_of t)%string
     ["/documents"; "/images"; "/media"; "/others"]%string.
Proof.
  intros t. subst t.
  assert (H : In (type (getFileType fileName)) fileTypes).
  { destruct (getFileType_cases fileName) as [e [_ [[_ ->] | [_ ->]]]].
    - cbn. tauto.
    - apply classify_type_closed. }
  cbn [fileTypes In] in H.
  repeat (destruct H as [<- | H]; [vm_compute; tauto|]). destruct H.
Qed.

End SummaryFacts.

(* ================================================================== *)
(** * Who is signed in: getCurrentUser and its callers *)
(* ================================================================== *)

Module SessionFacts.
Import Js JsFacts Server Actions ErrorFacts.
Local Open Scope list_scope.

Ltac solve_frame :=
  repeat match goal with
         | |- _ /\ _ => split
         | |- _ = _ ++ _ => solve_suffix
         | |- _ = _ => reflexivity
         end.

(** X9. getCurrentUser never throws and touches neither the bucket, the
    cookie nor the cache: it makes at most two calls of the backend; without
    a session cookie it makes none, logs the missing session and returns
    nothing; a user it returns is the first document of a non-empty listing
    for the account the backend reported, with nothing logged. *)
Theorem getCurrentUser_never_throws (be : Backend) (w : World) :
  exists r events logs,
    fst (UserActions.getCurrentUser be w) = Normal r /\
    let w' := snd (UserActions.getCurrentUser be w) in
    trace w' = trace w ++ events /\
    console w' = console w ++ logs /\
    bucket w' = bucket w /\
    session_cookie w' = session_cookie w /\
    revalidated w' = revalidated w /\
    (List.length events <= 2)%nat /\
    (session_cookie w = None \/ session_cookie w = Some EmptyString ->
     events = [] /\ r = None /\
     logs = [LogError (Error "No session") None]) /\
    (forall user, r = Some user ->
       logs = [] /\
       exists account list,
         get be = Normal account /\
         listUsers be [Query_equal "accountId" [account]] = Normal list /\
         0 < total list /\
         hd_error (documents list) = Some user).
Proof.
  unfold_actions; repeat step_run; simpl_run.
  all: eexists; eexists; eexists.
  all: (split; [reflexivity|]).
  all: (split; [solve_suffix|]).
  all: (split; [solve_suffix|]).
  all: repeat match goal with |- _ /\ _ => split end.
  all: try reflexivity; try assumption; try (cbn [List.length]; lia).
  all: try (intros [H|H]; try discriminate H; injection H as ->;
            cbn in *; discriminate).
  all: try (intros [H|H]; discriminate H).
  all: try solve [intros _; repeat split; reflexivity].
  all: intros user H; try discriminate H; injection H as <-.
  all: split; [reflexivity|].
  all: do 2 eexists; repeat split; try eassumption.
  all: now apply Z.leb_gt.
Qed.

(** X10. The layout of the signed-in pages either renders for the user
    getCurrentUser found or leaves by the redirect to /sign-in; it throws
    nothing else. Without a session cookie it redirects without a call of
    the backend, and a refusal of account.get or of the user listing
    redirects as well. *)
Theorem Layout_only_redirects (be : Backend) (w : World) :
  let result := Pages.Layout be w in
  (fst result = Throw (NextRedirect "/sign-in") \/
   exists user,
     fst result = Normal user /\
     fst (UserActions.getCurrentUser be w) = Normal (Some user)) /\
  (session_cookie w = None ->
   fst result = Throw (NextRedirect "/sign-in") /\
   trace (snd result) = trace w) /\
  (forall e, get be = Throw e ->
     fst result = Throw (NextRedirect "/sign-in")) /\
  (forall account e,
     get be = Normal account ->
     listUsers be [Query_equal "accountId" [account]] = Throw e ->
     fst result = Throw (NextRedirect "/sign-in")).
Proof.
  unfold Pages.Layout. unfold_actions; repeat step_run; simpl_run.
  all: repeat match goal with |- _ /\ _ => split end.
  all: try (left; reflexivity).
  all: try (right; eexists; split; reflexivity).
  all: try (intros H; try discriminate H; split; reflexivity).
  all: try (intros e H; try discriminate H; reflexivity).
  all: intros account e H1 H2; try discriminate H1; try reflexivity.
  all: injection H1 as <-; rewrite H2 in *; discriminate.
Qed.

Lemma getCurrentUser_never_throws_witness :
  fst (UserActions.getCurrentUser Samples.backend MoreSamples.signed_out) =
  Normal None.
Proof.
  destruct (getCurrentUser_never_throws Samples.backend MoreSamples.signed_out)
    as [r [events [logs [Hr H]]]].
  cbv zeta in H. destruct H as [_ [_ [_ [_ [_ [_ [Hnone _]]]]]]].
  destruct (Hnone (or_introl eq_refl)) as [_ [Hnil _]].
  rewrite Hr, Hnil. reflexivity.
Defined.

Lemma Layout_only_redirects_witness :
  fst (Pages.Layout Samples.backend_get_fails Samples.signed_in) =
  Throw (NextRedirect "/sign-in").
Proof.
  destruct (Layout_only_redirects Samples.backend_get_fails Samples.signed_in)
    as [_ [_ [Hget _]]].
  exact (Hget (AppwriteException "general_unauthorized_scope") eq_refl).
Defined.

Lemma createQueries_head currentUser types searchText sort limit :
  exists rest,
    FileActions.createQueries currentUser types searchText sort limit =
    Query_or [ Query_equal "owner" [u_id currentUser];
               Query_contains "users" [u_email currentUser] ] :: rest.
Proof.
  unfold FileActions.createQueries.
  destruct (Nat.ltb 0 (List.length types)),
    (truthy_string searchText), (FileActions.truthy_number limit),
    (truthy_string sort); cbn [app]; eexists; reflexivity.
Qed.

(** X11. The files collection is listed only for the user getCurrentUser
    found: every listing getFiles sends starts with the clause that
    restricts it to files this user owns or that are shared with their
    e-mail, and the one getTotalSpaceUsed sends asks for the files this user
    owns; without a user neither action lists files. *)
Theorem files_listed_for_current_user
  (be : Backend) (Date_getTime : string -> option Z)
  (props : FileActions.GetFilesProps) (w : World) :
  (exists events,
     trace (snd (FileActions.getFiles be props w)) = trace w ++ events /\
     forall queries failure,
       In (mkEvent (databases_listDocuments filesCollection queries) failure)
          events ->
       exists user rest,
         fst (UserActions.getCurrentUser be w) = Normal (Some user) /\
         queries =
         Query_or [ Query_equal "owner" [u_id user];
                    Query_contains "users" [u_email user] ] :: rest) /\
  (exists events,
     trace (snd (FileActions.getTotalSpaceUsed be Date_getTime w)) =
       trace w ++ events /\
     forall queries failure,
       In (mkEvent (databases_listDocuments filesCollection queries) failure)
          events ->
       exists user,
         fst (UserActions.getCurrentUser be w) = Normal (Some user) /\
         queries = [Query_equal "owner" [u_id user]]).
Proof.
  split.
  - unfold_actions; repeat step_run; simpl_run.
    all: eexists; (split; [solve_suffix|]).
    all: intros queries failure Hin; cbn [In] in Hin.
    all: repeat (destruct Hin as [Hin | Hin]; [try discriminate Hin|]);
      try contradiction.
    all: injection Hin as <- _.
    all: match goal with
         | |- context [FileActions.createQueries ?u ?t ?s ?o ?l] =>
             destruct (createQueries_head u t s o l) as [rest ->]
         end.
    all: eexists; eexists; split; reflexivity.
  - unfold_actions; repeat step_run; simpl_run.
    all: eexists; (split; [solve_suffix|]).
    all: intros queries failure Hin; cbn [In] in Hin.
    all: repeat (destruct Hin as [Hin | Hin]; [try discriminate Hin|]);
      try contradiction.
    all: injection Hin as <- _.
    all: eexists; split; reflexivity.
Qed.

Lemma files_listed_for_current_user_witness :
  exists events,
    trace (snd (FileActions.getFiles Samples.backend
                  (FileActions.mkGetFiles None None None None)
                  MoreSamples.signed_out)) = events /\
    forall queries failure,
      ~ In (mkEvent (databases_listDocuments filesCollection queries) failure)
           events.
Proof.
  destruct (files_listed_for_current_user Samples.backend Samples.Date_getTime
              (FileActions.mkGetFiles None None None None)
              MoreSamples.signed_out)
    as [[events [Htrace Hin]] _].
  exists events. split; [exact Htrace|].
  intros queries failure H.
  destruct (Hin queries failure H) as [user [rest [Huser _]]].
  discriminate Huser.
Defined.

End SessionFacts.

(* ================================================================== *)
(** * The queries createQueries builds *)
(* ================================================================== *)

Module FilterFacts.
Import Js JsFacts Server FileActions Queries QueryFacts.
Local Open Scope list_scope.

Ltac solve_clause :=
  cbn [In app];
  repeat split; intros;
  repeat match goal with
         | H : _ /\ _ |- _ => destruct H
         | H : _ \/ _ |- _ => destruct H
         | H : False |- _ => destruct H
         | H : Some _ = Some _ |- _ => injection H as H
         end;
  subst; try discriminate; try congruence; try tauto;
  try (cbn [List.length]; lia); try (cbn [In]; tauto).

(** X12. Each optional filter is in the queries exactly when its argument
    is truthy: the type filter iff types is not empty, the name filter iff
    the search text is not empty, the limit iff it is given and not 0; at
    most five clauses are built; an empty sort adds no ordering, and a sort
    key without a hyphen orders descending by the whole key. *)
Theorem createQueries_filters
  (currentUser : UserDoc) (types : list string) (searchText sort : string)
  (limit : option Z) :
  let queries := createQueries currentUser types searchText sort limit in
  (forall values, In (Query_equal "type" values) queries <->
                  values = types /\ types <> []) /\
  (forall values, In (Query_contains "name" values) queries <->
                  values = [searchText] /\ searchText <> EmptyString) /\
  (forall n, In (Query_limit n) queries <-> limit = Some n /\ n <> 0) /\
  (List.length queries <= 5)%nat /\
  (sort = EmptyString -> filter is_ordering queries = []) /\
  (sort <> EmptyString -> has_char "-" sort = false ->
   exists before, queries = before ++ [Query_orderDesc sort]).
Proof.
  intros queries. subst queries.
  assert (Hlast : sort <> EmptyString -> has_char "-" sort = false ->
            exists before,
              createQueries currentUser types searchText sort limit =
              before ++ [Query_orderDesc sort]).
  { intros Hne Hdash. rewrite createQueries_split
      by (destruct sort; [congruence|reflexivity]).
    rewrite (split_no_sep _ _ Hdash). cbn [tl hd hd_error]. now eexists. }
  unfold createQueries in *.
  destruct types as [|t0 ts0]; destruct searchText as [|c0 s0];
    (destruct limit as [n0|]; [destruct (Z.eqb_spec n0 0) as [Hz|Hz]|]);
    destruct sort as [|c1 s1];
    cbn [List.length Nat.ltb Nat.leb truthy_string truthy_number negb default
         app] in *;
    try (rewrite (proj2 (Z.eqb_eq n0 0) Hz) in * );
    try (rewrite (proj2 (Z.eqb_neq n0 0) Hz) in * );
    cbn [negb app] in *;
    try (destruct (hd_error (tl (split "-" (String c1 s1)))) as [o|];
         [destruct (String.eqb o "asc")|]);
    repeat match goal with
           | |- _ /\ _ => split
           | |- forall _, _ <-> _ => intros ?; split
           end;
    try exact Hlast; solve_clause.
Qed.

Lemma createQueries_filters_witness :
  exists before,
    createQueries Samples.ada [] EmptyString "name" None =
    before ++ [Query_orderDesc "name"].
Proof.
  destruct (createQueries_filters Samples.ada [] EmptyString "name" None)
    as [_ [_ [_ [_ [_ Hdesc]]]]].
  apply Hdesc; [discriminate|reflexivity].
Defined.

(** X13. What the search box and the dashboard ask for: once the user is
    found, getFiles called with a non-empty search text and nothing else
    lists the files the user may see whose name contains the text, newest
    first and without a limit; called with the limit 10 and nothing else it
    lists the ten newest of them. *)
Theorem search_and_dashboard_listing
  (be : Backend) (w w1 : World) (user : UserDoc) (query : string) :
  query <> EmptyString ->
  UserActions.getCurrentUser be w = (Normal (Some user), w1) ->
  let access :=
    Query_or [ Query_equal "owner" [u_id user];
               Query_contains "users" [u_email user] ] in
  (exists failure,
     trace (snd (getFiles be (mkGetFiles (Some []) (Some query) None None) w)) =
     trace w1 ++
     [ mkEvent (databases_listDocuments filesCollection
                  [ access; Query_contains "name" [query];
                    Query_orderDesc "$createdAt" ]) failure ]) /\
  (exists failure,
     trace (snd (getFiles be (mkGetFiles (Some []) None None (Some 10)) w)) =
     trace w1 ++
     [ mkEvent (databases_listDocuments filesCollection
                  [ access; Query_limit 10; Query_orderDesc "$createdAt" ])
               failure ]).
Proof.
  intros Hq Huser access. subst access.
  destruct query as [|c q]; [congruence|].
  split; unfold getFiles, try_catch, bind; rewrite Huser;
    unfold listFileDocuments, sdk, FileActions.handleError, console_log,
      throw, ret, bind;
    cbn [default types searchText sort limit];
    match goal with
    | |- context [createQueries ?u ?t ?s ?o ?l] =>
        let qs := eval cbv in (createQueries u t s o l) in
        change (createQueries u t s o l) with qs
    end;
    match goal with
    | |- context [listFiles be ?q] => destruct (listFiles be q)
    end; eexists; reflexivity.
Qed.

Lemma search_and_dashboard_listing_witness :
  exists failure,
    trace (snd (getFiles Samples.backend
                  (mkGetFiles (Some []) (Some "cat") None None)
                  Samples.signed_in)) =
    [ mkEvent account_get None;
      mkEvent (databases_listDocuments usersCollection
                 [Query_equal "accountId" ["acc1"]]) None;
      mkEvent (databases_listDocuments filesCollection
                 [ Query_or [ Query_equal "owner" ["u1"];
                              Query_contains "users" ["ada@example.com"] ];
                   Query_contains "name" ["cat"];
                   Query_orderDesc "$createdAt" ]) failure ].
Proof.
  destruct (search_and_dashboard_listing Samples.backend Samples.signed_in
              (snd (UserActions.getCurrentUser Samples.backend
                      Samples.signed_in))
              Samples.ada "cat")
    as [[failure Hsearch] _].
  - discriminate.
  - reflexivity.
  - exists failure. exact Hsearch.
Defined.

End FilterFacts.

(* ================================================================== *)
(** * Signing in, signing up and signing out *)
(* ================================================================== *)

Module AuthFacts.
Import Js JsFacts Server Actions ErrorFacts.
Local Open Scope list_scope.

(** Case analysis on the hypotheses a run leaves behind. *)
Ltac open_hyps :=
  repeat match goal with
         | H : _ /\ _ |- _ => destruct H
         | H : _ \/ _ |- _ => destruct H
         | H : False |- _ => destruct H
         | H : In _ (_ :: _) |- _ => cbn [In] in H
         | H : In _ [] |- _ => destruct H
         | H : (if ?b then _ else _) = _ |- _ => destruct b eqn:?
         | H : (_ <? _) = true |- _ => apply Z.ltb_lt in H
         | H : (_ <? _) = false |- _ => apply Z.ltb_ge in H
         | H : (_ <=? _) = true |- _ => apply Z.leb_le in H
         | H : (_ <=? _) = false |- _ => apply Z.leb_gt in H
         | H : Normal _ = Normal _ |- _ => injection H as H; try subst
         | H : Some _ = Some _ |- _ => injection H as H; try subst
         | H : mkEvent _ _ = mkEvent _ _ |- _ => injection H as ? ?; try subst
         | H : Normal _ = Throw _ |- _ => discriminate H
         | H : Throw _ = Normal _ |- _ => discriminate H
         | H : Some _ = None |- _ => discriminate H
         | H : None = Some _ |- _ => discriminate H
         | H : ?x = [], H' : hd_error ?x = Some _ |- _ =>
             rewrite H in H'; discriminate H'
         end.

Ltac close_goal :=
  first
    [ congruence
    | lia
    | reflexivity
    | solve [repeat split; reflexivity]
    | solve [left; repeat split; reflexivity]
    | solve [right; repeat eexists; eauto]
    | solve [repeat split; try reflexivity; repeat eexists; eauto] ].

(** X14. signInUser sends a one-time code only to a registered e-mail: a
    token is requested, for that e-mail, only after the user listing gave a
    user; when the listing is empty the action makes no other call, logs
    nothing and returns the result without account and with the text User
    not found; an account id it returns is the one stored with the user. *)
Theorem signInUser_otp_only_for_users
  (be : Backend) (email : string) (w : World) :
  let result := UserActions.signInUser be email w in
  exists events,
    trace (snd result) = trace w ++ events /\
    (forall e failure,
       In (mkEvent (account_createEmailToken e) failure) events ->
       e = email /\
       exists list user,
         listUsers be [Query_equal "email" [email]] = Normal list /\
         0 < total list /\ hd_error (documents list) = Some user) /\
    (forall list,
       listUsers be [Query_equal "email" [email]] = Normal list ->
       total list <= 0 \/ documents list = [] ->
       fst result = Normal (UserActions.mkSignIn None (Some "User not found"%string)) /\
       console (snd result) = console w /\
       events = [ mkEvent (databases_listDocuments usersCollection
                             [Query_equal "email" [email]]) None ]) /\
    (forall r, fst result = Normal r ->
       r = UserActions.mkSignIn None (Some "User not found"%string) \/
       exists list user session,
         listUsers be [Query_equal "email" [email]] = Normal list /\
         hd_error (documents list) = Some user /\
         createEmailToken be email = Normal session /\
         r = UserActions.mkSignIn (Some (u_accountId user)) None).
Proof.
  unfold_actions; repeat step_run; simpl_run.
  all: eexists; (split; [solve_suffix|]).
  all: repeat match goal with |- _ /\ _ => split end; intros.
  all: open_hyps.
  all: close_goal.
Qed.

Lemma signInUser_otp_only_for_users_witness :
  fst (UserActions.signInUser MoreSamples.backend_no_user "eve@example.com"
         Samples.signed_in) =
  Normal (UserActions.mkSignIn None (Some "User not found"%string)).
Proof.
  destruct (signInUser_otp_only_for_users MoreSamples.backend_no_user
              "eve@example.com" Samples.signed_in)
    as [events [_ [_ [Hnone _]]]].
  destruct (Hnone (mkList 0 []) eq_refl) as [Hr _].
  - left. cbn. lia.
  - exact Hr.
Defined.

(** X15. createAccount creates no second user document: a document is
    created only when the lookup by e-mail found no user and the token has
    a non-empty user id, and it carries the given name and e-mail, the
    placeholder avatar and that id; the account id returned is the user id
    of the token and is not empty. *)
Theorem createAccount_no_duplicate
  (be : Backend) (fullName email : string) (w : World) :
  let result := UserActions.createAccount be fullName email w in
  exists events,
    trace (snd result) = trace w ++ events /\
    (forall data failure,
       In (mkEvent (databases_createDocument usersCollection data) failure)
          events ->
       exists list session,
         listUsers be [Query_equal "email" [email]] = Normal list /\
         (total list <= 0 \/ hd_error (documents list) = None) /\
         createEmailToken be email = Normal session /\
         userId session <> EmptyString /\
         data = UserData fullName email UserActions.avatarPlaceholderUrl
                         (userId session)) /\
    (forall accountId, fst result = Normal accountId ->
       accountId <> EmptyString /\
       exists session,
         createEmailToken be email = Normal session /\
         accountId = userId session).
Proof.
  unfold_actions; repeat step_run; simpl_run.
  all: eexists; (split; [solve_suffix|]).
  all: repeat match goal with |- _ /\ _ => split end; intros.
  all: repeat match goal with
              | H : negb (truthy_string ?s) = false |- _ =>
                  assert (s <> EmptyString)
                    by (intros E; rewrite E in H; discriminate H);
                  clear H
              end.
  all: open_hyps.
  all: try close_goal.
  all: try solve [do 2 eexists; repeat split; eauto; right; assumption].
  all: try solve [do 2 eexists; repeat split; eauto; left; lia].
  all: try solve [split; [assumption|eexists; split; reflexivity]].
Qed.

Lemma createAccount_no_duplicate_witness :
  fst (UserActions.createAccount Samples.backend "Ada" "ada@example.com"
         Samples.signed_in) = Normal "acc1"%string /\
  List.length (trace (snd (UserActions.createAccount Samples.backend "Ada"
                             "ada@example.com" Samples.signed_in))) = 2%nat.
Proof.
  destruct (createAccount_no_duplicate Samples.backend "Ada" "ada@example.com"
              Samples.signed_in) as [events [Htrace [_ Hid]]].
  destruct (Hid "acc1"%string eq_refl) as [_ [session [_ Hacc]]].
  split; reflexivity.
Defined.

(** X16. The session cookie follows the backend: verifySecret sets it to
    the secret of the session when createSession succeeds and leaves it
    alone otherwise; signOutUser without a cookie throws No session and
    calls nothing; with a cookie it always leaves by the redirect to
    /sign-in, and it has removed the cookie exactly when deleteSession
    succeeded. *)
Theorem session_cookie_follows_backend (be : Backend) (w : World) :
  (forall accountId password,
     let result := UserActions.verifySecret be accountId password w in
     (forall session, createSession be accountId password = Normal session ->
        fst result = Normal (s_id session) /\
        session_cookie (snd result) = Some (secret session)) /\
     (forall e, createSession be accountId password = Throw e ->
        fst result = Throw e /\
        session_cookie (snd result) = session_cookie w)) /\
  (let result := UserActions.signOutUser be w in
   (session_cookie w = None \/ session_cookie w = Some EmptyString ->
    fst result = Throw (Error "No session") /\
    trace (snd result) = trace w /\
    session_cookie (snd result) = session_cookie w) /\
   (forall value, session_cookie w = Some value -> value <> EmptyString ->
      fst result = Throw (NextRedirect "/sign-in") /\
      (forall u, deleteSession be "current" = Normal u ->
         session_cookie (snd result) = None) /\
      (forall e, deleteSession be "current" = Throw e ->
         session_cookie (snd result) = Some value))).
Proof.
  split.
  - intros accountId password.
    unfold_actions; repeat step_run; simpl_run.
    all: repeat split; intros; open_hyps; try close_goal.
  - unfold_actions; repeat step_run; simpl_run.
    all: repeat split; intros; open_hyps; try close_goal.
    all: try match goal with
             | H : truthy_string ?s = false, H' : ?s <> EmptyString |- _ =>
                 destruct s; [congruence|discriminate H]
             end.
    all: match goal with
         | H : truthy_string EmptyString = true |- _ => discriminate H
         end.
Qed.

Lemma session_cookie_follows_backend_witness :
  fst (UserActions.signOutUser Samples.backend_deleteSession_fails
         Samples.signed_in) = Throw (NextRedirect "/sign-in") /\
  session_cookie (snd (UserActions.signOutUser
                         Samples.backend_deleteSession_fails
                         Samples.signed_in)) = Some "secret1"%string.
Proof.
  destruct (session_cookie_follows_backend Samples.backend_deleteSession_fails
              Samples.signed_in) as [_ [_ Hcookie]].
  destruct (Hcookie "secret1"%string eq_refl) as [Hr [_ Hkept]];
    [discriminate|].
  split; [exact Hr|].
  exact (Hkept (AppwriteException "general_server_error") eq_refl).
Defined.

End AuthFacts.

(* ================================================================== *)
(** * What the server actions change *)
(* ================================================================== *)

Module FrameFacts.
Import Js JsFacts Server Actions ErrorFacts AuthFacts Frames Uploads.
Local Open Scope list_scope.

(** X17. A server action changes only what it is about: the session cookie
    is written by verifySecret and signOutUser only, the storage bucket by
    uploadFile and deleteFile only, and a path is revalidated exactly when
    uploadFile, renameFile, updateFileUsers or deleteFile returns normally;
    it is the path of the call, once. *)
Theorem server_action_frame
  (be : Backend) (env : Utils.Env) (Date_getTime : string -> option Z)
  (a : server_action) (w : World) :
  let result := perform be env Date_getTime a w in
  (writes_cookie a = false ->
   session_cookie (snd result) = session_cookie w) /\
  (writes_bucket a = false -> bucket (snd result) = bucket w) /\
  revalidated (snd result) =
  revalidated w ++ match revalidates a, fst result with
                   | Some path, Normal _ => [path]
                   | _, _ => []
                   end.
Proof.
  intros result. subst result.
  destruct a; unfold_actions; repeat step_run; simpl_run.
  all: cbn [writes_cookie writes_bucket revalidates].
  all: repeat split; intros; try discriminate; try reflexivity;
    try assumption; try (symmetry; apply app_nil_r); try congruence.
Qed.

Lemma server_action_frame_witness :
  bucket (snd (perform Samples.backend Samples.env Samples.Date_getTime
                 (RenameFile (FileActions.mkRename "d1" "b" "png" "/images"))
                 Samples.signed_in)) = [] /\
  revalidated (snd (perform Samples.backend Samples.env Samples.Date_getTime
                      (RenameFile
                         (FileActions.mkRename "d1" "b" "png" "/images"))
                      Samples.signed_in)) = ["/images"%string].
Proof.
  destruct (server_action_frame Samples.backend Samples.env
              Samples.Date_getTime
              (RenameFile (FileActions.mkRename "d1" "b" "png" "/images"))
              Samples.signed_in) as [_ [Hbucket Hpath]].
  split; [exact (Hbucket eq_refl)|exact Hpath].
Defined.

(** X18. deleteFile deletes the document first and the blob second: the
    storage is asked to delete, and only the blob of the call, only after
    deleteDocument returned a truthy answer; if the storage then refuses,
    the action throws that error, the blob stays in the bucket and nothing
    is revalidated although the document is gone; if it accepts, the blob
    has left the bucket. *)
Theorem deleteFile_document_first
  (be : Backend) (props : FileActions.DeleteFileProps) (w : World) :
  let result := FileActions.deleteFile be props w in
  exists events,
    trace (snd result) = trace w ++ events /\
    (forall fileId failure,
       In (mkEvent (storage_deleteFile fileId) failure) events ->
       fileId = FileActions.bucketFileId props /\
       deleteDocument be (FileActions.del_fileId props) = Normal true /\
       events =
         [ mkEvent (databases_deleteDocument filesCollection
                      (FileActions.del_fileId props)) None;
           mkEvent (storage_deleteFile fileId) failure ]) /\
    (forall e,
       deleteDocument be (FileActions.del_fileId props) = Normal true ->
       Server.deleteFile be (FileActions.bucketFileId props) = Throw e ->
       fst result = Throw e /\
       bucket (snd result) = bucket w /\
       revalidated (snd result) = revalidated w) /\
    (forall u,
       deleteDocument be (FileActions.del_fileId props) = Normal true ->
       Server.deleteFile be (FileActions.bucketFileId props) = Normal u ->
       fst result = Normal "success"%string /\
       ~ In (FileActions.bucketFileId props) (bucket (snd result))) /\
    (forall e,
       deleteDocument be (FileActions.del_fileId props) = Throw e ->
       fst result = Throw e /\ bucket (snd result) = bucket w).
Proof.
  unfold_actions; repeat step_run; simpl_run.
  all: eexists; (split; [solve_suffix|]).
  all: repeat match goal with |- _ /\ _ => split end; intros.
  all: open_hyps.
  all: try close_goal.
  all: try solve [split; [reflexivity|apply UploadFacts.filter_not_In]].
  all: repeat split; congruence.
Qed.

Lemma deleteFile_document_first_witness :
  fst (FileActions.deleteFile MoreSamples.backend_storage_delete_fails
         (FileActions.mkDelete "d1" "blob1" "/images")
         (mkWorld [] [] ["blob1"%string] (Some "secret1"%string) [])) =
  Throw (AppwriteException "storage_file_not_found") /\
  bucket (snd (FileActions.deleteFile MoreSamples.backend_storage_delete_fails
                 (FileActions.mkDelete "d1" "blob1" "/images")
                 (mkWorld [] [] ["blob1"%string] (Some "secret1"%string) []))) =
  ["blob1"%string].
Proof.
  destruct (deleteFile_document_first MoreSamples.backend_storage_delete_fails
              (FileActions.mkDelete "d1" "blob1" "/images")
              (mkWorld [] [] ["blob1"%string] (Some "secret1"%string) []))
    as [events [_ [_ [Horphan _]]]].
  destruct (Horphan (AppwriteException "storage_file_not_found")
                    eq_refl eq_refl) as [Hr [Hb _]].
  split; [exact Hr|exact Hb].
Defined.

Lemma getFileType_type_closed (fileName : string) :
  In (Utils.type (Utils.getFileType fileName)) Utils.fileTypes.
Proof.
  destruct (UtilsFacts.getFileType_cases fileName)
    as [e [_ [[_ ->] | [_ ->]]]].
  - cbn. tauto.
  - apply UtilsFacts.classify_type_closed.
Qed.

Lemma filter_fresh (id : string) (l : list string) :
  ~ In id l ->
  filter (fun i => negb (String.eqb i id)) (l ++ [id]) = l.
Proof.
  intros Hfresh. rewrite filter_app. cbn [filter].
  rewrite String.eqb_refl. cbn [negb]. rewrite app_nil_r.
  induction l as [|x l IH]; [reflexivity|].
  cbn [filter]. destruct (String.eqb_spec x id) as [->|Hne].
  - exfalso. apply Hfresh. now left.
  - cbn [negb]. f_equal. apply IH. intros H. apply Hfresh. now right.
Qed.

(** X19. uploadFile, blob first and document second: when the storage
    refuses the blob no document is created and the bucket is unchanged;
    a document is created only for a blob that was stored, with the owner
    and account of the call, no shared users, the size and id of the blob
    and a type of the closed set; when both succeed the document is
    returned and the blob is in the bucket; and when the document fails
    and the rollback succeeds, a bucket that did not hold the new id is
    back to what it was. *)
Theorem uploadFile_outcomes
  (be : Backend) (env : Utils.Env) (props : FileActions.UploadFileProps)
  (w : World) :
  let result := FileActions.uploadFile be env props w in
  exists events,
    trace (snd result) = trace w ++ events /\
    (forall data failure,
       In (mkEvent (databases_createDocument filesCollection data) failure)
          events ->
       exists b type name url extension,
         createFile be (FileActions.file props) = Normal b /\
         data = FileData type name url extension (sizeOriginal b)
                         (FileActions.ownerId props)
                         (FileActions.up_accountId props) [] (b_id b) /\
         In type Utils.fileTypes) /\
    (forall e, createFile be (FileActions.file props) = Throw e ->
       fst result = Throw e /\ bucket (snd result) = bucket w /\
       events = [mkEvent (storage_createFile (FileActions.file props))
                         (Some e)]) /\
    (forall b doc,
       createFile be (FileActions.file props) = Normal b ->
       createFileDocument be (fileDocument_of env props b) = Normal doc ->
       fst result = Normal doc /\
       bucket (snd result) = bucket w ++ [b_id b] /\
       List.length events = 2%nat) /\
    (forall b e u,
       createFile be (FileActions.file props) = Normal b ->
       createFileDocument be (fileDocument_of env props b) = Throw e ->
       Server.deleteFile be (b_id b) = Normal u ->
       ~ In (b_id b) (bucket w) ->
       bucket (snd result) = bucket w).
Proof.
  unfold fileDocument_of.
  unfold_actions; repeat step_run; simpl_run.
  all: eexists; (split; [solve_suffix|]).
  all: repeat match goal with |- _ /\ _ => split end; intros.
  all: open_hyps.
  all: try close_goal.
  all: try solve [do 5 eexists; split; [reflexivity|];
                  split; [reflexivity|apply getFileType_type_closed]].
  all: try solve [repeat split; congruence].
  all: try solve [now apply filter_fresh].
Qed.

Lemma uploadFile_outcomes_witness :
  bucket (snd (FileActions.uploadFile Samples.backend_document_fails
                 Samples.env
                 (FileActions.mkUpload Samples.notes "u1" "acc1" "/")
                 (mkWorld [] [] ["blob1"%string] (Some "secret1"%string) []))) =
  ["blob1"%string].
Proof.
  destruct (uploadFile_outcomes Samples.backend_document_fails Samples.env
              (FileActions.mkUpload Samples.notes "u1" "acc1" "/")
              (mkWorld [] [] ["blob1"%string] (Some "secret1"%string) []))
    as [events [_ [_ [_ [_ Hrollback]]]]].
  apply (Hrollback (mkBucketFile "blob9" "notes.txt" 2048)
                   (AppwriteException "document_invalid_structure") tt);
    try reflexivity.
  intros [H | []]. discriminate H.
Defined.

End FrameFacts.

(* ================================================================== *)
(** * The forms and dialogs that call the server actions *)
(* ================================================================== *)

Module PageFacts.
Import Js JsFacts Server Actions ErrorFacts AuthFacts Pages Frames.
Local Open Scope list_scope.

(** X20. The sign-in and sign-up form always ends not loading and shows
    either no message or the one generic message, in which case the account
    id is what it was; a refused user lookup gives the generic message; and
    signing in with an e-mail no user has shows no message at all: the
    account id becomes null and nothing but the lookup was sent. *)
Theorem onSubmit_outcomes
  (be : Backend) (type : FormType) (values : AuthValues) (st : AuthState)
  (w : World) :
  let result := onSubmit be type values st w in
  let st' := fst result in
  isLoading st' = false /\
  (errorMessage st' = EmptyString \/
   errorMessage st' = generic_message /\
   auth_accountId st' = auth_accountId st) /\
  (forall e,
     listUsers be [Query_equal "email" [v_email values]] = Throw e ->
     errorMessage st' = generic_message) /\
  (forall list,
     type = sign_in ->
     listUsers be [Query_equal "email" [v_email values]] = Normal list ->
     total list <= 0 \/ hd_error (documents list) = None ->
     errorMessage st' = EmptyString /\
     auth_accountId st' = None /\
     trace (snd result) =
     trace w ++ [ mkEvent (databases_listDocuments usersCollection
                             [Query_equal "email" [v_email values]]) None ]).
Proof.
  unfold onSubmit, generic_message.
  destruct type; unfold_actions; repeat step_run; simpl_run.
  all: repeat match goal with |- _ /\ _ => split end; intros.
  all: open_hyps.
  all: try close_goal.
Qed.

Lemma onSubmit_outcomes_witness :
  fst (onSubmit MoreSamples.backend_no_user sign_in
         (mkValues "eve@example.com" None) (mkAuth false EmptyString None)
         Samples.signed_in) = mkAuth false EmptyString None.
Proof.
  destruct (onSubmit_outcomes MoreSamples.backend_no_user sign_in
              (mkValues "eve@example.com" None) (mkAuth false EmptyString None)
              Samples.signed_in) as [Hload [_ [_ Hsilent]]].
  destruct (Hsilent (mkList 0 []) eq_refl eq_refl) as [Hmsg [Hacc _]].
  - left. cbn. lia.
  - cbv zeta in Hload.
    destruct (fst (onSubmit MoreSamples.backend_no_user sign_in
                     (mkValues "eve@example.com" None)
                     (mkAuth false EmptyString None) Samples.signed_in))
      as [l m a].
    cbn in Hload, Hmsg, Hacc. now subst.
Defined.

(** X21. handleAction of the file dropdown: without a selected action it
    does nothing; details and download have no handler, so the call throws
    a TypeError without a call of the backend; rename sends the typed name
    followed by a dot and the extension of the file, whatever was typed;
    after a server action that returned, the dialogs are closed, the name
    is reset and loading is off; after one that threw, the error reaches
    the caller with loading still on and the dialog as it was. *)
Theorem handleAction_outcomes
  (be : Backend) (file : FileItem) (path : string) (st : DropdownState)
  (w : World) :
  let result := handleAction be file path st w in
  let c := fst (fst result) in
  let st' := snd (fst result) in
  let w' := snd result in
  (action_ st = None -> c = Normal tt /\ st' = st /\ w' = w) /\
  (action_ st = Some details \/ action_ st = Some download ->
   c = Throw (TypeError "actions[action.value] is not a function") /\
   w' = w /\ st' = setIsLoading true st) /\
  (action_ st = Some rename ->
   exists failure,
     trace w' = trace w ++
       [ mkEvent (databases_updateDocument filesCollection (i_id file)
                    (NameUpdate (name st ++ "." ++ i_extension file)%string))
                 failure ]) /\
  (action_ st <> None -> c = Normal tt ->
   st' = mkDropdown false false None (i_name file) false (emails st)) /\
  (forall e, c = Throw e -> st' = setIsLoading true st).
Proof.
  unfold handleAction, actions, closeAllModals, setIsLoading.
  destruct (action_ st) as [[| | | |]|]; unfold_actions; repeat step_run;
    simpl_run.
  all: repeat match goal with |- _ /\ _ => split end; intros.
  all: open_hyps.
  all: try close_goal.
  all: try solve [eexists; solve_suffix].
  all: try solve [destruct st; reflexivity].
Qed.

Lemma handleAction_outcomes_witness :
  exists failure,
    trace (snd (handleAction Samples.backend MoreSamples.item "/images"
                  (mkDropdown true false (Some rename) "a.png" false [])
                  Samples.signed_in)) =
    [ mkEvent (databases_updateDocument filesCollection "d1"
                 (NameUpdate "a.png.png")) failure ].
Proof.
  destruct (handleAction_outcomes Samples.backend MoreSamples.item "/images"
              (mkDropdown true false (Some rename) "a.png" false [])
              Samples.signed_in) as [_ [_ [Hrename _]]].
  destruct (Hrename eq_refl) as [failure Htrace].
  exists failure. exact Htrace.
Defined.

(** X22. handleRemoveUser sends the e-mails typed into the share dialog
    without the removed one, never that one, and nothing else; the list of
    users stored with the file is not consulted, so with nothing typed the
    request empties the sharing list. When the update returns, the typed
    list is the sent list and the dialogs are closed; when it throws, the
    state is unchanged. *)
Theorem handleRemoveUser_outcomes
  (be : Backend) (file : FileItem) (path email : string)
  (st : DropdownState) (w : World) :
  let result := handleRemoveUser be file path email st w in
  let c := fst (fst result) in
  let st' := snd (fst result) in
  let sent := filter (fun e => negb (String.eqb e email)) (emails st) in
  ~ In email sent /\
  (forall e, In e (emails st) -> e <> email -> In e sent) /\
  (emails st = [] -> sent = []) /\
  (exists failure,
     trace (snd result) = trace w ++
       [ mkEvent (databases_updateDocument filesCollection (i_id file)
                    (UsersUpdate sent)) failure ]) /\
  (c = Normal tt ->
   st' = mkDropdown false false None (i_name file) (dd_isLoading st) sent) /\
  (forall e, c = Throw e -> st' = st).
Proof.
  unfold handleRemoveUser, closeAllModals, setEmails.
  unfold_actions; repeat step_run; simpl_run.
  all: repeat match goal with |- _ /\ _ => split end; intros.
  all: try apply UploadFacts.filter_not_In.
  all: try (apply filter_In; split; [assumption|];
            apply negb_true_iff; now apply String.eqb_neq).
  all: try match goal with H : emails _ = [] |- _ => now rewrite H end.
  all: open_hyps.
  all: try close_goal.
  all: try solve [eexists; solve_suffix].
Qed.

Lemma handleRemoveUser_outcomes_witness :
  exists failure,
    trace (snd (handleRemoveUser Samples.backend MoreSamples.item "/images"
                  "bob@example.com" MoreSamples.dropdown_share
                  Samples.signed_in)) =
    [ mkEvent (databases_updateDocument filesCollection "d1" (UsersUpdate []))
              failure ].
Proof.
  destruct (handleRemoveUser_outcomes Samples.backend MoreSamples.item
              "/images" "bob@example.com" MoreSamples.dropdown_share
              Samples.signed_in) as [_ [_ [Hempty [[failure Htrace] _]]]].
  exists failure. rewrite Htrace. cbv zeta in Hempty.
  rewrite (Hempty eq_refl). reflexivity.
Defined.

End PageFacts.

(* ================================================================== *)
(** * FileUploader: the list of pending files *)
(* ================================================================== *)

Module PendingFacts.
Import Js JsFacts Server Uploader UploaderFacts.
Local Open Scope list_scope.

Section OnDrop.
Variables ownerId accountId path : string.
Variable uploadFile_result :
  FileActions.UploadFileProps -> completion (option FileDoc).

Local Abbreviation props_of := (Uploader.props_of ownerId accountId path).
Local Abbreviation effect_of := (Uploader.effect_of ownerId accountId path).
Local Abbreviation start := (Uploader.start ownerId accountId path).
Local Abbreviation settle :=
  (Uploader.settle ownerId accountId path uploadFile_result).
Local Abbreviation onDrop :=
  (Uploader.onDrop ownerId accountId path uploadFile_result).

Lemma start_files (l : list File) (st : State) (g : File) :
  In g (files (fold_left start l st)) <->
  In g (files st) /\
  forall f, In f l -> MAX_FILE_SIZE < file_size f ->
            file_name g <> file_name f.
Proof.
  revert st. induction l as [|a l IH]; intros st; cbn [fold_left].
  - split; [intros H; split; [exact H|intros f []]|tauto].
  - rewrite IH. unfold Uploader.start.
    destruct (Z.ltb_spec MAX_FILE_SIZE (file_size a)) as [Hbig|Hsmall];
      cbn [files].
    + rewrite (In_without a g). split.
      * intros [[Hin Hname] Hl]. split; [exact Hin|].
        intros f [<- | Hf] Hsz; [exact Hname|now apply Hl].
      * intros [Hin Hl]. split; [split; [exact Hin|]|].
        -- apply Hl; [now left|exact Hbig].
        -- intros f Hf. apply Hl. now right.
    + split.
      * intros [Hin Hl]. split; [exact Hin|].
        intros f [<- | Hf] Hsz; [lia|now apply Hl].
      * intros [Hin Hl]. split; [exact Hin|].
        intros f Hf. apply Hl. now right.
Qed.

Lemma settle_effects (l : list File) (st : State) :
  effects (fold_left settle l st) = effects st.
Proof. apply fold_settle. Qed.

Lemma settle_files (l : list File) (st : State) (g : File) :
  In g (files (fold_left settle l st)) <->
  In g (files st) /\
  forall f d, In f l -> file_size f <= MAX_FILE_SIZE ->
              uploadFile_result (props_of f) = Normal (Some d) ->
              file_name g <> file_name f.
Proof.
  revert st. induction l as [|a l IH]; intros st; cbn [fold_left].
  - split; [intros H; split; [exact H|intros f d []]|tauto].
  - rewrite IH. unfold Uploader.settle.
    destruct (Z.ltb_spec MAX_FILE_SIZE (file_size a)) as [Hbig|Hsmall].
    + split.
      * intros [Hin Hl]. split; [exact Hin|].
        intros f d [<- | Hf] Hsz Hup; [lia|now apply (Hl f d)].
      * intros [Hin Hl]. split; [exact Hin|].
        intros f d Hf. apply Hl. now right.
    + destruct (uploadFile_result (props_of a)) as [[doc|]|e] eqn:Hres;
        cbn [files].
      * rewrite (In_without a g). split.
        -- intros [[Hin Hname] Hl]. split; [exact Hin|].
           intros f d [<- | Hf] Hsz Hup; [exact Hname|now apply (Hl f d)].
        -- intros [Hin Hl]. split; [split; [exact Hin|]|].
           ++ apply (Hl a doc); [now left|exact Hsmall|exact Hres].
           ++ intros f d Hf. apply Hl. now right.
      * split.
        -- intros [Hin Hl]. split; [exact Hin|].
           intros f d [<- | Hf] Hsz Hup; [congruence|now apply (Hl f d)].
        -- intros [Hin Hl]. split; [exact Hin|].
           intros f d Hf. apply Hl. now right.
      * split.
        -- intros [Hin Hl]. split; [exact Hin|].
           intros f d [<- | Hf] Hsz Hup; [congruence|now apply (Hl f d)].
        -- intros [Hin Hl]. split; [exact Hin|].
           intros f d Hf. apply Hl. now right.
Qed.

(** X23. After onDrop the pending list is made of accepted files only,
    whatever was pending before: a file is pending iff it was accepted and
    no accepted file of the same name was too large or was uploaded; so a
    file whose upload threw or returned nothing stays pending. Each
    accepted file causes exactly one effect, in the order of the drop. *)
Theorem onDrop_pending (acceptedFiles : list File) (st : State) :
  let st' := snd (onDrop acceptedFiles st) in
  effects st' = effects st ++ map effect_of acceptedFiles /\
  (forall g, In g (files st') <->
     In g acceptedFiles /\
     forall f, In f acceptedFiles -> file_name f = file_name g ->
       file_size f <= MAX_FILE_SIZE /\
       forall d, uploadFile_result (props_of f) <> Normal (Some d)).
Proof.
  intros st'. subst st'. unfold Uploader.onDrop. cbn [snd].
  split.
  - rewrite settle_effects.
    now destruct (fold_start ownerId accountId path acceptedFiles
                    (mkState acceptedFiles (effects st))) as [-> _].
  - intros g. rewrite settle_files, start_files. cbn [files]. split.
    + intros [[Hin Hbig] Hup]. split; [exact Hin|].
      intros f Hf Hname.
      assert (Hsz : file_size f <= MAX_FILE_SIZE).
      { destruct (Z.le_gt_cases (file_size f) MAX_FILE_SIZE) as [H|H];
          [exact H|]. exfalso. apply (Hbig f Hf); [lia|congruence]. }
      split; [exact Hsz|]. intros d Hd.
      apply (Hup f d Hf Hsz Hd). congruence.
    + intros [Hin Hall]. repeat split; [exact Hin| |].
      * intros f Hf Hsz Hname.
        destruct (Hall f Hf (eq_sym Hname)) as [Hle _]. lia.
      * intros f d Hf Hsz Hd Hname.
        destruct (Hall f Hf (eq_sym Hname)) as [_ Hno]. now apply (Hno d).
Qed.

End OnDrop.

Lemma onDrop_pending_witness :
  In Samples.notes
     (files (snd (Uploader.onDrop "u1" "acc1" "/"
                    (fun _ => Throw (AppwriteException "general_server_error"))
                    [Samples.notes; Samples.movie]
                    (mkState [Samples.movie] [])))).
Proof.
  destruct (onDrop_pending "u1" "acc1" "/"
              (fun _ => Throw (AppwriteException "general_server_error"))
              [Samples.notes; Samples.movie] (mkState [Samples.movie] []))
    as [_ Hpending].
  apply Hpending. split; [now left|].
  intros f [<- | [<- | []]] Hname; [|discriminate Hname].
  split; [vm_compute; discriminate|]. intros d H. discriminate H.
Defined.

End PendingFacts.

(* ================================================================== *)
(** * formatDateTime *)
(* ================================================================== *)

Module DateFacts.
Import Js JsFacts JsMore Dates.
Local Open Scope list_scope.

Lemma below_by_cases (P : Z -> Prop) (bound : nat) :
  (forall n : nat, (n < bound)%nat -> P (Z.of_nat n)) ->
  forall z, 0 <= z < Z.of_nat bound -> P z.
Proof.
  intros H z Hz. rewrite <- (Z2Nat.id z) by lia. apply H. lia.
Qed.

Lemma minutes_two_digits (m : Z) :
  0 <= m < 60 ->
  String.length (padStart2 (Number_toString m)) = 2%nat /\
  digits_value (padStart2 (Number_toString m)) 0 = Some m.
Proof.
  intros Hm. pattern m. apply (below_by_cases _ 60%nat); [|lia].
  clear m Hm. intros n Hn.
  do 60 (destruct n as [|n]; [split; reflexivity|]). lia.
Qed.

Lemma hours_decode (h : Z) :
  0 <= h < 24 ->
  let h12 := if h mod 12 =? 0 then 12 else h mod 12 in
  1 <= h12 <= 12 /\
  ((12 <=? h) = false /\ h = h12 mod 12 \/
   (12 <=? h) = true /\ h = h12 mod 12 + 12).
Proof.
  intros Hh. pattern h. apply (below_by_cases _ 24%nat); [|lia].
  clear h Hh. intros n Hn.
  do 24 (destruct n as [|n];
         [vm_compute; split;
          [split; discriminate
          |first [left; split; reflexivity | right; split; reflexivity]]|]).
  lia.
Qed.

Lemma time_assoc (a b c d : string) :
  ((a ++ ":" ++ b ++ c) ++ d)%string = (a ++ ":" ++ b ++ c ++ d)%string.
Proof.
  rewrite JsFacts.append_assoc. cbn [append].
  now rewrite JsFacts.append_assoc.
Qed.

Section WithDate.
Variable Date_local : string -> option LocalDate.

(** X24. formatDateTime returns the dash only for a missing or empty
    string; a non-empty string that is no date is printed as
    12:NaNam, NaN undefined; a date is printed as hour:minutes and period,
    a comma, the day and the month name, where the hour is between 1 and 12
    and with the period gives back the hour of the day, the minutes have
    two digits, and the month name is the one of the month. *)
Theorem formatDateTime_cases :
  formatDateTime Date_local None = "—"%string /\
  formatDateTime Date_local (Some EmptyString) = "—"%string /\
  (forall iso, iso <> EmptyString -> Date_local iso = None ->
     formatDateTime Date_local (Some iso) = "12:NaNam, NaN undefined"%string) /\
  (forall iso date,
     iso <> EmptyString -> Date_local iso = Some date -> in_range date ->
     exists hours12 minutes2 period month,
       formatDateTime Date_local (Some iso) =
         (Number_toString hours12 ++ ":" ++ minutes2 ++ period ++ ", " ++
          Number_toString (getDate date) ++ " " ++ month)%string /\
       1 <= hours12 <= 12 /\
       (period = "am"%string /\ getHours date = hours12 mod 12 \/
        period = "pm"%string /\ getHours date = hours12 mod 12 + 12) /\
       String.length minutes2 = 2%nat /\
       digits_value minutes2 0 = Some (getMinutes date) /\
       nth_error monthNames (Z.to_nat (getMonth date)) = Some month).
Proof.
  split; [reflexivity|]. split; [reflexivity|]. split.
  - intros iso Hne Hd. unfold formatDateTime.
    destruct iso; [congruence|]. cbn [truthy_string negb]. now rewrite Hd.
  - intros iso date Hne Hd [Hh [Hm [_ Hmo]]]. unfold formatDateTime.
    destruct iso as [|c iso']; [congruence|]. cbn [truthy_string negb].
    rewrite Hd.
    destruct (hours_decode (getHours date) Hh) as [H12 Hperiod].
    destruct (minutes_two_digits (getMinutes date) Hm) as [Hlen Hval].
    cbv zeta in *.
    destruct (nth_error monthNames (Z.to_nat (getMonth date))) as [mo|] eqn:E.
    + exists (if getHours date mod 12 =? 0 then 12 else getHours date mod 12),
             (padStart2 (Number_toString (getMinutes date))),
             (if 12 <=? getHours date then "pm"%string else "am"%string), mo.
      split; [apply time_assoc|]. split; [exact H12|].
      split; [|split; [exact Hlen|split; [exact Hval|reflexivity]]].
      destruct Hperiod as [[-> Heq] | [-> Heq]]; [left|right];
        (split; [reflexivity|exact Heq]).
    + apply nth_error_None in E. cbn [monthNames List.length] in E. lia.
Qed.

End WithDate.

Lemma formatDateTime_cases_witness :
  formatDateTime MoreSamples.Date_local (Some "yesterday"%string) =
    "12:NaNam, NaN undefined"%string /\
  formatDateTime MoreSamples.Date_local
                 (Some "2024-01-05T10:00:00.000+00:00"%string) =
    "1:00pm, 5 Jan"%string.
Proof.
  destruct (formatDateTime_cases MoreSamples.Date_local)
    as [_ [_ [Hinvalid Hvalid]]].
  split.
  - apply Hinvalid; [discriminate|reflexivity].
  - destruct (Hvalid "2024-01-05T10:00:00.000+00:00"%string
                     (mkLocal 13 0 5 0)) as [h [m [p [mo [Heq _]]]]].
    + discriminate.
    + reflexivity.
    + unfold in_range. cbn. lia.
    + reflexivity.
Defined.

End DateFacts.
